(** * ULP File Organizer: the validate / deduplicate / append engine

    A shallow embedding of [ULPValidator] and [FileProcessor] of
    [main.py], and the properties of the streaming engine.

    Conventions of the embedding.
    - A Python [str] is a list of Unicode code points ([list N]).
    - A text file is the text a reader of the file obtains: decoded
      (undecodable bytes already dropped, [errors='ignore']) and with
      universal newlines applied, so the only line terminator is
      U+000A.  The master file, the target file and the three log
      files are assumed to be distinct files, and the target file is
      not modified while the run lasts.
    - Counters are unbounded Python integers ([nat]).
    - Opening a file may fail ([Files] says which); the exception
      goes to the handler of [process_files].  Reads and writes of an
      open file do not fail.
    - The commands [pause], [resume] and [stop] come from another
      thread.  They take effect atomically under [self.lock]; the
      worker reads the flags once per line under the same lock.  A run
      is therefore parameterised by a schedule: for each line
      boundary, the commands that completed since the previous one.
      The lock protocol itself is modelled as an interleaving step
      relation in [Module LockProtocol]. *)

From Stdlib Require Import NArith String Ascii DecimalString.
From stdpp Require Import gmap strings list.

Open Scope nat_scope.

(** ** Python strings *)

Abbreviation str := (list N).

(** A source literal as a Python string. *)
Definition py (s : string) : str :=
  N_of_ascii <$> list_ascii_of_string s.

(** [str(n)] for a non-negative integer. *)
Definition str_of_nat (n : nat) : str :=
  py (NilZero.string_of_uint (Nat.to_uint n)).

Definition NL : N := 10%N.
Definition COLON : N := 58%N.

(** [c.isspace()] for one code point: the characters [str.strip()]
    removes when called without argument. *)
Definition isspace (c : N) : bool :=
  ((9 <=? c) && (c <=? 13) || (28 <=? c) && (c <=? 32)
   || (c =? 133) || (c =? 160) || (c =? 5760)
   || (8192 <=? c) && (c <=? 8202)
   || (c =? 8232) || (c =? 8233) || (c =? 8239) || (c =? 8287)
   || (c =? 12288))%N.

Fixpoint lstrip (s : str) : str :=
  match s with
  | [] => []
  | c :: t => if isspace c then lstrip t else s
  end.

Definition rstrip (s : str) : str := rev (lstrip (rev s)).

(** [s.strip()] *)
Definition strip (s : str) : str := rstrip (lstrip s).

(** [s.partition(sep)] restricted to what [split] needs: the text
    before and after the first occurrence of [sep], if there is one. *)
Fixpoint cut (sep : N) (s : str) : option (str * str) :=
  match s with
  | [] => None
  | c :: t =>
      if (c =? sep)%N then Some ([], t)
      else match cut sep t with
           | Some (pre, post) => Some (c :: pre, post)
           | None => None
           end
  end.

(** [s.split(sep, maxsplit)] for a one-character separator. *)
Fixpoint split (sep : N) (maxsplit : nat) (s : str) : list str :=
  match maxsplit with
  | 0 => [s]
  | S m =>
      match cut sep s with
      | None => [s]
      | Some (pre, post) => pre :: split sep m post
      end
  end.

(** ** ULPValidator *)

Module ULPValidator.

(** [validate_line(line, line_num)]: the triple
    [(is_valid, reason, clean_line)]. *)
Definition validate_line (line : str) (line_num : nat)
  : bool * string * str :=
  let line := strip line in
  if bool_decide (line = []) then (false, "Empty Line"%string, line)
  else
    let parts := split COLON 2 line in
    if negb (length parts =? 3) then (false, "Not Enough Parts"%string, line)
    else (true, "Valid"%string, line).

End ULPValidator.
Import ULPValidator.

(** The outcome of the classifier in the vocabulary of the design. *)
Inductive Reason := EmptyLine | NotEnoughParts | Duplicate.

#[global] Instance Reason_eq_dec : EqDecision Reason.
Proof. solve_decision. Defined.

Inductive Outcome :=
| Valid (record : str)
| Rejected (reason : Reason).

Definition classify (raw : str) : option Outcome :=
  match validate_line raw 0 with
  | (true, _, clean) => Some (Valid clean)
  | (false, reason, _) =>
      if String.eqb reason "Empty Line" then Some (Rejected EmptyLine)
      else if String.eqb reason "Not Enough Parts"
           then Some (Rejected NotEnoughParts)
           else None
  end.

(** ** Text files and dictionaries *)

(** Iterating over a text file yields its lines, each with its
    terminator; a last line without terminator is yielded too. *)
Fixpoint file_lines (text : str) : list str :=
  match text with
  | [] => []
  | c :: rest =>
      if (c =? NL)%N then [c] :: file_lines rest
      else match file_lines rest with
           | [] => [[c]]
           | l :: ls => (c :: l) :: ls
           end
  end.

(** A Python [dict] with string keys: insertion-ordered. *)
Section Dict.
Context {V : Type}.

Fixpoint dict_get (k : string) (d : list (string * V)) : option V :=
  match d with
  | [] => None
  | (k', v) :: d' => if String.eqb k' k then Some v else dict_get k d'
  end.

Fixpoint dict_set (k : string) (v : V) (d : list (string * V))
  : list (string * V) :=
  match d with
  | [] => [(k, v)]
  | (k', v') :: d' =>
      if String.eqb k' k then (k', v) :: d'
      else (k', v') :: dict_set k v d'
  end.

End Dict.

(** ** FileProcessor *)

Module FileProcessor.

Inductive Resource :=
| TargetFile            (* a read handle on the target file *)
| MasterRead            (* the read handle of the preload *)
| MasterFd              (* [master_fd], opened for appending *)
| LogFile (reason : string).

#[global] Instance Resource_eq_dec : EqDecision Resource.
Proof. solve_decision. Defined.

Inductive Error :=
| CannotOpen (r : Resource)
| CannotCreateLogsFolder.

(** What the run does to the outside, in order: handles opened and
    closed, and the signals of [SignalEmitter]. *)
Inductive Event :=
| Open (r : Resource)
| Close (r : Resource)
| update_progress (total processed valid rejected : nat)
| processing_complete
| error_occurred (e : Error).

(** The files a run starts from. *)
Record Files := {
  target_file : option str;   (* [None]: the target cannot be opened *)
  master_file : option str;   (* [None]: the master does not exist *)
  master_appendable : bool;   (* can the master be opened with 'a' *)
  logs_folder : bool;         (* the folder exists or [os.makedirs] works *)
  log_openable : string -> bool
                              (* can the log of a reason be opened with 'w' *)
}.

(** The fields of [self] (flags, counters, [log_files]: reason to the
    text written to that stream), the locals [existing_lines] and the
    master file on disk, and the events so far (oldest first). *)
Record State := mkState {
  is_running : bool;
  is_paused : bool;
  total_lines : nat;
  processed_lines : nat;
  valid_lines : nat;
  rejected_lines : nat;
  log_files : list (string * str);
  existing_lines : gset str;
  master : option str;
  trace : list Event
}.

Definition set_is_running (b : bool) (s : State) : State :=
  mkState b (is_paused s) (total_lines s) (processed_lines s)
    (valid_lines s) (rejected_lines s) (log_files s) (existing_lines s)
    (master s) (trace s).
Definition set_is_paused (b : bool) (s : State) : State :=
  mkState (is_running s) b (total_lines s) (processed_lines s)
    (valid_lines s) (rejected_lines s) (log_files s) (existing_lines s)
    (master s) (trace s).
Definition set_total_lines (n : nat) (s : State) : State :=
  mkState (is_running s) (is_paused s) n (processed_lines s)
    (valid_lines s) (rejected_lines s) (log_files s) (existing_lines s)
    (master s) (trace s).
Definition set_processed_lines (n : nat) (s : State) : State :=
  mkState (is_running s) (is_paused s) (total_lines s) n
    (valid_lines s) (rejected_lines s) (log_files s) (existing_lines s)
    (master s) (trace s).
Definition set_valid_lines (n : nat) (s : State) : State :=
  mkState (is_running s) (is_paused s) (total_lines s) (processed_lines s)
    n (rejected_lines s) (log_files s) (existing_lines s)
    (master s) (trace s).
Definition set_rejected_lines (n : nat) (s : State) : State :=
  mkState (is_running s) (is_paused s) (total_lines s) (processed_lines s)
    (valid_lines s) n (log_files s) (existing_lines s)
    (master s) (trace s).
Definition set_log_files (d : list (string * str)) (s : State) : State :=
  mkState (is_running s) (is_paused s) (total_lines s) (processed_lines s)
    (valid_lines s) (rejected_lines s) d (existing_lines s)
    (master s) (trace s).
Definition set_existing_lines (x : gset str) (s : State) : State :=
  mkState (is_running s) (is_paused s) (total_lines s) (processed_lines s)
    (valid_lines s) (rejected_lines s) (log_files s) x
    (master s) (trace s).
Definition set_master (m : option str) (s : State) : State :=
  mkState (is_running s) (is_paused s) (total_lines s) (processed_lines s)
    (valid_lines s) (rejected_lines s) (log_files s) (existing_lines s)
    m (trace s).
Definition emit (e : Event) (s : State) : State :=
  mkState (is_running s) (is_paused s) (total_lines s) (processed_lines s)
    (valid_lines s) (rejected_lines s) (log_files s) (existing_lines s)
    (master s) (trace s ++ [e]).

(** [__init__] *)
Definition init (fs : Files) : State :=
  mkState false false 0 0 0 0 [] ∅ (master_file fs) [].

(** Code that may raise: a state transformer with an error result. *)
Definition M (A : Type) : Type := State -> State * (Error + A).

Definition ret {A} (a : A) : M A := fun s => (s, inr a).
Definition raise {A} (e : Error) : M A := fun s => (s, inl e).
Definition bind {A B} (m : M A) (k : A -> M B) : M B :=
  fun s => match m s with
           | (s', inl e) => (s', inl e)
           | (s', inr a) => k a s'
           end.
Definition modify (f : State -> State) : M unit := fun s => (f s, inr tt).

#[global] Instance M_ret : MRet M := @ret.
#[global] Instance M_bind : MBind M := fun A B k m => bind m k.

Definition log_reasons : list string :=
  ["Not Enough Parts"; "Empty Line"; "Duplicate"]%string.

(** The name of the log file of a reason, inside [logs_folder]. *)
Definition log_file_name (reason : string) : string :=
  (reason ++ ".txt")%string.

(** Can the log files be created: the folder, then every log. *)
Definition logs_creatable (fs : Files) : bool :=
  logs_folder fs && forallb (log_openable fs) log_reasons.

(** [self.log_files[reason] = open(log_file, 'w', ...)]: the log
    starts empty. *)
Definition open_log (fs : Files) (reason : string) : M unit :=
  if log_openable fs reason then
    modify (fun s =>
      emit (Open (LogFile reason))
        (set_log_files (dict_set reason [] (log_files s)) s))
  else raise (CannotOpen (LogFile reason)).

(** [initialize_logs]: the folder is created if it is missing, then
    the logs are opened one after the other; an open that raises
    leaves the logs opened before it as they are. *)
Definition initialize_logs (fs : Files) : M unit :=
  if logs_folder fs then
    foldr (fun reason rest => open_log fs reason ;; rest) (ret tt)
      log_reasons
  else raise CannotCreateLogsFolder.

(** [close_logs] *)
Definition close_logs (s : State) : State :=
  foldl (fun s '(reason, _) => emit (Close (LogFile reason)) s)
    s (log_files s).

(** [f"Line {line_num}: {line_content}\n"] *)
Definition log_entry (line_num : nat) (line_content : str) : str :=
  py "Line " ++ str_of_nat line_num ++ py ": " ++ line_content ++ [NL].

(** [log_rejection(reason, line_num, line_content)] *)
Definition log_rejection (reason : string) (line_num : nat)
    (line_content : str) (s : State) : State :=
  match dict_get reason (log_files s) with
  | Some written =>
      set_log_files
        (dict_set reason (written ++ log_entry line_num line_content)
           (log_files s)) s
  | None => s
  end.

(** [master_fd.write(text); master_fd.flush()] on a file opened for
    appending. *)
Definition master_write (text : str) (s : State) : State :=
  set_master (Some (default [] (master s) ++ text)) s.

(** The commands of the controlling thread. *)
Definition pause (s : State) : State := set_is_paused true s.
Definition resume (s : State) : State := set_is_paused false s.
Definition stop (s : State) : State := set_is_running false s.

Inductive Command := Pause | Resume | Stop.

#[global] Instance Command_eq_dec : EqDecision Command.
Proof. solve_decision. Defined.

Definition execute (s : State) (c : Command) : State :=
  match c with
  | Pause => pause s
  | Resume => resume s
  | Stop => stop s
  end.

(** The body of the [for] loop after the pause/stop check. *)
Definition process_line (line_num : nat) (line : str) (s : State) : State :=
  let '(is_valid, reason, clean_line) := validate_line line line_num in
  let s :=
    if is_valid then
      if decide (clean_line ∈ existing_lines s) then
        let s := log_rejection "Duplicate" line_num clean_line s in
        set_rejected_lines (rejected_lines s + 1) s
      else
        let s := master_write (clean_line ++ [NL]) s in
        let s := set_existing_lines ({[clean_line]} ∪ existing_lines s) s in
        set_valid_lines (valid_lines s + 1) s
    else
      let s := log_rejection reason line_num clean_line s in
      set_rejected_lines (rejected_lines s + 1) s in
  let s := set_processed_lines line_num s in
  if (line_num mod 100 =? 0) || (line_num =? total_lines s) then
    emit (update_progress (total_lines s) (processed_lines s)
            (valid_lines s) (rejected_lines s)) s
  else s.

(** How the [for] loop ends.  [Spin]: the worker sleeps in the pause
    loop while it holds the lock, which no command can then take: the
    flags never change and the loop never ends
    (see [LockProtocol.pause_loop_is_forever]). *)
Inductive LoopExit := Exhausted | Break | Spin.

(** The [for] loop over the target file.  [sched] gives, for each
    iteration, the commands that took the lock since the previous
    iteration and before the worker takes it. *)
Fixpoint loop (target_f : list str) (line_num : nat)
    (sched : list (list Command)) (s : State) : State * LoopExit :=
  match target_f with
  | [] => (s, Exhausted)
  | line :: rest =>
      let line_num := line_num + 1 in
      let s := foldl execute s (default [] (head sched)) in
      if negb (is_running s) then (s, Break)
      else if is_paused s && is_running s then (s, Spin)
      else loop rest line_num (tail sched) (process_line line_num line s)
  end.

(** Opening the target file for reading. *)
Definition open_target (fs : Files) : M (list str) :=
  match target_file fs with
  | Some text => modify (emit (Open TargetFile)) ;; ret (file_lines text)
  | None => raise (CannotOpen TargetFile)
  end.

(** The preload of [existing_lines]. *)
Definition preload : M unit :=
  modify (fun s =>
    match master s with
    | Some text =>
        emit (Close MasterRead)
          (set_existing_lines (list_to_set (strip <$> file_lines text))
             (emit (Open MasterRead) s))
    | None => set_existing_lines ∅ s
    end).

(** [open(self.master_file, 'a')]: creates the file if needed. *)
Definition open_master (fs : Files) : M unit :=
  if master_appendable fs then
    modify (fun s =>
      emit (Open MasterFd) (set_master (Some (default [] (master s))) s))
  else raise (CannotOpen MasterFd).

Inductive Status := Returned | Hangs.

(** What follows the [for] loop: the target file leaves its [with]
    block, [master_fd] and the logs are closed, the final progress and
    the completion signal are emitted. *)
Definition finish (s : State) : State :=
  let s := emit (Close TargetFile) s in
  let s := emit (Close MasterFd) s in
  let s := close_logs s in
  let s := emit (update_progress (total_lines s) (processed_lines s)
                   (valid_lines s) (rejected_lines s)) s in
  emit processing_complete s.

(** The [for] loop and what follows it.  [None] stands for a worker
    that never leaves the pause loop: nothing after the loop is
    executed. *)
Definition loop_and_teardown (target_f : list str)
    (sched : list (list Command)) : M (option unit) :=
  fun s =>
    match loop target_f 0 sched s with
    | (s, Spin) => (s, inr None)
    | (s, _) => (finish s, inr (Some tt))
    end.

(** The [try] block of [process_files] up to the [for] loop: the
    pre-scan, the logs, the preload, [master_fd] and the target file
    opened for the pass. *)
Definition setup (fs : Files) : M (list str) :=
  modify (fun s => set_is_paused false (set_is_running true s)) ;;
  f ← open_target fs ;
  modify (set_total_lines (length f)) ;;
  modify (emit (Close TargetFile)) ;;
  initialize_logs fs ;;
  preload ;;
  open_master fs ;;
  open_target fs.

(** The [try] block of [process_files]. *)
Definition try_block (fs : Files) (sched : list (list Command))
  : M (option unit) :=
  target_f ← setup fs ;
  loop_and_teardown target_f sched.

(** [process_files], run from a fresh [FileProcessor]. *)
Definition process_files (fs : Files) (sched : list (list Command))
  : State * Status :=
  match try_block fs sched (init fs) with
  | (s, inr None) => (s, Hangs)
  | (s, inr (Some _)) => (set_is_running false s, Returned)
  | (s, inl e) => (set_is_running false (emit (error_occurred e) s), Returned)
  end.

End FileProcessor.
Import FileProcessor.

(** ** The run described line by line

    Pure descriptions of what a pass over the target file decides,
    against which the stateful loop is checked. *)

Definition reason_name (r : Reason) : string :=
  match r with
  | EmptyLine => "Empty Line"
  | NotEnoughParts => "Not Enough Parts"
  | Duplicate => "Duplicate"
  end.

(** The verdict on a line, given the records of the index. *)
Definition verdict (seen : gset str) (line : str) : Outcome :=
  match classify line with
  | Some (Valid clean) =>
      if decide (clean ∈ seen) then Rejected Duplicate else Valid clean
  | Some (Rejected r) => Rejected r
  | None => Rejected NotEnoughParts
  end.

(** The records a pass accepts, in the order of the lines. *)
Fixpoint accepted (seen : gset str) (lines : list str) : list str :=
  match lines with
  | [] => []
  | line :: rest =>
      match verdict seen line with
      | Valid clean => clean :: accepted ({[clean]} ∪ seen) rest
      | Rejected _ => accepted seen rest
      end
  end.

(** The lines a pass rejects: reason, 1-based line number (the lines
    given follow line [line_num]) and the line as read. *)
Fixpoint rejections (seen : gset str) (line_num : nat) (lines : list str)
  : list (Reason * nat * str) :=
  match lines with
  | [] => []
  | line :: rest =>
      let line_num := line_num + 1 in
      match verdict seen line with
      | Valid clean => rejections ({[clean]} ∪ seen) line_num rest
      | Rejected r => (r, line_num, line) :: rejections seen line_num rest
      end
  end.

(** The text of the log named [name]: one entry per rejection with
    that reason, whose content is the stripped line. *)
Definition log_text (name : string) (rej : list (Reason * nat * str)) : str :=
  concat ((fun x => log_entry x.1.2 (strip x.2))
            <$> filter (fun x => reason_name x.1.1 = name) rej).

(** The text appended to the master file for a list of records. *)
Definition appended (records : list str) : str :=
  concat ((fun r => r ++ [NL]) <$> records).

Fixpoint remove_first (r : Resource) (l : list Resource) : list Resource :=
  match l with
  | [] => []
  | x :: l' => if decide (x = r) then l' else x :: remove_first r l'
  end.

(** The handles a trace leaves open. *)
Definition still_open (tr : list Event) : list Resource :=
  foldl (fun acc e =>
           match e with
           | Open r => acc ++ [r]
           | Close r => remove_first r acc
           | _ => acc
           end) [] tr.

(** The lines of a pass handled one after the other, without any
    command in between; the lines given follow line [line_num]. *)
Fixpoint run_lines (lines : list str) (line_num : nat) (s : State) : State :=
  match lines with
  | [] => s
  | line :: rest =>
      run_lines rest (line_num + 1) (process_line (line_num + 1) line s)
  end.

(** The index a run starts from. *)
Definition seed (fs : Files) : gset str :=
  match master_file fs with
  | Some text => list_to_set (strip <$> file_lines text)
  | None => ∅
  end.

(** The state in which the [for] loop is entered when every file
    could be opened. *)
Definition ready (fs : Files) (target : str) : State :=
  mkState true false (length (file_lines target)) 0 0 0
    ((fun reason => (reason, [])) <$> log_reasons)
    (seed fs)
    (Some (default [] (master_file fs)))
    ([Open TargetFile; Close TargetFile]
     ++ (Open ∘ LogFile <$> log_reasons)
     ++ match master_file fs with
        | Some _ => [Open MasterRead; Close MasterRead]
        | None => []
        end
     ++ [Open MasterFd; Open TargetFile]).

(** The events after the loop, for given final counters. *)
Definition teardown (total processed valid rejected : nat) : list Event :=
  [Close TargetFile; Close MasterFd]
  ++ (Close ∘ LogFile <$> log_reasons)
  ++ [update_progress total processed valid rejected; processing_complete].

Definition is_progress (e : Event) : Prop :=
  match e with
  | update_progress _ _ _ _ => True
  | _ => False
  end.

(** The throttle of the progress signal. *)
Definition throttle (line_num total : nat) : bool :=
  (line_num mod 100 =? 0) || (line_num =? total).

(** The commands leave everything but the two flags alone. *)
Definition same_data (s s' : State) : Prop :=
  total_lines s' = total_lines s
  /\ processed_lines s' = processed_lines s
  /\ valid_lines s' = valid_lines s
  /\ rejected_lines s' = rejected_lines s
  /\ log_files s' = log_files s
  /\ existing_lines s' = existing_lines s
  /\ master s' = master s
  /\ trace s' = trace s.

(** Every file of the run can be opened. *)
Definition usable (fs : Files) (target : str) : Prop :=
  target_file fs = Some target
  /\ master_appendable fs = true
  /\ logs_creatable fs = true.

(** The logs [initialize_logs] opens before an open raises. *)
Fixpoint opened_before_failure (openable : string -> bool)
    (reasons : list string) : list string :=
  match reasons with
  | [] => []
  | reason :: rest =>
      if openable reason
      then reason :: opened_before_failure openable rest
      else []
  end.

(** The handles a run whose setup raises has opened and not closed. *)
Definition leaked (fs : Files) : list Resource :=
  match target_file fs with
  | None => []
  | Some _ =>
      if logs_folder fs
      then LogFile <$> opened_before_failure (log_openable fs) log_reasons
      else []
  end.

(** Several events emitted in a row. *)
Definition emit_all (evs : list Event) (s : State) : State :=
  mkState (is_running s) (is_paused s) (total_lines s) (processed_lines s)
    (valid_lines s) (rejected_lines s) (log_files s) (existing_lines s)
    (master s) (trace s ++ evs).

(** The states of a run at its line boundaries: [boundary fs target n s]
    when [s] is a state of the worker after [n] lines of the target
    file have been handled, commands included.  The first boundary is
    the state [setup] leaves. *)
Inductive boundary (fs : Files) (target : str) : nat -> State -> Prop :=
| boundary_start :
    usable fs target ->
    boundary fs target 0 (setup fs (init fs)).1
| boundary_command n s c :
    boundary fs target n s ->
    boundary fs target n (execute s c)
| boundary_line n s line :
    boundary fs target n s ->
    file_lines target !! n = Some line ->
    is_running s = true ->
    is_paused s = false ->
    boundary fs target (n + 1) (process_line (n + 1) line s).

(** The line is rejected by the loop, for the given reason: by
    [validate_line], or as a duplicate of a record of the index. *)
Definition rejected_as (s : State) (line : str) (reason : string) : Prop :=
  match validate_line line 0 with
  | (true, _, clean_line) =>
      clean_line ∈ existing_lines s /\ reason = "Duplicate"%string
  | (false, why, _) => reason = why
  end.

(** Text that is empty or ends with a newline: what follows it starts
    a line of its own. *)
Definition terminated (text : str) : Prop :=
  text = [] \/ last text = Some NL.

(** The files of a second run over the same target file, against the
    master file the first run left. *)
Definition rerun (fs : Files) (first : State) : Files :=
  {| target_file := target_file fs;
     master_file := master first;
     master_appendable := master_appendable fs;
     logs_folder := logs_folder fs;
     log_openable := log_openable fs |}.

(** ** Sample files *)

Definition text_of (lines : list string) : str :=
  appended (py <$> lines).

(** A target file with a duplicate, a short line and an empty line. *)
Definition sample_target : str :=
  text_of ["a:b:c"; " x:y "; ""; "a:b:c"; " q:r:s:t"]%string.

Definition sample_files : Files :=
  {| target_file := Some sample_target;
     master_file := Some (text_of ["x:y:z"]%string);
     master_appendable := true;
     logs_folder := true;
     log_openable := fun _ => true |}.

(** A master file whose last line has no newline. *)
Definition unterminated_files : Files :=
  {| target_file := Some (text_of ["a:b:c"]%string);
     master_file := Some (py "x:y:z");
     master_appendable := true;
     logs_folder := true;
     log_openable := fun _ => true |}.

(** The master file exists and can be read, but cannot be opened for
    appending (a read-only file). *)
Definition failing_files : Files :=
  {| target_file := Some (text_of ["a:b:c"]%string);
     master_file := Some (text_of ["x:y:z"]%string);
     master_appendable := false;
     logs_folder := true;
     log_openable := fun _ => true |}.

(** ** The lock protocol

    The worker's check at the top of the loop body and the three
    commands, as two threads that interleave.  [self.lock] is a
    [threading.Lock]: a thread entering [with self.lock] waits until
    no thread holds the lock, and [time.sleep] does not release it. *)
Module LockProtocol.

Inductive Thread := Worker | Controller.

(** Where the worker is in [process_files]. *)
Inductive WorkerPc :=
| WFor          (* [for line in target_f]: the next line, if any *)
| WAcquire      (* entering [with self.lock] *)
| WCheckStop    (* lock held: [if not self.is_running: break] *)
| WCheckPause   (* lock held: [while self.is_paused and self.is_running] *)
| WSleep        (* lock held: [time.sleep(0.1)] *)
| WProcess      (* lock released: the line is validated and handled *)
| WAfterLoop.   (* after the loop: the files are closed *)

(** Where the controlling thread is. *)
Inductive ControllerPc :=
| CIdle                     (* between two calls *)
| CAcquire (c : Command)    (* in a call, entering [with self.lock] *)
| CHolding (c : Command).   (* lock held, about to assign the flag *)

Record Sys := mkSys {
  lock : option Thread;     (* the holder of [self.lock] *)
  running : bool;           (* [self.is_running] *)
  paused : bool;            (* [self.is_paused] *)
  wpc : WorkerPc;
  cpc : ControllerPc;
  calls : list Command;     (* the calls still to be made *)
  returned : nat;           (* the calls that have returned *)
  lines_left : nat;         (* the lines not yet read *)
  handled : nat             (* the lines handled *)
}.

Definition assign (c : Command) (running paused : bool) : bool * bool :=
  match c with
  | Pause => (running, true)
  | Resume => (running, false)
  | Stop => (false, paused)
  end.

(** One step of the worker; [None] when it cannot move. *)
Definition worker_step (sy : Sys) : option Sys :=
  match wpc sy with
  | WFor =>
      match lines_left sy with
      | 0 => Some (mkSys (lock sy) (running sy) (paused sy) WAfterLoop (cpc sy)
                     (calls sy) (returned sy) 0 (handled sy))
      | S k => Some (mkSys (lock sy) (running sy) (paused sy) WAcquire (cpc sy)
                       (calls sy) (returned sy) k (handled sy))
      end
  | WAcquire =>
      match lock sy with
      | None => Some (mkSys (Some Worker) (running sy) (paused sy) WCheckStop
                        (cpc sy) (calls sy) (returned sy) (lines_left sy)
                        (handled sy))
      | Some _ => None
      end
  | WCheckStop =>
      if negb (running sy)
      then Some (mkSys None (running sy) (paused sy) WAfterLoop (cpc sy)
                   (calls sy) (returned sy) (lines_left sy) (handled sy))
      else Some (mkSys (lock sy) (running sy) (paused sy) WCheckPause (cpc sy)
                   (calls sy) (returned sy) (lines_left sy) (handled sy))
  | WCheckPause =>
      if paused sy && running sy
      then Some (mkSys (lock sy) (running sy) (paused sy) WSleep (cpc sy)
                   (calls sy) (returned sy) (lines_left sy) (handled sy))
      else Some (mkSys None (running sy) (paused sy) WProcess (cpc sy)
                   (calls sy) (returned sy) (lines_left sy) (handled sy))
  | WSleep =>
      Some (mkSys (lock sy) (running sy) (paused sy) WCheckPause (cpc sy)
              (calls sy) (returned sy) (lines_left sy) (handled sy))
  | WProcess =>
      Some (mkSys (lock sy) (running sy) (paused sy) WFor (cpc sy)
              (calls sy) (returned sy) (lines_left sy) (handled sy + 1))
  | WAfterLoop => None
  end.

(** One step of the controlling thread; [None] when it cannot move. *)
Definition controller_step (sy : Sys) : option Sys :=
  match cpc sy with
  | CIdle =>
      match calls sy with
      | c :: rest => Some (mkSys (lock sy) (running sy) (paused sy) (wpc sy)
                             (CAcquire c) rest (returned sy) (lines_left sy)
                             (handled sy))
      | [] => None
      end
  | CAcquire c =>
      match lock sy with
      | None => Some (mkSys (Some Controller) (running sy) (paused sy) (wpc sy)
                        (CHolding c) (calls sy) (returned sy) (lines_left sy)
                        (handled sy))
      | Some _ => None
      end
  | CHolding c =>
      let '(r, p) := assign c (running sy) (paused sy) in
      Some (mkSys None r p (wpc sy) CIdle (calls sy) (returned sy + 1)
              (lines_left sy) (handled sy))
  end.

(** The thread the scheduler picks moves if it can. *)
Definition step (sy : Sys) (t : Thread) : Sys :=
  default sy (match t with
             | Worker => worker_step sy
             | Controller => controller_step sy
             end).

Definition run (ts : list Thread) (sy : Sys) : Sys := foldl step sy ts.

(** The loop is entered with the commands still to be issued. *)
Definition start (lines : nat) (calls : list Command) : Sys :=
  mkSys None true false WFor CIdle calls 0 lines 0.

(** The worker is in the pause loop. *)
Definition in_pause_loop (sy : Sys) : Prop :=
  lock sy = Some Worker /\ running sy = true /\ paused sy = true
  /\ (wpc sy = WCheckPause \/ wpc sy = WSleep)
  /\ (forall c, cpc sy <> CHolding c).

End LockProtocol.

(** ** Signals *)

(** The events that are signals of [SignalEmitter]. *)
Definition is_signal (e : Event) : bool :=
  match e with
  | update_progress _ _ _ _ | processing_complete | error_occurred _ => true
  | _ => false
  end.

(** The signals that end a run for the observer. *)
Definition terminal (e : Event) : bool :=
  match e with
  | processing_complete | error_occurred _ => true
  | _ => false
  end.

(** A progress snapshot that is consistent, for a target of [T] lines. *)
Definition snapshot_ok (T : nat) (e : Event) : Prop :=
  match e with
  | update_progress total processed valid rejected =>
      total = T /\ processed = valid + rejected /\ processed <= total
  | _ => True
  end.

(** The flags [(is_running, is_paused)] the worker finds when the
    commands [cs] have taken the lock since its previous check. *)
Definition flags_after (cs : list Command) : bool * bool :=
  foldl (fun '(r, p) c => LockProtocol.assign c r p) (true, false) cs.

(** Commands that let the worker pass its check: they leave
    is_running set and is_paused clear, as the worker left them. *)
Definition passes (cs : list Command) : Prop :=
  flags_after cs = (true, false).

(** ** The Pause button

    [ULPValidatorApp.toggle_pause] runs in the GUI thread: it enters
    [with self.processor.lock], tests [is_paused] and calls
    [resume()] or [pause()], which enter [with self.lock] on the same
    lock.  The worker is the one of [LockProtocol]; the GUI thread
    holds the lock under the name [Controller]. *)
Module TogglePause.

(** Where the GUI thread is. *)
Inductive GuiPc :=
| GIdle                  (* in the event loop *)
| GEnter                 (* in [toggle_pause], entering [with ....lock] *)
| GTest                  (* lock held: [if self.processor.is_paused] *)
| GCall (c : Command)    (* lock held: in the call, entering [with self.lock] *)
| GAssign (c : Command)  (* in the call, past its [with]: the flag is set *)
| GRaised.               (* the outer [with] releases a lock nobody holds *)

Record Sys := mkSys {
  core : LockProtocol.Sys;   (* lock, flags and worker *)
  gpc : GuiPc;
  clicks : nat               (* clicks on the button still to come *)
}.

Definition with_lock (l : option LockProtocol.Thread)
    (c : LockProtocol.Sys) : LockProtocol.Sys :=
  LockProtocol.mkSys l (LockProtocol.running c) (LockProtocol.paused c)
    (LockProtocol.wpc c) (LockProtocol.cpc c) (LockProtocol.calls c)
    (LockProtocol.returned c) (LockProtocol.lines_left c)
    (LockProtocol.handled c).

Definition with_flags (rp : bool * bool)
    (c : LockProtocol.Sys) : LockProtocol.Sys :=
  LockProtocol.mkSys (LockProtocol.lock c) rp.1 rp.2
    (LockProtocol.wpc c) (LockProtocol.cpc c) (LockProtocol.calls c)
    (LockProtocol.returned c) (LockProtocol.lines_left c)
    (LockProtocol.handled c).

(** One step of the GUI thread; [None] when it cannot move. *)
Definition gui_step (sy : Sys) : option Sys :=
  match gpc sy with
  | GIdle =>
      match clicks sy with
      | S k => Some (mkSys (core sy) GEnter k)
      | 0 => None
      end
  | GEnter =>
      match LockProtocol.lock (core sy) with
      | None => Some (mkSys (with_lock (Some LockProtocol.Controller)
                               (core sy)) GTest (clicks sy))
      | Some _ => None
      end
  | GTest =>
      Some (mkSys (core sy)
              (GCall (if LockProtocol.paused (core sy)
                      then Resume else Pause))
              (clicks sy))
  | GCall c =>
      match LockProtocol.lock (core sy) with
      | None => Some (mkSys (with_lock (Some LockProtocol.Controller)
                               (core sy)) (GAssign c) (clicks sy))
      | Some _ => None
      end
  | GAssign c =>
      Some (mkSys (with_lock None
                     (with_flags
                        (LockProtocol.assign c
                           (LockProtocol.running (core sy))
                           (LockProtocol.paused (core sy)))
                        (core sy)))
              GRaised (clicks sy))
  | GRaised => None
  end.

Definition worker_step (sy : Sys) : option Sys :=
  match LockProtocol.worker_step (core sy) with
  | Some c => Some (mkSys c (gpc sy) (clicks sy))
  | None => None
  end.

(** The thread the scheduler picks moves if it can. *)
Definition step (sy : Sys) (t : LockProtocol.Thread) : Sys :=
  default sy (match t with
              | LockProtocol.Worker => worker_step sy
              | LockProtocol.Controller => gui_step sy
              end).

Definition run (ts : list LockProtocol.Thread) (sy : Sys) : Sys :=
  foldl step sy ts.

(** The loop is entered, the button has not been clicked yet. *)
Definition start (lines clicks : nat) : Sys :=
  mkSys (LockProtocol.start lines []) GIdle clicks.

(** The GUI thread holds the lock and waits for it in the call. *)
Definition waits_for_itself (sy : Sys) : Prop :=
  LockProtocol.lock (core sy) = Some LockProtocol.Controller
  /\ (exists c, gpc sy = GCall c)
  /\ LockProtocol.wpc (core sy) <> LockProtocol.WCheckStop
  /\ LockProtocol.wpc (core sy) <> LockProtocol.WCheckPause
  /\ LockProtocol.wpc (core sy) <> LockProtocol.WSleep.

(** The worker has a line still to start on. *)
Definition line_ahead (sy : Sys) : Prop :=
  LockProtocol.wpc (core sy) = LockProtocol.WAcquire
  \/ (0 < LockProtocol.lines_left (core sy)
      /\ (LockProtocol.wpc (core sy) = LockProtocol.WFor
          \/ LockProtocol.wpc (core sy) = LockProtocol.WProcess)).

(** The line the worker is handling, if any. *)
Definition in_flight (sy : Sys) : nat :=
  match LockProtocol.wpc (core sy) with
  | LockProtocol.WProcess => 1
  | _ => 0
  end.

(** What holds of every state the worker and the GUI thread can
    reach: the lock is held by the thread that is inside its [with]
    block, and neither flag has been assigned. *)
Definition consistent (sy : Sys) : Prop :=
  LockProtocol.paused (core sy) = false
  /\ LockProtocol.running (core sy) = true
  /\ match LockProtocol.lock (core sy) with
     | None =>
         (gpc sy = GIdle \/ gpc sy = GEnter)
         /\ LockProtocol.wpc (core sy) <> LockProtocol.WCheckStop /\ LockProtocol.wpc (core sy) <> LockProtocol.WCheckPause
         /\ LockProtocol.wpc (core sy) <> LockProtocol.WSleep
     | Some LockProtocol.Worker =>
         (gpc sy = GIdle \/ gpc sy = GEnter)
         /\ (LockProtocol.wpc (core sy) = LockProtocol.WCheckStop \/ LockProtocol.wpc (core sy) = LockProtocol.WCheckPause)
     | Some LockProtocol.Controller =>
         (gpc sy = GTest \/ gpc sy = GCall Pause)
         /\ LockProtocol.wpc (core sy) <> LockProtocol.WCheckStop /\ LockProtocol.wpc (core sy) <> LockProtocol.WCheckPause
         /\ LockProtocol.wpc (core sy) <> LockProtocol.WSleep
     end.

End TogglePause.

(** ** Commands other than pause

    The two threads of [LockProtocol] scheduled in turn, and how far
    they are from the end: the worker from leaving the loop, the
    controlling thread from having made all its calls. *)
Module LockLiveness.

Definition round (sy : LockProtocol.Sys) : LockProtocol.Sys :=
  LockProtocol.step (LockProtocol.step sy LockProtocol.Worker)
    LockProtocol.Controller.

Definition worker_rank (sy : LockProtocol.Sys) : nat :=
  match LockProtocol.wpc sy with
  | LockProtocol.WFor => 5 * LockProtocol.lines_left sy + 1
  | LockProtocol.WAcquire => 5 * LockProtocol.lines_left sy + 5
  | LockProtocol.WCheckStop => 5 * LockProtocol.lines_left sy + 4
  | LockProtocol.WCheckPause => 5 * LockProtocol.lines_left sy + 3
  | LockProtocol.WSleep => 5 * LockProtocol.lines_left sy + 4
  | LockProtocol.WProcess => 5 * LockProtocol.lines_left sy + 2
  | LockProtocol.WAfterLoop => 0
  end.

Definition controller_rank (sy : LockProtocol.Sys) : nat :=
  3 * length (LockProtocol.calls sy)
  + match LockProtocol.cpc sy with
    | LockProtocol.CIdle => 0
    | LockProtocol.CAcquire _ => 2
    | LockProtocol.CHolding _ => 1
    end.

Definition rank (sy : LockProtocol.Sys) : nat :=
  worker_rank sy + controller_rank sy.

(** The calls made or still to be made. *)
Definition all_calls (sy : LockProtocol.Sys) : nat :=
  LockProtocol.returned sy + length (LockProtocol.calls sy)
  + match LockProtocol.cpc sy with
    | LockProtocol.CIdle => 0
    | _ => 1
    end.

(** No pause was or will be called, and the lock is held by the
    thread that is inside its [with] block. *)
Definition pause_free (sy : LockProtocol.Sys) : Prop :=
  LockProtocol.paused sy = false
  /\ (Pause ∉ LockProtocol.calls sy)
  /\ LockProtocol.cpc sy <> LockProtocol.CAcquire Pause
  /\ LockProtocol.cpc sy <> LockProtocol.CHolding Pause
  /\ match LockProtocol.lock sy with
     | None =>
         LockProtocol.wpc sy <> LockProtocol.WCheckStop
         /\ LockProtocol.wpc sy <> LockProtocol.WCheckPause
         /\ LockProtocol.wpc sy <> LockProtocol.WSleep
         /\ (forall c, LockProtocol.cpc sy <> LockProtocol.CHolding c)
     | Some LockProtocol.Worker =>
         (LockProtocol.wpc sy = LockProtocol.WCheckStop
          \/ LockProtocol.wpc sy = LockProtocol.WCheckPause)
         /\ (forall c, LockProtocol.cpc sy <> LockProtocol.CHolding c)
     | Some LockProtocol.Controller =>
         LockProtocol.wpc sy <> LockProtocol.WCheckStop
         /\ LockProtocol.wpc sy <> LockProtocol.WCheckPause
         /\ LockProtocol.wpc sy <> LockProtocol.WSleep
         /\ (exists c, LockProtocol.cpc sy = LockProtocol.CHolding c)
     end.

(** The line the worker has read and not yet handled, if any. *)
Definition read (sy : LockProtocol.Sys) : nat :=
  match LockProtocol.wpc sy with
  | LockProtocol.WFor | LockProtocol.WAfterLoop => 0
  | _ => 1
  end.

(** No stop was or will be called, and no line of [lines] is lost. *)
Definition stop_free (lines : nat) (sy : LockProtocol.Sys) : Prop :=
  LockProtocol.running sy = true
  /\ (Stop ∉ LockProtocol.calls sy)
  /\ LockProtocol.cpc sy <> LockProtocol.CAcquire Stop
  /\ LockProtocol.cpc sy <> LockProtocol.CHolding Stop
  /\ LockProtocol.handled sy + LockProtocol.lines_left sy + read sy = lines
  /\ (LockProtocol.wpc sy = LockProtocol.WAfterLoop ->
      LockProtocol.lines_left sy = 0).

End LockLiveness.

(** ** The settings file

    [ULPValidatorApp.save_settings] and [load_settings], on the text
    of "ulp_validator_settings.txt".  [os.path.exists] and
    [os.path.basename] are parameters; both methods swallow every
    exception. *)
Module Settings.

Record App := mkApp {
  master_file : str;
  target_file : str;
  master_label : str;
  target_label : str;
  start_enabled : bool       (* [start_btn.isEnabled()] *)
}.

(** The truth value of a Python string. *)
Definition truthy (s : str) : bool := negb (bool_decide (s = [])).

(** [check_files_selected] *)
Definition check_files_selected (a : App) : App :=
  mkApp (master_file a) (target_file a) (master_label a) (target_label a)
    (if truthy (master_file a) && truthy (target_file a) then true
     else false).

(** How a call of [save_settings] goes.  The file is opened with 'w',
    which empties it, and the two lines are written one after the
    other; a write raises when its text cannot be encoded. *)
Inductive Saving :=
| OpenFails           (* [open] raises: the file is not touched *)
| FirstWriteFails     (* the file is emptied, nothing is written *)
| SecondWriteFails    (* the file holds the first line only *)
| Saved.              (* both lines are written *)

(** [save_settings]: the settings file afterwards ([None]: no such
    file).  Every exception is swallowed. *)
Definition save_settings (how : Saving) (a : App) (file : option str)
  : option str :=
  match how with
  | OpenFails => file
  | FirstWriteFails => Some []
  | SecondWriteFails => Some (master_file a ++ [NL])
  | Saved => Some ((master_file a ++ [NL]) ++ (target_file a ++ [NL]))
  end.

Section Os.
Variable path_exists : str -> bool.
Variable basename : str -> str.

(** [load_settings]; [file] is [None] when the settings file does not
    exist or cannot be read. *)
Definition load_settings (file : option str) (a : App) : App :=
  match file with
  | None => a
  | Some text =>
      let lines := file_lines text in
      if 2 <=? length lines then
        let m := strip (nth 0 lines []) in
        let t := strip (nth 1 lines []) in
        let ml := if truthy m && path_exists m
                  then py "Master File: " ++ basename m
                  else master_label a in
        let tl := if truthy t && path_exists t
                  then py "Target File: " ++ basename t
                  else target_label a in
        check_files_selected (mkApp m t ml tl (start_enabled a))
      else a
  end.

End Os.

End Settings.

Definition CR : N := 13%N.

(** ** Facts about strings *)

Lemma lstrip_snoc (a : str) (c : N) :
  lstrip (a ++ [c]) =
  match lstrip a with
  | [] => if isspace c then [] else [c]
  | _ :: _ => lstrip a ++ [c]
  end.
Proof.
  induction a as [|x a IH]; simpl.
  - destruct (isspace c); reflexivity.
  - destruct (isspace x); [exact IH | reflexivity].
Qed.

Lemma rstrip_cons (c : N) (t : str) :
  rstrip (c :: t) =
  match rstrip t with
  | [] => if isspace c then [] else [c]
  | _ :: _ => c :: rstrip t
  end.
Proof.
  unfold rstrip. simpl rev. rewrite lstrip_snoc.
  destruct (lstrip (rev t)) as [|y l] eqn:E; simpl.
  - destruct (isspace c); reflexivity.
  - rewrite rev_app_distr. simpl.
    destruct (rev l ++ [y]) eqn:E'; [|reflexivity].
    destruct (rev l); discriminate.
Qed.

Lemma rstrip_snoc_space (a : str) (c : N) :
  isspace c = true -> rstrip (a ++ [c]) = rstrip a.
Proof.
  intros Hc. unfold rstrip. rewrite rev_app_distr. simpl. now rewrite Hc.
Qed.

Lemma strip_snoc_space (a : str) (c : N) :
  isspace c = true -> strip (a ++ [c]) = strip a.
Proof.
  intros Hc. unfold strip. rewrite lstrip_snoc, Hc.
  destruct (lstrip a) as [|x l] eqn:E; [reflexivity|].
  now apply rstrip_snoc_space.
Qed.

Lemma lstrip_head (s : str) (c : N) (t : str) :
  lstrip s = c :: t -> isspace c = false.
Proof.
  induction s as [|x s IH]; simpl; [discriminate|].
  destruct (isspace x) eqn:E; [exact IH|].
  intros [= <- _]. exact E.
Qed.

Lemma lstrip_fixed (c : N) (t : str) :
  isspace c = false -> lstrip (c :: t) = c :: t.
Proof. intros H. simpl. now rewrite H. Qed.

Lemma rstrip_head (c : N) (t : str) :
  isspace c = false -> exists t', rstrip (c :: t) = c :: t'.
Proof.
  intros H. rewrite rstrip_cons, H. destruct (rstrip t); eauto.
Qed.

Lemma rstrip_idem (s : str) : rstrip (rstrip s) = rstrip s.
Proof.
  unfold rstrip. rewrite rev_involutive. f_equal.
  induction (rev s) as [|x l IH]; simpl; [reflexivity|].
  destruct (isspace x) eqn:E; [exact IH|]. simpl. now rewrite E.
Qed.

Lemma strip_idem (s : str) : strip (strip s) = strip s.
Proof.
  unfold strip. destruct (lstrip s) as [|c t] eqn:E; [reflexivity|].
  pose proof (lstrip_head _ _ _ E) as Hc.
  destruct (rstrip_head c t Hc) as [t' Ht']. rewrite Ht'.
  rewrite lstrip_fixed by exact Hc. rewrite <- Ht'. apply rstrip_idem.
Qed.

Lemma elem_of_lstrip (x : N) (s : str) : x ∈ lstrip s -> x ∈ s.
Proof.
  induction s as [|c s IH]; simpl; [trivial|].
  destruct (isspace c); [|trivial]. intros H. right. auto.
Qed.

Lemma elem_of_strip (x : N) (s : str) : x ∈ strip s -> x ∈ s.
Proof.
  unfold strip, rstrip. intros H.
  apply list_elem_of_In, in_rev, list_elem_of_In, elem_of_lstrip in H.
  apply list_elem_of_In, in_rev, list_elem_of_In in H.
  now apply elem_of_lstrip.
Qed.

(** A line of a text file holds a newline at its end only. *)
Lemma file_lines_shape (text : str) (l : str) :
  l ∈ file_lines text ->
  exists body, (NL ∉ body) /\ (l = body ++ [NL] \/ l = body).
Proof.
  revert l; induction text as [|c rest IH]; intros l; simpl.
  - intros H. inversion H.
  - destruct (c =? NL)%N eqn:E.
    + apply N.eqb_eq in E. subst c. intros H.
      apply elem_of_cons in H as [->|H]; [|auto].
      exists []. split; [apply not_elem_of_nil | now left].
    + apply N.eqb_neq in E.
      destruct (file_lines rest) as [|l0 ls] eqn:El; intros H.
      * apply list_elem_of_singleton in H. subst l. exists [c]. split; [|now right].
        intros H. apply list_elem_of_singleton in H. congruence.
      * apply elem_of_cons in H as [->|H].
        -- destruct (IH l0) as (body & Hb & Hl); [left|].
           exists (c :: body). split.
           ++ intros H. apply elem_of_cons in H as [H|H]; congruence.
           ++ destruct Hl as [->| ->]; [now left | now right].
        -- apply IH. now right.
Qed.

Lemma strip_line_no_NL (text : str) (l : str) :
  l ∈ file_lines text -> NL ∉ strip l.
Proof.
  intros H. destruct (file_lines_shape _ _ H) as (body & Hb & [-> | ->]).
  - rewrite strip_snoc_space by reflexivity.
    intros Hin. apply Hb. now apply elem_of_strip.
  - intros Hin. apply Hb. now apply elem_of_strip.
Qed.

Lemma file_lines_line (l rest : str) :
  NL ∉ l -> file_lines (l ++ NL :: rest) = (l ++ [NL]) :: file_lines rest.
Proof.
  induction l as [|c l IH]; intros Hl; simpl.
  - reflexivity.
  - destruct (c =? NL)%N eqn:E.
    + apply N.eqb_eq in E. subst c. exfalso. apply Hl. left.
    + rewrite IH; [reflexivity|]. intros H. apply Hl. now right.
Qed.

Lemma appended_cons (r : str) (rs : list str) :
  appended (r :: rs) = r ++ NL :: appended rs.
Proof. unfold appended. simpl. now rewrite <- app_assoc. Qed.

Lemma file_lines_appended (records : list str) :
  Forall (fun r => NL ∉ r) records ->
  file_lines (appended records) = (fun r => r ++ [NL]) <$> records.
Proof.
  induction 1 as [|r rs Hr _ IH]; [reflexivity|].
  rewrite appended_cons, file_lines_line by exact Hr.
  now rewrite IH.
Qed.

Lemma file_lines_app_terminated (a b : str) :
  terminated a -> file_lines (a ++ b) = file_lines a ++ file_lines b.
Proof.
  induction a as [|c a IH]; intros Ha; [reflexivity|].
  assert (Ha' : a = [] /\ c = NL \/ a <> [] /\ terminated a).
  { destruct Ha as [Ha|Ha]; [discriminate|].
    destruct a as [|d a]; [left; simpl in Ha; split; congruence|].
    right. split; [discriminate|]. right. exact Ha. }
  simpl. destruct Ha' as [[-> ->]|[Hne Hta]].
  - reflexivity.
  - rewrite IH by exact Hta.
    destruct (c =? NL)%N; [reflexivity|].
    destruct (file_lines a) as [|l ls] eqn:E; [|reflexivity].
    destruct a as [|d a]; [congruence|]. simpl in E.
    destruct (d =? NL)%N; [discriminate|].
    destruct (file_lines a); discriminate.
Qed.

Lemma lstrip_parts (s : str) :
  exists a, s = a ++ lstrip s /\ Forall (fun c => isspace c = true) a.
Proof.
  induction s as [|c s (a & Hs & Ha)]; [exists []; auto|].
  cbn [lstrip]. destruct (isspace c) eqn:E.
  - exists (c :: a). split; [cbn; congruence | auto].
  - exists []. auto.
Qed.

Lemma rstrip_parts (s : str) :
  exists b, s = rstrip s ++ b /\ Forall (fun c => isspace c = true) b.
Proof.
  destruct (lstrip_parts (rev s)) as (a & Hs & Ha).
  exists (rev a). split.
  - unfold rstrip. rewrite <- rev_app_distr, <- Hs. now rewrite rev_involutive.
  - apply Forall_forall. intros c Hc.
    apply list_elem_of_In, in_rev, list_elem_of_In in Hc.
    rewrite Forall_forall in Ha. auto.
Qed.

Lemma last_rev_head (l : str) : last (rev l) = head l.
Proof. destruct l as [|c t]; [reflexivity|]. cbn. apply last_snoc. Qed.

(** What [strip] removes: whitespace at the two ends, all of it and
    nothing else. *)
Lemma strip_shape (s : str) :
  (exists before after,
      s = before ++ strip s ++ after
      /\ Forall (fun c => isspace c = true) before
      /\ Forall (fun c => isspace c = true) after)
  /\ isspace <$> head (strip s) <> Some true
  /\ isspace <$> last (strip s) <> Some true.
Proof.
  split; [|split].
  - destruct (lstrip_parts s) as (a & Hl & Ha).
    destruct (rstrip_parts (lstrip s)) as (b & Hr & Hb).
    exists a, b. split; [|auto]. unfold strip. now rewrite <- Hr.
  - unfold strip. destruct (lstrip s) as [|c t] eqn:E; [discriminate|].
    pose proof (lstrip_head _ _ _ E) as Hs.
    destruct (rstrip_head c t Hs) as [t' ->]. cbn. congruence.
  - unfold strip, rstrip. rewrite last_rev_head.
    destruct (lstrip (rev (lstrip s))) as [|c t] eqn:E; [discriminate|].
    apply lstrip_head in E. cbn. congruence.
Qed.

(** ** Dictionaries *)

Lemma dict_get_None (k : string) (d : list (string * str)) :
  k ∉ d.*1 -> dict_get k d = None.
Proof.
  induction d as [|[k' w] d IH]; [reflexivity|].
  rewrite fmap_cons, not_elem_of_cons. intros [Hne Hk]. cbn.
  destruct (String.eqb k' k) eqn:E; [|auto].
  apply String.eqb_eq in E. cbn in Hne. congruence.
Qed.

Lemma dict_update_map (k : string) (e : str) (d : list (string * str)) :
  NoDup d.*1 ->
  match dict_get k d with
  | Some w => dict_set k (w ++ e) d
  | None => d
  end
  = (fun kw => (kw.1, if String.eqb kw.1 k then kw.2 ++ e else kw.2)) <$> d.
Proof.
  induction d as [|[k' w] d IH]; intros Hnd; [reflexivity|].
  rewrite fmap_cons in Hnd. apply NoDup_cons in Hnd as [Hk' Hnd].
  specialize (IH Hnd). rewrite fmap_cons. cbn.
  destruct (String.eqb k' k) eqn:E.
  - f_equal. apply String.eqb_eq in E. subst k'. cbn in Hk'.
    rewrite dict_get_None in IH by exact Hk'. exact IH.
  - rewrite <- IH. destruct (dict_get k d); reflexivity.
Qed.

Lemma dict_get_fmap (k : string) (f : string -> str -> str)
    (d : list (string * str)) :
  dict_get k ((fun kw => (kw.1, f kw.1 kw.2)) <$> d)
  = f k <$> dict_get k d.
Proof.
  induction d as [|[k' w] d IH]; [reflexivity|]. simpl.
  destruct (String.eqb k' k) eqn:E; [|exact IH].
  apply String.eqb_eq in E. now subst.
Qed.

(** ** One line *)

Lemma log_rejection_fields (reason : string) (n : nat) (c : str) (s : State) :
  log_rejection reason n c s
  = set_log_files
      (match dict_get reason (log_files s) with
       | Some w => dict_set reason (w ++ log_entry n c) (log_files s)
       | None => log_files s
       end) s.
Proof.
  unfold log_rejection. destruct (dict_get reason (log_files s)); [reflexivity|].
  now destruct s.
Qed.

(** [process_line] in terms of the verdict on the line. *)
Lemma process_line_verdict (n : nat) (line : str) (s : State) :
  process_line n line s =
  let s1 :=
    match verdict (existing_lines s) line with
    | Valid c =>
        set_valid_lines (valid_lines s + 1)
          (set_existing_lines ({[c]} ∪ existing_lines s)
             (master_write (c ++ [NL]) s))
    | Rejected r =>
        set_rejected_lines (rejected_lines s + 1)
          (log_rejection (reason_name r) n (strip line) s)
    end in
  let s2 := set_processed_lines n s1 in
  if throttle n (total_lines s) then
    emit (update_progress (total_lines s) n (valid_lines s1)
            (rejected_lines s1)) s2
  else s2.
Proof.
  unfold process_line, verdict, classify, validate_line, throttle.
  case_bool_decide as He.
  - cbn. rewrite !log_rejection_fields. reflexivity.
  - destruct (length (split COLON 2 (strip line)) =? 3); cbn.
    + destruct (decide (strip line ∈ existing_lines s)); cbn.
      * rewrite !log_rejection_fields. reflexivity.
      * reflexivity.
    + rewrite !log_rejection_fields. reflexivity.
Qed.

Lemma verdict_Valid (seen : gset str) (line c : str) :
  verdict seen line = Valid c <->
  validate_line line 0 = (true, "Valid"%string, c) /\ c ∉ seen.
Proof.
  unfold verdict, classify, validate_line.
  case_bool_decide as He.
  - cbn. split; [discriminate|]. intros [? _]. discriminate.
  - destruct (length (split COLON 2 (strip line)) =? 3); cbn.
    + destruct (decide (strip line ∈ seen)) as [Hin|Hin].
      * split; [discriminate|]. intros [[= <-] ?]. contradiction.
      * split; [intros [= <-]; auto|]. now intros [[= <-] _].
    + split; [discriminate|]. intros [? _]. discriminate.
Qed.

Lemma verdict_Duplicate (seen : gset str) (line : str) :
  verdict seen line = Rejected Duplicate <->
  validate_line line 0 = (true, "Valid"%string, strip line)
  /\ strip line ∈ seen.
Proof.
  unfold verdict, classify, validate_line.
  case_bool_decide as He.
  - cbn. split; [discriminate|]. intros [? _]. discriminate.
  - destruct (length (split COLON 2 (strip line)) =? 3); cbn.
    + destruct (decide (strip line ∈ seen)) as [Hin|Hin].
      * split; auto.
      * split; [discriminate|]. intros [_ ?]. contradiction.
    + split; [discriminate|]. intros [? _]. discriminate.
Qed.

Lemma verdict_Valid_strip (seen : gset str) (line c : str) :
  verdict seen line = Valid c -> c = strip line.
Proof.
  intros H. apply verdict_Valid in H as [H _].
  unfold validate_line in H. case_bool_decide; [discriminate|].
  destruct (negb _); congruence.
Qed.

Lemma log_text_cons (k : string) (r : Reason) (n : nat) (l : str)
    (rej : list (Reason * nat * str)) :
  log_text k ((r, n, l) :: rej)
  = (if String.eqb (reason_name r) k then log_entry n (strip l) else [])
    ++ log_text k rej.
Proof.
  unfold log_text. rewrite filter_cons. cbn [fst snd].
  destruct (String.eqb (reason_name r) k) eqn:E.
  - apply String.eqb_eq in E. rewrite decide_True by exact E. reflexivity.
  - apply String.eqb_neq in E. rewrite decide_False by exact E. reflexivity.
Qed.

(** What handling one line does to each field of the state. *)
Lemma process_line_spec (n : nat) (line : str) (s : State) :
  NoDup (log_files s).*1 ->
  let s' := process_line n line s in
  is_running s' = is_running s
  /\ is_paused s' = is_paused s
  /\ total_lines s' = total_lines s
  /\ processed_lines s' = n
  /\ match verdict (existing_lines s) line with
     | Valid c =>
         valid_lines s' = valid_lines s + 1
         /\ rejected_lines s' = rejected_lines s
         /\ log_files s' = log_files s
         /\ existing_lines s' = {[c]} ∪ existing_lines s
         /\ master s' = Some (default [] (master s) ++ c ++ [NL])
     | Rejected r =>
         valid_lines s' = valid_lines s
         /\ rejected_lines s' = rejected_lines s + 1
         /\ log_files s'
            = (fun kw => (kw.1, if String.eqb kw.1 (reason_name r)
                                then kw.2 ++ log_entry n (strip line)
                                else kw.2)) <$> log_files s
         /\ existing_lines s' = existing_lines s
         /\ master s' = master s
     end
  /\ trace s'
     = trace s ++ (if throttle n (total_lines s)
                   then [update_progress (total_lines s) n
                           (valid_lines s') (rejected_lines s')]
                   else []).
Proof.
  intros Hnd s'. subst s'. rewrite process_line_verdict. cbn zeta.
  destruct (verdict (existing_lines s) line) as [c|r];
    rewrite ?log_rejection_fields, ?dict_update_map by exact Hnd;
    destruct (throttle n (total_lines s)); cbn;
    rewrite ?app_nil_r; repeat split; reflexivity.
Qed.

(** ** A stretch of lines without commands *)

Lemma union_shift (c : str) (L S : gset str) :
  {[c]} ∪ L ∪ S = L ∪ ({[c]} ∪ S).
Proof. apply set_eq. intros x. rewrite !elem_of_union. tauto. Qed.


Lemma run_lines_spec (lines : list str) (n : nat) (s : State) :
  NoDup (log_files s).*1 ->
  let s' := run_lines lines n s in
  let acc := accepted (existing_lines s) lines in
  let rej := rejections (existing_lines s) n lines in
  is_running s' = is_running s
  /\ is_paused s' = is_paused s
  /\ total_lines s' = total_lines s
  /\ processed_lines s'
     = match lines with [] => processed_lines s | _ => n + length lines end
  /\ valid_lines s' = valid_lines s + length acc
  /\ rejected_lines s' = rejected_lines s + length rej
  /\ log_files s'
     = (fun kw => (kw.1, kw.2 ++ log_text kw.1 rej)) <$> log_files s
  /\ existing_lines s' = list_to_set acc ∪ existing_lines s
  /\ default [] (master s') = default [] (master s) ++ appended acc
  /\ (is_Some (master s) -> is_Some (master s'))
  /\ exists evs, trace s' = trace s ++ evs /\ Forall is_progress evs.
Proof.
  revert n s. induction lines as [|line rest IH]; intros n s Hnd; cbn zeta.
  - cbn [run_lines accepted rejections length].
    split; [reflexivity|]. split; [reflexivity|]. split; [reflexivity|].
    split; [reflexivity|]. split; [lia|]. split; [lia|].
    split.
    { rewrite <- (list_fmap_id (log_files s)) at 1.
      apply list_fmap_ext. intros _ [k w] _. cbn. now rewrite app_nil_r. }
    split; [now rewrite list_to_set_nil, union_empty_l_L|].
    split; [unfold appended; cbn; now rewrite app_nil_r|].
    split; [auto|].
    exists []. now rewrite app_nil_r.
  - cbn [run_lines accepted rejections].
    pose proof (process_line_spec (n + 1) line s Hnd) as Hstep.
    cbn zeta in Hstep.
    set (s1 := process_line (n + 1) line s) in *.
    destruct Hstep as (P1 & P2 & P3 & P4 & Pv & Pt).
    assert (Hlen : forall m, 
               match rest with [] => n + 1 | _ => n + 1 + length rest end = m ->
               n + length (line :: rest) = m).
    { intros m <-. destruct rest; cbn; lia. }
    assert (Hev : Forall is_progress
              (if throttle (n + 1) (total_lines s)
               then [update_progress (total_lines s) (n + 1)
                       (valid_lines s1) (rejected_lines s1)]
               else [])).
    { destruct (throttle _ _); repeat constructor. }
    destruct (verdict (existing_lines s) line) as [c|r] eqn:Ev.
    + destruct Pv as (V1 & V2 & V3 & V4 & V5).
      assert (Hnd1 : NoDup (log_files s1).*1) by (rewrite V3; exact Hnd).
      destruct (IH (n + 1) s1 Hnd1)
        as (H1 & H2 & H3 & H4 & H5 & H6 & H7 & H8 & H9 & H10 & evs & H11 & H12).
      rewrite V4 in *.
      split; [congruence|]. split; [congruence|]. split; [congruence|].
      split; [symmetry; apply Hlen; rewrite H4, P4; now destruct rest|].
      split; [rewrite H5, V1; cbn; lia|].
      split; [rewrite H6, V2; reflexivity|].
      split; [rewrite H7, V3; reflexivity|].
      split; [rewrite H8, list_to_set_cons; symmetry; apply union_shift|].
      split; [rewrite H9, V5, appended_cons; cbn;
              now rewrite <- !app_assoc|].
      split; [intros _; apply H10; rewrite V5; eauto|].
      eexists. split; [rewrite H11, Pt, <- app_assoc; reflexivity|].
      apply Forall_app; auto.
    + destruct Pv as (V1 & V2 & V3 & V4 & V5).
      assert (Hnd1 : NoDup (log_files s1).*1).
      { rewrite V3, <- list_fmap_compose. exact Hnd. }
      destruct (IH (n + 1) s1 Hnd1)
        as (H1 & H2 & H3 & H4 & H5 & H6 & H7 & H8 & H9 & H10 & evs & H11 & H12).
      rewrite V4 in *.
      split; [congruence|]. split; [congruence|]. split; [congruence|].
      split; [symmetry; apply Hlen; rewrite H4, P4; now destruct rest|].
      split; [rewrite H5, V1; reflexivity|].
      split; [rewrite H6, V2; cbn; lia|].
      split.
      { rewrite H7, V3, <- list_fmap_compose. apply list_fmap_ext.
        intros _ [k w] _. unfold compose. cbn [fst snd]. f_equal.
        rewrite log_text_cons, String.eqb_sym.
        destruct (String.eqb (reason_name r) k);
          now rewrite <- ?app_assoc. }
      split; [rewrite H8; reflexivity|].
      split; [rewrite H9, V5; reflexivity|].
      split; [intros Hm; apply H10; rewrite V5; exact Hm|].
      eexists. split; [rewrite H11, Pt, <- app_assoc; reflexivity|].
      apply Forall_app; auto.
Qed.

(** ** Commands *)

Lemma same_data_refl (s : State) : same_data s s.
Proof. repeat split. Qed.

Lemma execute_same_data (cs : list Command) (s : State) :
  same_data s (foldl execute s cs).
Proof.
  revert s. induction cs as [|c cs IH]; intros s; [apply same_data_refl|].
  cbn [foldl]. specialize (IH (execute s c)).
  destruct c; cbn in IH; exact IH.
Qed.

Lemma execute_stop (cs : list Command) (s : State) :
  Stop ∈ cs -> is_running (foldl execute s cs) = false.
Proof.
  assert (Hoff : forall cs s, is_running s = false ->
                   is_running (foldl execute s cs) = false).
  { clear. induction cs as [|c cs IH]; intros s Hs; [exact Hs|].
    cbn [foldl]. apply IH. now destruct c. }
  revert s. induction cs as [|c cs IH]; intros s Hin.
  - inversion Hin.
  - cbn [foldl]. apply elem_of_cons in Hin as [<-|Hin]; [|auto].
    now apply Hoff.
Qed.

(** ** The loop *)

Lemma loop_break (line : str) (rest : list str) (n : nat)
    (cs : list Command) (sched : list (list Command)) (s : State) :
  is_running (foldl execute s cs) = false ->
  loop (line :: rest) n (cs :: sched) s = (foldl execute s cs, Break).
Proof. intros H. cbn. now rewrite H. Qed.

Lemma loop_spin (line : str) (rest : list str) (n : nat)
    (cs : list Command) (sched : list (list Command)) (s : State) :
  is_running (foldl execute s cs) = true ->
  is_paused (foldl execute s cs) = true ->
  loop (line :: rest) n (cs :: sched) s = (foldl execute s cs, Spin).
Proof. intros H1 H2. cbn. now rewrite H1, H2. Qed.

Lemma loop_quiet (k : nat) (lines : list str) (n : nat)
    (sched : list (list Command)) (s : State) :
  is_running s = true -> is_paused s = false ->
  NoDup (log_files s).*1 ->
  k <= length lines ->
  loop lines n (replicate k [] ++ sched) s
  = loop (drop k lines) (n + k) sched (run_lines (take k lines) n s).
Proof.
  revert lines n s. induction k as [|k IH]; intros lines n s Hr Hp Hnd Hk.
  - cbn. rewrite drop_0, take_0, Nat.add_0_r. reflexivity.
  - destruct lines as [|line rest]; [cbn in Hk; lia|].
    cbn in Hk. cbn [replicate app loop head tail default from_option id
                    foldl drop take run_lines].
    rewrite Hr, Hp. cbn [negb andb].
    destruct (process_line_spec (n + 1) line s Hnd)
      as (P1 & P2 & _ & _ & Pv & _).
    rewrite IH.
    + f_equal. lia.
    + congruence.
    + congruence.
    + destruct (verdict (existing_lines s) line);
        destruct Pv as (_ & _ & -> & _); [exact Hnd|].
      rewrite <- list_fmap_compose. exact Hnd.
    + lia.
Qed.

Lemma loop_no_commands (lines : list str) (n : nat) (s : State) :
  is_running s = true -> is_paused s = false ->
  NoDup (log_files s).*1 ->
  loop lines n [] s = (run_lines lines n s, Exhausted).
Proof.
  intros Hr Hp Hnd.
  pose proof (loop_quiet (length lines) lines n [] s Hr Hp Hnd (le_n _)) as H.
  rewrite app_nil_r, drop_all, firstn_all in H. cbn [loop] in H.
  rewrite <- H. clear H.
  revert n s Hr Hp Hnd.
  induction lines as [|line rest IH]; intros n s Hr Hp Hnd; [reflexivity|].
  cbn [length replicate loop head tail default from_option id foldl].
  rewrite Hr, Hp. cbn [negb andb].
  destruct (process_line_spec (n + 1) line s Hnd)
    as (P1 & P2 & _ & _ & Pv & _).
  apply IH; [congruence | congruence |].
  destruct (verdict (existing_lines s) line);
    destruct Pv as (_ & _ & -> & _); [exact Hnd|].
  rewrite <- list_fmap_compose. exact Hnd.
Qed.

(** ** Setup and teardown *)

Lemma setup_ready (fs : Files) (target : str) :
  usable fs target ->
  setup fs (init fs) = (ready fs target, inr (file_lines target)).
Proof.
  intros (Ht & Ha & Hl). destruct fs as [t m a l lo].
  unfold logs_creatable in Hl. cbn in Ht, Ha, Hl.
  apply andb_prop in Hl as [Hl H1]. apply andb_prop in H1 as [H1 H2].
  apply andb_prop in H2 as [H2 H3]. apply andb_prop in H3 as [H3 _].
  subst. unfold setup, ready, seed, init, open_target, initialize_logs,
    open_log, preload, open_master. cbn. rewrite H1, H2, H3. cbn.
  destruct m; reflexivity.
Qed.

Lemma log_reasons_NoDup : NoDup log_reasons.
Proof. apply (bool_decide_unpack _). reflexivity. Qed.

Lemma keys_NoDup (s : State) :
  (log_files s).*1 = log_reasons -> NoDup (log_files s).*1.
Proof. intros ->. exact log_reasons_NoDup. Qed.

Lemma ready_NoDup (fs : Files) (target : str) :
  NoDup (log_files (ready fs target)).*1.
Proof. exact log_reasons_NoDup. Qed.

Lemma emit_emit_all (e : Event) (s : State) : emit e s = emit_all [e] s.
Proof. reflexivity. Qed.

Lemma emit_all_emit_all (a b : list Event) (s : State) :
  emit_all b (emit_all a s) = emit_all (a ++ b) s.
Proof. unfold emit_all. cbn. now rewrite app_assoc. Qed.

Lemma close_logs_spec (s : State) :
  close_logs s = emit_all (Close ∘ LogFile <$> (log_files s).*1) s.
Proof.
  unfold close_logs.
  assert (H : forall (d : list (string * str)) s,
    foldl (fun s '(reason, _) => emit (Close (LogFile reason)) s) s d
    = emit_all (Close ∘ LogFile <$> d.*1) s).
  { clear. induction d as [|[k w] d IH]; intros s.
    - destruct s. unfold emit_all. cbn. now rewrite app_nil_r.
    - cbn [foldl]. rewrite IH, emit_emit_all, emit_all_emit_all.
      reflexivity. }
  apply H.
Qed.

Lemma finish_spec (s : State) :
  (log_files s).*1 = log_reasons ->
  finish s
  = emit_all (teardown (total_lines s) (processed_lines s)
                (valid_lines s) (rejected_lines s)) s.
Proof.
  intros Hk. unfold finish. rewrite close_logs_spec, !emit_emit_all.
  rewrite !emit_all_emit_all. cbn [log_files emit_all]. rewrite Hk.
  reflexivity.
Qed.

Lemma process_files_usable (fs : Files) (target : str)
    (sched : list (list Command)) :
  usable fs target ->
  process_files fs sched
  = match loop (file_lines target) 0 sched (ready fs target) with
    | (s, Spin) => (s, Hangs)
    | (s, _) => (set_is_running false (finish s), Returned)
    end.
Proof.
  intros Hu. unfold process_files, try_block, mbind, M_bind, bind.
  rewrite (setup_ready fs target Hu). unfold loop_and_teardown.
  destruct (loop (file_lines target) 0 sched (ready fs target)) as [s []];
    reflexivity.
Qed.

(** A run one of whose files cannot be opened ends with the error
    signal, before any line is handled. *)
Lemma process_files_unusable (fs : Files) (sched : list (list Command)) :
  (forall target, ~ usable fs target) ->
  exists s e,
    process_files fs sched = (s, Returned)
    /\ processed_lines s = 0 /\ valid_lines s = 0 /\ rejected_lines s = 0
    /\ master s = master_file fs
    /\ last (trace s) = Some (error_occurred e).
Proof.
  intros Hn. destruct fs as [[t|] m a l lo].
  - unfold process_files, try_block, setup, init, open_target,
      initialize_logs, open_log, preload, open_master.
    cbn. destruct l; cbn.
    + destruct (lo "Not Enough Parts"%string) eqn:E1; cbn;
        [destruct (lo "Empty Line"%string) eqn:E2; cbn;
         [destruct (lo "Duplicate"%string) eqn:E3; cbn|]|].
      * destruct a.
        -- exfalso. apply (Hn t). unfold usable, logs_creatable. cbn.
           rewrite E1, E2, E3. repeat split.
        -- destruct m; do 2 eexists; (split; [reflexivity|]); cbn; auto.
      * do 2 eexists. split; [reflexivity|]. cbn. auto.
      * do 2 eexists. split; [reflexivity|]. cbn. auto.
      * do 2 eexists. split; [reflexivity|]. cbn. auto.
    + do 2 eexists. split; [reflexivity|]. cbn. auto.
  - do 2 eexists. split; [reflexivity|]. cbn. auto.
Qed.

(** ** Invariants of the loop *)

Lemma loop_ind (P : nat -> State -> Prop) :
  (forall n s c, P n s -> P n (execute s c)) ->
  (forall n line s,
      P n s -> is_running s = true -> is_paused s = false ->
      P (n + 1) (process_line (n + 1) line s)) ->
  forall lines n sched s,
    P n s ->
    exists m, n <= m <= n + length lines
              /\ P m (loop lines n sched s).1.
Proof.
  intros Hc Hl lines. induction lines as [|line rest IH]; intros n sched s HP.
  - exists n. cbn. split; [lia | exact HP].
  - cbn [loop].
    assert (HP' : P n (foldl execute s (default [] (head sched)))).
    { generalize (default [] (head sched)). intros cs. revert s HP.
      induction cs as [|c cs IHc]; intros s HP; [exact HP|].
      cbn [foldl]. apply IHc, Hc, HP. }
    set (s' := foldl execute s (default [] (head sched))) in *.
    destruct (is_running s') eqn:Er; cbn [negb].
    + destruct (is_paused s') eqn:Ep; cbn [andb].
      * exists n. cbn. split; [lia | exact HP'].
      * destruct (IH (n + 1) (tail sched) (process_line (n + 1) line s'))
          as (m & Hm & HPm); [now apply Hl|].
        exists m. split; [cbn; lia | exact HPm].
    + exists n. cbn. split; [lia | exact HP'].
Qed.

Lemma loop_keys (lines : list str) (n : nat) (sched : list (list Command))
    (s : State) :
  (log_files s).*1 = log_reasons ->
  (log_files (loop lines n sched s).1).*1 = log_reasons.
Proof.
  intros H.
  destruct (loop_ind (fun _ s => (log_files s).*1 = log_reasons))
    with (lines := lines) (n := n) (sched := sched) (s := s)
    as (m & _ & Hm); try assumption.
  - intros _ s0 c H0. now destruct c.
  - intros n0 line s0 H0 _ _.
    pose proof (keys_NoDup s0 H0) as Hnd.
    destruct (process_line_spec (n0 + 1) line s0 Hnd)
      as (_ & _ & _ & _ & Pv & _).
    destruct (verdict (existing_lines s0) line);
      destruct Pv as (_ & _ & -> & _); [exact H0|].
    rewrite <- list_fmap_compose. exact H0.
Qed.

(** ** Line boundaries *)

Lemma boundary_ready (fs : Files) (target : str) :
  usable fs target -> boundary fs target 0 (ready fs target).
Proof.
  intros Hu. pose proof (boundary_start fs target Hu) as H.
  now rewrite (setup_ready fs target Hu) in H.
Qed.


Lemma boundary_commands (fs : Files) (target : str) (n : nat) (s : State)
    (cs : list Command) :
  boundary fs target n s -> boundary fs target n (foldl execute s cs).
Proof.
  revert s. induction cs as [|c cs IH]; intros s H; [exact H|].
  cbn [foldl]. apply IH. now constructor.
Qed.

Lemma boundary_inv (fs : Files) (target : str) (n : nat) (s : State) :
  boundary fs target n s ->
  processed_lines s = n
  /\ valid_lines s + rejected_lines s = n
  /\ n <= length (file_lines target)
  /\ total_lines s = length (file_lines target)
  /\ (log_files s).*1 = log_reasons.
Proof.
  induction 1 as [Hu|n s c _ IH|n s line _ IH Hline Hr Hp].
  - rewrite (setup_ready fs target Hu). cbn. repeat split; lia.
  - destruct c; exact IH.
  - destruct IH as (I1 & I2 & I3 & I4 & I5).
    pose proof (keys_NoDup s I5) as Hnd.
    destruct (process_line_spec (n + 1) line s Hnd)
      as (_ & _ & P3 & P4 & Pv & _).
    apply lookup_lt_Some in Hline.
    split; [exact P4|].
    destruct (verdict (existing_lines s) line);
      destruct Pv as (V1 & V2 & V3 & _); rewrite V1, V2, V3, P3.
    + repeat split; [lia | lia | exact I4 | exact I5].
    + repeat split; [lia | lia | exact I4 |].
      rewrite <- list_fmap_compose. exact I5.
Qed.

(** The state in which the loop ends is a line boundary of the run. *)
Lemma loop_boundary (fs : Files) (target : str) (lines : list str) :
  forall (n : nat) (sched : list (list Command)) (s : State),
    drop n (file_lines target) = lines ->
    boundary fs target n s ->
    exists m, boundary fs target m (loop lines n sched s).1.
Proof.
  induction lines as [|line rest IH]; intros n sched s Hd Hb.
  - exists n. exact Hb.
  - cbn [loop].
    pose proof (boundary_commands fs target n s
                  (default [] (head sched)) Hb) as Hb'.
    set (s' := foldl execute s (default [] (head sched))) in *.
    destruct (is_running s') eqn:Er; cbn [negb].
    + destruct (is_paused s') eqn:Ep; cbn [andb].
      * exists n. exact Hb'.
      * apply IH.
        -- rewrite <- drop_drop, Hd. reflexivity.
        -- constructor; try assumption.
           rewrite <- (Nat.add_0_r n), <- lookup_drop, Hd. reflexivity.
    + exists n. exact Hb'.
Qed.

(** ** Valid lines *)

Lemma validate_line_valid (line : str) (n : nat) (reason : string) (c : str) :
  validate_line line n = (true, reason, c) ->
  c = strip line /\ validate_line line 0 = (true, "Valid"%string, strip line).
Proof.
  unfold validate_line. case_bool_decide; [discriminate|].
  destruct (negb _); [discriminate|]. intros [= _ <-]. auto.
Qed.


Lemma run_lines_keys (lines : list str) (n : nat) (s : State) :
  (log_files s).*1 = log_reasons ->
  (log_files (run_lines lines n s)).*1 = log_reasons.
Proof.
  intros H.
  pose proof (keys_NoDup s H) as Hnd.
  destruct (run_lines_spec lines n s Hnd)
    as (_ & _ & _ & _ & _ & _ & -> & _).
  rewrite <- list_fmap_compose. exact H.
Qed.



(** ** The accepted records *)

Lemma elem_of_accepted (seen : gset str) (lines : list str) (c : str) :
  c ∈ accepted seen lines <->
  (c ∉ seen)
  /\ exists l, l ∈ lines /\ validate_line l 0 = (true, "Valid"%string, c).
Proof.
  revert seen. induction lines as [|line rest IH]; intros seen; cbn [accepted].
  - split; [intros H; inversion H|]. intros (_ & l & Hl & _). inversion Hl.
  - destruct (verdict seen line) as [r|r] eqn:Ev.
    + apply verdict_Valid in Ev as [Hv Hr].
      rewrite elem_of_cons, IH. split.
      * intros [->|(Hc & l & Hl & Hvl)].
        -- split; [exact Hr|]. exists line. split; [left | exact Hv].
        -- split; [intros H; apply Hc; now apply elem_of_union_r|].
           exists l. split; [now right | exact Hvl].
      * intros (Hc & l & Hl & Hvl).
        destruct (decide (c = r)) as [->|Hne]; [now left|]. right.
        split.
        -- rewrite elem_of_union, elem_of_singleton. intros [?|?]; auto.
        -- apply elem_of_cons in Hl as [->|Hl]; [congruence|]. eauto.
    + rewrite IH. split.
      * intros (Hc & l & Hl & Hvl). split; [exact Hc|].
        exists l. split; [now right | exact Hvl].
      * intros (Hc & l & Hl & Hvl). split; [exact Hc|].
        apply elem_of_cons in Hl as [->|Hl]; [|eauto].
        exfalso.
        assert (Hv : verdict seen line = Valid c)
          by (apply verdict_Valid; auto).
        congruence.
Qed.

Lemma accepted_NoDup (seen : gset str) (lines : list str) :
  NoDup (accepted seen lines).
Proof.
  revert seen. induction lines as [|line rest IH]; intros seen; cbn [accepted].
  - apply NoDup_nil_2.
  - destruct (verdict seen line) as [r|r]; [|apply IH].
    apply NoDup_cons. split; [|apply IH].
    rewrite elem_of_accepted. intros [Hr _]. apply Hr.
    apply elem_of_union_l. now apply elem_of_singleton.
Qed.

(** The accepted records come in the order of their lines. *)
Lemma accepted_sublist (seen : gset str) (lines : list str) :
  sublist (accepted seen lines) (strip <$> lines).
Proof.
  revert seen. induction lines as [|line rest IH]; intros seen; cbn [accepted].
  - constructor.
  - rewrite fmap_cons. destruct (verdict seen line) as [r|r] eqn:Ev.
    + apply verdict_Valid_strip in Ev as ->. apply sublist_skip, IH.
    + apply sublist_cons, IH.
Qed.

Lemma rejections_length (seen : gset str) (n : nat) (lines : list str) :
  length (accepted seen lines) + length (rejections seen n lines)
  = length lines.
Proof.
  revert seen n. induction lines as [|line rest IH]; intros seen n;
    cbn [accepted rejections length]; [reflexivity|].
  destruct (verdict seen line) as [c|r]; cbn [length].
  - rewrite <- (IH ({[c]} ∪ seen) (n + 1)). lia.
  - rewrite <- (IH seen (n + 1)). lia.
Qed.

(** ** Handles *)

Lemma still_open_app (a b : list Event) :
  still_open (a ++ b)
  = foldl (fun acc e =>
             match e with
             | Open r => acc ++ [r]
             | Close r => remove_first r acc
             | _ => acc
             end) (still_open a) b.
Proof. unfold still_open. now rewrite foldl_app. Qed.

Lemma still_open_progress (a evs : list Event) :
  Forall is_progress evs -> still_open (a ++ evs) = still_open a.
Proof.
  intros H. rewrite still_open_app. generalize (still_open a).
  induction H as [|e evs He _ IH]; intros acc; [reflexivity|].
  cbn [foldl]. destruct e; try contradiction. apply IH.
Qed.

(** Between setup and teardown the handles of the run are open; the
    teardown closes every one of them. *)
Lemma still_open_run (fs : Files) (target : str) (evs : list Event)
    (t p v r : nat) :
  Forall is_progress evs ->
  still_open (trace (ready fs target) ++ evs)
  = (LogFile <$> log_reasons) ++ [MasterFd; TargetFile]
  /\ still_open ((trace (ready fs target) ++ evs) ++ teardown t p v r) = [].
Proof.
  intros H.
  assert (H1 : still_open (trace (ready fs target))
               = (LogFile <$> log_reasons) ++ [MasterFd; TargetFile]).
  { cbn [trace ready]. destruct (master_file fs); reflexivity. }
  split.
  - now rewrite still_open_progress.
  - rewrite still_open_app, still_open_progress, H1 by exact H. reflexivity.
Qed.

(** ** Runs that return *)

(** A run whose files can all be opened and whose worker is not left
    in the pause loop: the state after the loop, then the teardown. *)
Lemma process_files_returned (fs : Files) (target : str)
    (sched : list (list Command)) (s_end : State) :
  usable fs target ->
  process_files fs sched = (s_end, Returned) ->
  exists s x,
    loop (file_lines target) 0 sched (ready fs target) = (s, x)
    /\ x <> Spin
    /\ (exists m, boundary fs target m s)
    /\ s_end = set_is_running false
                 (emit_all (teardown (total_lines s) (processed_lines s)
                              (valid_lines s) (rejected_lines s)) s).
Proof.
  intros Hu Hp. rewrite (process_files_usable fs target sched Hu) in Hp.
  pose proof (loop_keys (file_lines target) 0 sched (ready fs target)
                eq_refl) as Hk.
  destruct (loop_boundary fs target (file_lines target) 0 sched
              (ready fs target)) as (m & Hm);
    [apply drop_0 | now apply boundary_ready|].
  destruct (loop (file_lines target) 0 sched (ready fs target)) as [s x].
  cbn [fst] in Hk, Hm. exists s, x. split; [reflexivity|].
  destruct x; try discriminate;
    (split; [discriminate|]); (split; [eauto|]);
    rewrite finish_spec in Hp by exact Hk; congruence.
Qed.

(** The state in which the loop ends when the first [N] windows hold
    no command and the next one holds a stop: the state after the
    first [N] lines, up to the flags. *)
Lemma loop_stopped (fs : Files) (target : str) (N : nat)
    (cs : list Command) (rest : list (list Command)) :
  N <= length (file_lines target) ->
  Stop ∈ cs ->
  exists s x,
    loop (file_lines target) 0 (replicate N [] ++ cs :: rest)
      (ready fs target) = (s, x)
    /\ x <> Spin
    /\ same_data (run_lines (take N (file_lines target)) 0 (ready fs target)) s.
Proof.
  intros HN Hstop.
  rewrite (loop_quiet N (file_lines target) 0 (cs :: rest) (ready fs target)
             eq_refl eq_refl (ready_NoDup fs target) HN).
  set (sN := run_lines (take N (file_lines target)) 0 (ready fs target)).
  destruct (drop N (file_lines target)) as [|line more].
  - exists sN, Exhausted. split; [reflexivity|]. split; [discriminate|].
    apply same_data_refl.
  - exists (foldl execute sN cs), Break.
    split; [apply loop_break, execute_stop, Hstop|].
    split; [discriminate|]. apply execute_same_data.
Qed.

(** A run that returns after exactly the first [N] lines were handled:
    its final state in terms of the accepted records and the
    rejections among these lines. *)
Lemma returned_run (fs : Files) (target : str) (N : nat)
    (sched : list (list Command)) (s : State) (x : LoopExit) :
  usable fs target ->
  N <= length (file_lines target) ->
  loop (file_lines target) 0 sched (ready fs target) = (s, x) ->
  x <> Spin ->
  same_data (run_lines (take N (file_lines target)) 0 (ready fs target)) s ->
  let records := accepted (seed fs) (take N (file_lines target)) in
  let rej := rejections (seed fs) 0 (take N (file_lines target)) in
  exists s_end,
    process_files fs sched = (s_end, Returned)
    /\ total_lines s_end = length (file_lines target)
    /\ processed_lines s_end = N
    /\ valid_lines s_end = length records
    /\ rejected_lines s_end = length rej
    /\ master s_end
       = Some (default [] (master_file fs) ++ appended records)
    /\ log_files s_end
       = (fun reason => (reason, log_text reason rej)) <$> log_reasons
    /\ still_open (trace s_end) = []
    /\ exists before,
         trace s_end
         = before ++ teardown (total_lines s_end) N (valid_lines s_end)
                       (rejected_lines s_end).
Proof.
  intros Hu HN Hloop Hx Hsame records rej.
  destruct (run_lines_spec (take N (file_lines target)) 0 (ready fs target)
              (ready_NoDup fs target))
    as (_ & _ & R3 & R4 & R5 & R6 & R7 & _ & R9 & R10 & evs & R11 & R12).
  set (sN := run_lines (take N (file_lines target)) 0 (ready fs target)) in *.
  destruct Hsame as (S1 & S2 & S3 & S4 & S5 & S6 & S7 & S8).
  assert (Hk : (log_files s).*1 = log_reasons).
  { rewrite S5. now apply run_lines_keys. }
  assert (Hproc : processed_lines s = N).
  { rewrite S2, R4. pose proof (length_take_le (file_lines target) N HN) as Hl.
    destruct (take N (file_lines target)); cbn in *; lia. }
  exists (set_is_running false (finish s)).
  split.
  { rewrite (process_files_usable fs target _ Hu), Hloop.
    now destruct x. }
  rewrite finish_spec by exact Hk.
  cbn [processed_lines valid_lines rejected_lines master log_files trace
       total_lines set_is_running emit_all].
  split; [rewrite S1, R3; reflexivity|].
  split; [exact Hproc|].
  split; [rewrite S3, R5; reflexivity|].
  split; [rewrite S4, R6; reflexivity|].
  split.
  { rewrite S7. destruct R10 as [m Hm]; [cbn; eauto|].
    rewrite Hm in R9. cbn in R9. now rewrite Hm, R9. }
  split; [rewrite S5, R7; reflexivity|].
  split.
  { rewrite S8, R11. now apply still_open_run. }
  exists (trace s). now rewrite Hproc.
Qed.

(** The run without any command handles every line. *)
Lemma complete_run (fs : Files) (target : str) :
  usable fs target ->
  let records := accepted (seed fs) (file_lines target) in
  let rej := rejections (seed fs) 0 (file_lines target) in
  exists s_end,
    process_files fs [] = (s_end, Returned)
    /\ total_lines s_end = length (file_lines target)
    /\ processed_lines s_end = length (file_lines target)
    /\ valid_lines s_end = length records
    /\ rejected_lines s_end = length rej
    /\ master s_end
       = Some (default [] (master_file fs) ++ appended records)
    /\ log_files s_end
       = (fun reason => (reason, log_text reason rej)) <$> log_reasons
    /\ still_open (trace s_end) = []
    /\ exists before,
         trace s_end
         = before ++ teardown (total_lines s_end) (length (file_lines target))
                       (valid_lines s_end) (rejected_lines s_end).
Proof.
  intros Hu.
  pose proof (returned_run fs target (length (file_lines target)) []
                (run_lines (file_lines target) 0 (ready fs target))
                Exhausted Hu (le_n _)) as H.
  rewrite firstn_all in H. apply H.
  - apply loop_no_commands; [reflexivity | reflexivity | apply ready_NoDup].
  - discriminate.
  - apply same_data_refl.
Qed.

(** A pause that the worker sees at the top of an iteration: the run
    never leaves the pause loop. *)
Lemma paused_run_hangs (fs : Files) (target : str) (N : nat)
    (rest : list (list Command)) :
  usable fs target ->
  N < length (file_lines target) ->
  exists s,
    process_files fs (replicate N [] ++ [Pause] :: rest) = (s, Hangs)
    /\ is_paused s = true
    /\ same_data (run_lines (take N (file_lines target)) 0 (ready fs target)) s.
Proof.
  intros Hu HN.
  rewrite (process_files_usable fs target _ Hu).
  rewrite (loop_quiet N (file_lines target) 0 ([Pause] :: rest)
             (ready fs target) eq_refl eq_refl (ready_NoDup fs target))
    by lia.
  destruct (run_lines_spec (take N (file_lines target)) 0 (ready fs target)
              (ready_NoDup fs target)) as (R1 & R2 & _).
  set (sN := run_lines (take N (file_lines target)) 0 (ready fs target)) in *.
  destruct (drop N (file_lines target)) as [|line more] eqn:Ed.
  - apply (f_equal length) in Ed. rewrite length_drop in Ed. cbn in Ed. lia.
  - rewrite (loop_spin line more _ [Pause] rest sN);
      [|cbn; rewrite R1; reflexivity | reflexivity].
    exists (foldl execute sN [Pause]). split; [reflexivity|].
    split; [reflexivity|]. apply execute_same_data.
Qed.

(** ** Any schedule *)

Lemma same_data_sym (a b : State) : same_data a b -> same_data b a.
Proof. unfold same_data. intuition congruence. Qed.

Lemma same_data_trans (a b c : State) :
  same_data a b -> same_data b c -> same_data a c.
Proof. unfold same_data. intuition congruence. Qed.

(** Handling a line reads and writes the data of the state only: the
    two flags play no part. *)
Lemma process_line_same_data (n : nat) (line : str) (a b : State) :
  same_data a b ->
  same_data (process_line n line a) (process_line n line b).
Proof.
  intros (H1 & H2 & H3 & H4 & H5 & H6 & H7 & H8).
  rewrite !process_line_verdict. cbn zeta. rewrite H6, H1.
  destruct (verdict (existing_lines a) line) as [c|r];
    rewrite ?log_rejection_fields;
    destruct (throttle n (total_lines a));
    unfold same_data, master_write; cbn;
    rewrite ?H1, ?H2, ?H3, ?H4, ?H5, ?H6, ?H7, ?H8; repeat split.
Qed.

Lemma run_lines_same_data (lines : list str) (n : nat) (a b : State) :
  same_data a b ->
  same_data (run_lines lines n a) (run_lines lines n b).
Proof.
  revert n a b. induction lines as [|line rest IH]; intros n a b H; [exact H|].
  cbn [run_lines]. apply IH. now apply process_line_same_data.
Qed.

(** Whatever the commands, the loop ends with the data of the plain
    pass over some prefix of the lines; it is the whole list when the
    loop ends by exhaustion. *)
Lemma loop_prefix (lines : list str) (n : nat)
    (sched : list (list Command)) (s : State) :
  exists k,
    k <= length lines
    /\ same_data (run_lines (take k lines) n s) (loop lines n sched s).1
    /\ ((loop lines n sched s).2 = Exhausted -> k = length lines).
Proof.
  revert n sched s. induction lines as [|line rest IH]; intros n sched s.
  - exists 0. cbn. split; [lia|]. split; [apply same_data_refl | auto].
  - cbn [loop].
    pose proof (execute_same_data (default [] (head sched)) s) as Hs.
    set (s' := foldl execute s (default [] (head sched))) in *.
    destruct (is_running s'); cbn [negb].
    + destruct (is_paused s'); cbn [andb].
      * exists 0. cbn. split; [lia|]. split; [exact Hs | discriminate].
      * destruct (IH (n + 1) (tail sched) (process_line (n + 1) line s'))
          as (k & Hk & Hd & He).
        exists (S k). cbn [length take run_lines]. split; [lia|]. split.
        -- eapply same_data_trans; [|exact Hd].
           apply run_lines_same_data, process_line_same_data, Hs.
        -- intros Hx. now rewrite (He Hx).
    + exists 0. cbn. split; [lia|]. split; [exact Hs | discriminate].
Qed.

(** The data a run ends with, whatever its schedule. *)
Lemma any_run (fs : Files) (target : str) (sched : list (list Command)) :
  usable fs target ->
  exists N s x,
    N <= length (file_lines target)
    /\ loop (file_lines target) 0 sched (ready fs target) = (s, x)
    /\ same_data (run_lines (take N (file_lines target)) 0 (ready fs target)) s
    /\ (log_files s).*1 = log_reasons
    /\ (x = Exhausted -> N = length (file_lines target))
    /\ process_files fs sched
       = match x with
         | Spin => (s, Hangs)
         | _ => (set_is_running false
                   (emit_all (teardown (total_lines s) (processed_lines s)
                                (valid_lines s) (rejected_lines s)) s),
                 Returned)
         end.
Proof.
  intros Hu.
  destruct (loop_prefix (file_lines target) 0 sched (ready fs target))
    as (N & HN & Hd & He).
  pose proof (loop_keys (file_lines target) 0 sched (ready fs target)
                eq_refl) as Hk.
  rewrite (process_files_usable fs target sched Hu).
  destruct (loop (file_lines target) 0 sched (ready fs target)) as [s x].
  cbn [fst snd] in *. exists N, s, x.
  split; [exact HN|]. split; [reflexivity|]. split; [exact Hd|].
  split; [exact Hk|]. split; [exact He|].
  destruct x; rewrite ?finish_spec by exact Hk; reflexivity.
Qed.

(** The counters and files a run ends with, for any schedule. *)
Lemma run_data (fs : Files) (target : str)
    (sched : list (list Command)) :
  usable fs target ->
  let s := (process_files fs sched).1 in
  let handled := take (processed_lines s) (file_lines target) in
  processed_lines s <= length (file_lines target)
  /\ valid_lines s = length (accepted (seed fs) handled)
  /\ rejected_lines s = length (rejections (seed fs) 0 handled)
  /\ master s
     = Some (default [] (master_file fs)
             ++ appended (accepted (seed fs) handled))
  /\ existing_lines s = list_to_set (accepted (seed fs) handled) ∪ seed fs
  /\ log_files s
     = (fun reason =>
          (reason, log_text reason (rejections (seed fs) 0 handled)))
         <$> log_reasons.
Proof.
  intros Hu.
  destruct (any_run fs target sched Hu)
    as (N & s0 & x & HN & _ & Hd & _ & _ & Hp).
  destruct (run_lines_spec (take N (file_lines target)) 0 (ready fs target)
              (ready_NoDup fs target))
    as (_ & _ & _ & R4 & R5 & R6 & R7 & R8 & R9 & R10 & _).
  destruct Hd as (_ & S2 & S3 & S4 & S5 & S6 & S7 & _).
  assert (HpN : processed_lines s0 = N).
  { rewrite S2, R4. pose proof (length_take_le (file_lines target) N HN).
    destruct (take N (file_lines target)); cbn in *; lia. }
  assert (Hm : master s0
               = Some (default [] (master_file fs)
                       ++ appended (accepted (seed fs)
                                      (take N (file_lines target))))).
  { rewrite S7. destruct R10 as [m Hm]; [cbn; eauto|].
    rewrite Hm in R9. cbn in R9. now rewrite Hm, R9. }
  assert (Hall :
    let handled := take (processed_lines s0) (file_lines target) in
    processed_lines s0 <= length (file_lines target)
    /\ valid_lines s0 = length (accepted (seed fs) handled)
    /\ rejected_lines s0 = length (rejections (seed fs) 0 handled)
    /\ master s0
       = Some (default [] (master_file fs)
               ++ appended (accepted (seed fs) handled))
    /\ existing_lines s0 = list_to_set (accepted (seed fs) handled) ∪ seed fs
    /\ log_files s0
       = (fun reason =>
            (reason, log_text reason (rejections (seed fs) 0 handled)))
           <$> log_reasons).
  { cbn zeta. rewrite HpN. split; [exact HN|].
    split; [rewrite S3, R5; reflexivity|].
    split; [rewrite S4, R6; reflexivity|].
    split; [exact Hm|].
    split; [rewrite S6, R8; reflexivity|].
    rewrite S5, R7. reflexivity. }
  rewrite Hp. destruct x; exact Hall.
Qed.

(** ** C1 *)

Lemma cut_spec (sep : N) (s : str) :
  match cut sep s with
  | Some (pre, post) => s = pre ++ sep :: post /\ sep ∉ pre
  | None => sep ∉ s
  end.
Proof.
  induction s as [|c t IH]; cbn [cut].
  - apply not_elem_of_nil.
  - destruct (c =? sep)%N eqn:E.
    + apply N.eqb_eq in E. subst c. split; [reflexivity|].
      apply not_elem_of_nil.
    + apply N.eqb_neq in E. destruct (cut sep t) as [[pre post]|].
      * destruct IH as [-> Hpre]. split; [reflexivity|].
        rewrite not_elem_of_cons. auto.
      * rewrite not_elem_of_cons. auto.
Qed.

Lemma cut_app (sep : N) (a rest : str) :
  sep ∉ a -> cut sep (a ++ sep :: rest) = Some (a, rest).
Proof.
  induction a as [|c a IH]; intros H; cbn [cut app].
  - now rewrite N.eqb_refl.
  - apply not_elem_of_cons in H as [Hne Ha].
    apply not_eq_sym, N.eqb_neq in Hne. now rewrite Hne, IH.
Qed.

(** Exactly three segments: the line holds two colons at least, and
    the first two are the delimiters. *)
Lemma split_three (s : str) :
  length (split COLON 2 s) = 3 <->
  exists a b c, s = a ++ COLON :: b ++ COLON :: c
                /\ (COLON ∉ a) /\ (COLON ∉ b)
                /\ split COLON 2 s = [a; b; c].
Proof.
  split.
  - cbn [split]. pose proof (cut_spec COLON s) as H1.
    destruct (cut COLON s) as [[a post]|]; [|discriminate].
    destruct H1 as [-> Ha]. pose proof (cut_spec COLON post) as H2.
    destruct (cut COLON post) as [[b c]|]; [|discriminate].
    destruct H2 as [-> Hb]. intros _. exists a, b, c. auto.
  - intros (a & b & c & -> & Ha & Hb & _). cbn [split].
    rewrite cut_app by exact Ha. now rewrite cut_app by exact Hb.
Qed.

(** C1: the classifier applies its rules in order and returns exactly
    one outcome.  A line whose stripped form is empty is rejected as
    "Empty Line"; otherwise a line whose stripped form does not split
    on ':' (two splits at most) into exactly 3 segments is rejected
    as "Not Enough Parts"; otherwise the line is valid and the record
    is the whole stripped line.  The stripped form is the line without
    the whitespace at its two ends: the line is whitespace, the
    stripped form, whitespace, and the stripped form neither starts
    nor ends with a whitespace character.  "user:example.com" is
    rejected for its part count, "a:b:c:d" is valid with record
    "a:b:c:d" (its third segment is "c:d"), a line of blanks is an
    empty line; a line as read from a file, with its newline and with
    blanks or tabs around it, gives the record without them, inner
    blanks kept. *)
Theorem C1_validate_line_rules (raw : str) (n : nat) :
  ((strip raw = []
    /\ validate_line raw n = (false, "Empty Line"%string, [])
    /\ classify raw = Some (Rejected EmptyLine))
   \/ (strip raw <> []
       /\ length (split COLON 2 (strip raw)) <> 3
       /\ validate_line raw n
          = (false, "Not Enough Parts"%string, strip raw)
       /\ classify raw = Some (Rejected NotEnoughParts))
   \/ (strip raw <> []
       /\ length (split COLON 2 (strip raw)) = 3
       /\ validate_line raw n = (true, "Valid"%string, strip raw)
       /\ classify raw = Some (Valid (strip raw))))
  /\ classify (py "user:example.com") = Some (Rejected NotEnoughParts)
  /\ classify (py "a:b:c:d") = Some (Valid (py "a:b:c:d"))
  /\ split COLON 2 (py "a:b:c:d") = [py "a"; py "b"; py "c:d"]
  /\ classify (py "   ") = Some (Rejected EmptyLine)
  /\ ((exists before after,
          raw = before ++ strip raw ++ after
          /\ Forall (fun c => isspace c = true) before
          /\ Forall (fun c => isspace c = true) after)
      /\ isspace <$> head (strip raw) <> Some true
      /\ isspace <$> last (strip raw) <> Some true)
  /\ validate_line (py "a:b:c" ++ [NL]) n
     = (true, "Valid"%string, py "a:b:c")
  /\ validate_line (py "  a b:c: d:e  " ++ [9%N; NL]) n
     = (true, "Valid"%string, py "a b:c: d:e")
  /\ validate_line (py " user:example.com " ++ [NL]) n
     = (false, "Not Enough Parts"%string, py "user:example.com")
  /\ validate_line (py "  " ++ [9%N; NL]) n
     = (false, "Empty Line"%string, []).
Proof.
  split.
  { unfold classify, validate_line.
    case_bool_decide as He.
    - left. rewrite He. auto.
    - destruct (length (split COLON 2 (strip raw)) =? 3) eqn:E; cbn [negb].
      + apply Nat.eqb_eq in E. right. right. auto.
      + apply Nat.eqb_neq in E. right. left. auto. }
  do 4 (split; [reflexivity|]).
  split; [apply strip_shape|].
  repeat split; vm_compute; reflexivity.
Qed.

(** ** C2 *)

(** C2: at every line boundary of every run (after each fully handled
    line, whatever commands arrived, hence also after a stop) the
    counters satisfy processed_lines = valid_lines + rejected_lines and
    processed_lines <= total_lines, total_lines being the number of
    lines of the target file; the state a run ends in, stopped or not,
    failed or not, satisfies both as well. *)
Theorem C2_counters_invariant (fs : Files) (target : str) (n : nat)
    (s : State) (sched : list (list Command)) :
  boundary fs target n s ->
  (processed_lines s = n
   /\ processed_lines s = valid_lines s + rejected_lines s
   /\ processed_lines s <= total_lines s
   /\ total_lines s = length (file_lines target))
  /\ (let s' := (process_files fs sched).1 in
      processed_lines s' = valid_lines s' + rejected_lines s'
      /\ processed_lines s' <= total_lines s').
Proof.
  intros Hb. split.
  - destruct (boundary_inv _ _ _ _ Hb) as (I1 & I2 & I3 & I4 & _).
    repeat split; lia.
  - clear target n s Hb.
    destruct (target_file fs) as [target|] eqn:Et;
      [destruct (master_appendable fs) eqn:Ea;
       [destruct (logs_creatable fs) eqn:El|]|].
    + assert (Hu : usable fs target) by (repeat split; assumption).
      rewrite (process_files_usable fs target sched Hu).
      destruct (loop_boundary fs target (file_lines target) 0 sched
                  (ready fs target)) as (m & Hm);
        [apply drop_0 | now apply boundary_ready|].
      destruct (boundary_inv _ _ _ _ Hm) as (I1 & I2 & I3 & I4 & I5).
      destruct (loop (file_lines target) 0 sched (ready fs target))
        as [s' e]. cbn [fst] in *.
      destruct e; cbn zeta; cbn [fst];
        rewrite ?finish_spec by exact I5; cbn; lia.
    + destruct (process_files_unusable fs sched)
        as (s & e & -> & H1 & H2 & H3 & _).
      { intros t (_ & _ & Hl). congruence. }
      cbn. lia.
    + destruct (process_files_unusable fs sched)
        as (s & e & -> & H1 & H2 & H3 & _).
      { intros t (_ & Ha & _). congruence. }
      cbn. lia.
    + destruct (process_files_unusable fs sched)
        as (s & e & -> & H1 & H2 & H3 & _).
      { intros t (Ht & _). congruence. }
      cbn. lia.
Qed.


Lemma C2_counters_invariant_witness :
  let s := process_line 1 (py "a:b:c" ++ [NL])
             (ready sample_files sample_target) in
  boundary sample_files sample_target 1 s
  /\ processed_lines s = 1
  /\ processed_lines s = valid_lines s + rejected_lines s
  /\ processed_lines s <= total_lines s.
Proof.
  cbn zeta.
  assert (Hb : boundary sample_files sample_target 1
                 (process_line 1 (py "a:b:c" ++ [NL])
                    (ready sample_files sample_target))).
  { apply (boundary_line _ _ 0);
      [apply boundary_ready; repeat split
      | reflexivity | reflexivity | reflexivity]. }
  split; [exact Hb|].
  destruct (C2_counters_invariant sample_files sample_target 1 _
              [[]; [Stop]] Hb) as ((H1 & H2 & H3 & _) & _).
  auto.
Defined.

(** ** C3 *)



(** ** C4 *)

(** The index preloaded from a text. *)
Lemma seed_app (a b : str) :
  terminated a ->
  list_to_set (C := gset str) (strip <$> file_lines (a ++ b))
  = list_to_set (strip <$> file_lines a)
    ∪ list_to_set (strip <$> file_lines b).
Proof.
  intros Ha. rewrite file_lines_app_terminated by exact Ha.
  now rewrite fmap_app, list_to_set_app_L.
Qed.

Lemma record_clean (seen : gset str) (target : str) (c : str) :
  c ∈ accepted seen (file_lines target) -> (NL ∉ c) /\ strip c = c.
Proof.
  intros H. apply elem_of_accepted in H as (_ & l & Hl & Hv).
  apply validate_line_valid in Hv as [-> _].
  split; [now apply (strip_line_no_NL target) | apply strip_idem].
Qed.

Lemma seed_appended (records : list str) :
  Forall (fun c => (NL ∉ c) /\ strip c = c) records ->
  list_to_set (C := gset str) (strip <$> file_lines (appended records))
  = list_to_set records.
Proof.
  intros H. rewrite file_lines_appended.
  - f_equal. rewrite <- list_fmap_compose.
    rewrite <- (list_fmap_id records) at 2. apply list_fmap_ext.
    intros i c Hc. unfold compose. rewrite strip_snoc_space by reflexivity.
    eapply Forall_lookup_1 in H as [_ H]; eauto.
  - eapply Forall_impl; [exact H|]. now intros c [? _].
Qed.

Lemma accepted_nil (seen : gset str) (lines : list str) :
  (forall l c, l ∈ lines ->
               validate_line l 0 = (true, "Valid"%string, c) -> c ∈ seen) ->
  accepted seen lines = []
  /\ (forall l c, l ∈ lines ->
                  validate_line l 0 = (true, "Valid"%string, c) ->
                  verdict seen l = Rejected Duplicate).
Proof.
  intros H. split.
  - destruct (accepted seen lines) as [|c cs] eqn:E; [reflexivity|].
    assert (Hc : c ∈ accepted seen lines) by (rewrite E; left).
    apply elem_of_accepted in Hc as (Hn & l & Hl & Hv).
    exfalso. apply Hn. eauto.
  - intros l c Hl Hv. apply verdict_Duplicate.
    destruct (validate_line_valid _ _ _ _ Hv) as [-> Hv0].
    split; [exact Hv0 | eauto].
Qed.

(** C4 as stated fails: with a master file "x:y:z" whose last line
    lacks its newline and the target line "a:b:c", the record is glued
    to that line by the first run, is not found by the preload of the
    second run, and is accepted and appended again. *)
Lemma C4_counterexample :
  let first := (process_files unterminated_files []).1 in
  let second := (process_files (rerun unterminated_files first) []).1 in
  valid_lines first = 1
  /\ master first = Some (py "x:y:za:b:c" ++ [NL])
  /\ valid_lines second = 1
  /\ master second = Some (py "x:y:za:b:c" ++ [NL] ++ py "a:b:c" ++ [NL])
  /\ master second <> master first.
Proof.
  vm_compute. repeat split; discriminate.
Qed.

(** C4 (amended): when the master file is absent, empty or ends with
    a newline before the first run, a second run over the same target
    file against the master file left by the first run accepts no
    record: every valid line of the target is rejected as a duplicate,
    valid_lines is 0, every line is counted as rejected, and the
    master file is left as the first run wrote it. *)
Theorem C4_second_run_accepts_nothing (fs : Files) (target : str) :
  usable fs target ->
  terminated (default [] (master_file fs)) ->
  exists first second,
    process_files fs [] = (first, Returned)
    /\ process_files (rerun fs first) [] = (second, Returned)
    /\ valid_lines second = 0
    /\ rejected_lines second = length (file_lines target)
    /\ master second = master first
    /\ (forall l c, l ∈ file_lines target ->
                    validate_line l 0 = (true, "Valid"%string, c) ->
                    verdict (seed (rerun fs first)) l = Rejected Duplicate).
Proof.
  intros Hu Hterm.
  destruct (complete_run fs target Hu)
    as (first & Hp1 & _ & _ & _ & _ & Hm1 & _).
  assert (Hu2 : usable (rerun fs first) target).
  { destruct Hu as (? & ? & ?). repeat split; assumption. }
  destruct (complete_run (rerun fs first) target Hu2)
    as (second & Hp2 & _ & _ & Hv2 & Hr2 & Hm2 & _).
  set (records := accepted (seed fs) (file_lines target)) in *.
  assert (Hclean : Forall (fun c => (NL ∉ c) /\ strip c = c) records).
  { apply Forall_forall. intros c Hc. exact (record_clean _ _ _ Hc). }
  assert (Hseed : seed (rerun fs first) = seed fs ∪ list_to_set records).
  { unfold seed at 1. cbn [master_file rerun]. rewrite Hm1.
    rewrite seed_app by exact Hterm. rewrite seed_appended by exact Hclean.
    f_equal. unfold seed. now destruct (master_file fs). }
  destruct (accepted_nil (seed (rerun fs first)) (file_lines target))
    as [Hnil Hdup].
  { intros l c Hl Hv. rewrite Hseed.
    destruct (decide (c ∈ seed fs)) as [Hin|Hin];
      [now apply elem_of_union_l|].
    apply elem_of_union_r, elem_of_list_to_set, elem_of_accepted. eauto. }
  exists first, second.
  split; [exact Hp1|]. split; [exact Hp2|].
  split; [rewrite Hv2, Hnil; reflexivity|].
  split.
  { rewrite Hr2.
    pose proof (rejections_length (seed (rerun fs first)) 0
                  (file_lines target)) as Hl.
    rewrite Hnil in Hl. exact Hl. }
  split.
  { rewrite Hm2, Hnil. cbn [master_file rerun]. rewrite Hm1.
    cbn. now rewrite app_nil_r. }
  exact Hdup.
Qed.

Lemma C4_second_run_accepts_nothing_witness :
  usable sample_files sample_target
  /\ terminated (default [] (master_file sample_files))
  /\ exists first second,
       process_files sample_files [] = (first, Returned)
       /\ process_files (rerun sample_files first) [] = (second, Returned)
       /\ valid_lines second = 0
       /\ master second = master first.
Proof.
  assert (Hu : usable sample_files sample_target) by (repeat split).
  assert (Ht : terminated (default [] (master_file sample_files)))
    by (right; reflexivity).
  split; [exact Hu|]. split; [exact Ht|].
  destruct (C4_second_run_accepts_nothing sample_files sample_target Hu Ht)
    as (first & second & H1 & H2 & H3 & _ & H5 & _).
  exists first, second. auto.
Defined.

(** ** C5 *)

(** C5, on the failing path: when the master file is read-only,
    opening it for appending raises after [initialize_logs];
    the handler only emits the error signal, so the three log
    streams are still open when the signal fires and [close_logs] is
    never run.  On the paths that return from the loop, completion
    and stop, the teardown leaves no handle open (here on the sample
    files, in general by [returned_run]). *)
Theorem C5_failed_run_leaves_logs_open (sched : list (list Command)) :
  let r := process_files failing_files sched in
  r.2 = Returned
  /\ trace r.1
     = [Open TargetFile; Close TargetFile;
        Open (LogFile "Not Enough Parts"); Open (LogFile "Empty Line");
        Open (LogFile "Duplicate");
        Open MasterRead; Close MasterRead;
        error_occurred (CannotOpen MasterFd)]
  /\ still_open (trace r.1)
     = [LogFile "Not Enough Parts"; LogFile "Empty Line"; LogFile "Duplicate"]
  /\ is_running r.1 = false
  /\ still_open (trace (process_files sample_files []).1) = []
  /\ still_open (trace (process_files sample_files [[]; []; [Stop]]).1) = [].
Proof. vm_compute. repeat split. Qed.

(** ** C6 *)

Lemma rejected_as_verdict (s : State) (line : str) (reason : string) :
  rejected_as s line reason ->
  exists r, verdict (existing_lines s) line = Rejected r
            /\ reason = reason_name r.
Proof.
  unfold rejected_as, verdict, classify, validate_line.
  case_bool_decide as He.
  - intros ->. exists EmptyLine. auto.
  - destruct (length (split COLON 2 (strip line)) =? 3); cbn [negb].
    + intros [Hin ->]. exists Duplicate. cbn.
      now rewrite decide_True by exact Hin.
    + intros ->. exists NotEnoughParts. auto.
Qed.

(** C6 as stated fails: for the second line of the sample target,
    " x:y " as read, the entry in "Not Enough Parts.txt" is
    "Line 2: x:y": the stripped text, not the text as read (with or
    without its newline). *)
Lemma C6_counterexample :
  let s := (process_files sample_files []).1 in
  file_lines sample_target !! 1 = Some (py " x:y " ++ [NL])
  /\ dict_get "Not Enough Parts" (log_files s)
     = Some (py "Line 2: x:y" ++ [NL])
  /\ dict_get "Not Enough Parts" (log_files s)
     <> Some (py "Line 2: " ++ py " x:y " ++ [NL])
  /\ dict_get "Not Enough Parts" (log_files s)
     <> Some (py "Line 2: " ++ (py " x:y " ++ [NL]) ++ [NL]).
Proof.
  vm_compute. repeat split; discriminate.
Qed.

(** C6 (amended): for every rejected line exactly one entry is
    appended to the log named after its rejection reason
    ("Not Enough Parts.txt", "Empty Line.txt" or "Duplicate.txt") and
    no other log changes; the entry is "Line <n>: <content>" and a
    newline, n being the 1-based number of the line and the content
    the line stripped of leading and trailing whitespace (so the empty
    text for an empty line), not the line as read. *)
Theorem C6_rejection_log_entry (fs : Files) (target : str) (n : nat)
    (s : State) (line : str) (reason : string) :
  boundary fs target n s ->
  rejected_as s line reason ->
  let s' := process_line (n + 1) line s in
  log_file_name reason
    ∈ ["Not Enough Parts.txt"; "Empty Line.txt"; "Duplicate.txt"]%string
  /\ is_Some (dict_get reason (log_files s))
  /\ dict_get reason (log_files s')
     = (fun written =>
          written ++ py "Line " ++ str_of_nat (n + 1) ++ py ": "
                  ++ strip line ++ [NL])
         <$> dict_get reason (log_files s)
  /\ (forall other, other <> reason ->
         dict_get other (log_files s') = dict_get other (log_files s))
  /\ rejected_lines s' = rejected_lines s + 1
  /\ master s' = master s.
Proof.
  intros Hb Hrej s'.
  destruct (rejected_as_verdict _ _ _ Hrej) as (r & Hv & ->).
  destruct (boundary_inv _ _ _ _ Hb) as (_ & _ & _ & _ & Hk).
  pose proof (keys_NoDup s Hk) as Hnd.
  destruct (process_line_spec (n + 1) line s Hnd) as (_ & _ & _ & _ & Pv & _).
  fold s' in Pv. rewrite Hv in Pv. destruct Pv as (_ & V2 & V3 & _ & V5).
  split.
  { destruct r; cbn; rewrite !elem_of_cons; auto. }
  split.
  { destruct (log_files s) as [|[k1 w1] [|[k2 w2] [|[k3 w3] [|? ?]]]];
      try discriminate. injection Hk as -> -> ->. destruct r; cbn; eauto. }
  split.
  { rewrite V3.
    rewrite (dict_get_fmap (reason_name r)
               (fun k w => if String.eqb k (reason_name r)
                           then w ++ log_entry (n + 1) (strip line) else w)).
    now rewrite String.eqb_refl. }
  split.
  { intros other Hne. rewrite V3.
    rewrite (dict_get_fmap other
               (fun k w => if String.eqb k (reason_name r)
                           then w ++ log_entry (n + 1) (strip line) else w)).
    apply String.eqb_neq in Hne. rewrite Hne.
    now destruct (dict_get other (log_files s)). }
  auto.
Qed.

Lemma C6_rejection_log_entry_witness :
  let s := process_line 1 (py "a:b:c" ++ [NL])
             (ready sample_files sample_target) in
  let s' := process_line 2 (py " x:y " ++ [NL]) s in
  boundary sample_files sample_target 1 s
  /\ rejected_as s (py " x:y " ++ [NL]) "Not Enough Parts"
  /\ dict_get "Not Enough Parts" (log_files s')
     = Some (py "Line 2: x:y" ++ [NL]).
Proof.
  cbn zeta.
  assert (Hb : boundary sample_files sample_target 1
                 (process_line 1 (py "a:b:c" ++ [NL])
                    (ready sample_files sample_target))).
  { apply (boundary_line _ _ 0);
      [apply boundary_ready; repeat split
      | reflexivity | reflexivity | reflexivity]. }
  assert (Hr : rejected_as (process_line 1 (py "a:b:c" ++ [NL])
                              (ready sample_files sample_target))
                 (py " x:y " ++ [NL]) "Not Enough Parts")
    by (vm_compute; reflexivity).
  split; [exact Hb|]. split; [exact Hr|].
  destruct (C6_rejection_log_entry sample_files sample_target 1 _ _ _ Hb Hr)
    as (_ & _ & He & _).
  change (1 + 1) with 2 in He. rewrite He. vm_compute. reflexivity.
Defined.

(** ** C7 *)

(** C7: a stop issued after N lines were handled ends the run at that
    line boundary only when the run is not paused.  On the sample
    files, a stop after line 1 ends the run with processed_lines 1
    and the record of line 1 in the master file.  But after a pause
    that the worker has seen, a stop stops nothing, whatever is called
    after it: the worker sleeps in the pause loop with the lock held,
    [stop()] waits for the lock, is_running stays set, [process_files]
    never returns, no terminal signal is emitted and the five handles
    stay open. *)
Theorem C7_stop_while_paused_never_stops (rest : list (list Command)) :
  let stopped := process_files sample_files [[]; [Stop]] in
  let paused := process_files sample_files ([] :: [Pause] :: [Stop] :: rest) in
  (stopped.2 = Returned
   /\ processed_lines stopped.1 = 1
   /\ is_running stopped.1 = false
   /\ master stopped.1 = Some (text_of ["x:y:z"; "a:b:c"]%string)
   /\ still_open (trace stopped.1) = [])
  /\ paused.2 = Hangs
  /\ processed_lines paused.1 = 1
  /\ is_running paused.1 = true
  /\ is_paused paused.1 = true
  /\ master paused.1 = Some (text_of ["x:y:z"; "a:b:c"]%string)
  /\ filter (fun e => terminal e = true) (trace paused.1) = []
  /\ still_open (trace paused.1)
     = (LogFile <$> log_reasons) ++ [MasterFd; TargetFile].
Proof.
  cbn zeta. repeat split; vm_compute; reflexivity.
Qed.

(** ** C8 *)

Import LockProtocol.

(** Once the worker is in the pause loop no step of either thread
    gets it out: the worker keeps the lock, the flags keep their
    values, no call returns and no line is handled. *)
Lemma pause_loop_step (sy : Sys) (t : Thread) :
  in_pause_loop sy ->
  in_pause_loop (step sy t)
  /\ returned (step sy t) = returned sy
  /\ handled (step sy t) = handled sy
  /\ (forall c, cpc sy = CAcquire c -> cpc (step sy t) = CAcquire c).
Proof.
  intros (Hl & Hr & Hp & Hw & Hc).
  destruct sy as [l r p w c cs ret left h]. cbn in *. subst l r p.
  destruct t; unfold step; cbn.
  - destruct Hw as [-> | ->]; cbn; repeat split; auto.
  - destruct c as [| c | c]; cbn.
    + destruct cs as [|c0 cs]; cbn; repeat split; auto; discriminate.
    + repeat split; auto.
    + exfalso. now apply (Hc c).
Qed.

Lemma pause_loop_is_forever (ts : list Thread) (sy : Sys) :
  in_pause_loop sy ->
  in_pause_loop (run ts sy)
  /\ returned (run ts sy) = returned sy
  /\ handled (run ts sy) = handled sy
  /\ (forall c, cpc sy = CAcquire c -> cpc (run ts sy) = CAcquire c).
Proof.
  revert sy. induction ts as [|t ts IH]; intros sy H.
  - cbn. auto.
  - destruct (pause_loop_step sy t H) as (H1 & H2 & H3 & H4).
    destruct (IH (step sy t) H1) as (I1 & I2 & I3 & I4).
    unfold run in *. cbn [foldl].
    split; [exact I1|]. split; [congruence|]. split; [congruence|].
    intros c Hc. apply I4, H4, Hc.
Qed.

(** The flags are all the commands assign, and assigning twice is
    assigning once. *)
Lemma commands_idempotent (c : Command) (s : State) :
  execute (execute s c) c = execute s c /\ same_data s (execute s c).
Proof. destruct c; split; try reflexivity; repeat split. Qed.

(** C8, on a run that is paused: with two lines to read, [pause()]
    called while the first line is handled and [resume()] called once
    the worker has seen the pause, the worker sleeps in the pause loop
    with the lock held; from then on, whatever the scheduler does,
    [resume()] stays blocked on the lock and never returns, the flag
    is_paused stays set, and the worker handles no further line and
    never reaches the end of the loop.  In terms of [process_files]:
    the run with a pause seen at the second line hangs after one
    line, while the run without commands returns after all five. *)
Theorem C8_resume_blocks_while_paused :
  let ts0 := [Worker; Worker; Worker; Worker;
              Controller; Controller; Controller;
              Worker; Worker; Worker; Worker; Worker;
              Controller] in
  let sys_p := run ts0 (start 2 [Pause; Resume]) in
  (in_pause_loop sys_p
   /\ cpc sys_p = CAcquire Resume /\ returned sys_p = 1 /\ handled sys_p = 1)
  /\ (forall ts : list Thread,
        let sy := run ts sys_p in
        cpc sy = CAcquire Resume
        /\ returned sy = 1
        /\ handled sy = 1
        /\ paused sy = true
        /\ lock sy = Some Worker
        /\ wpc sy <> WAfterLoop)
  /\ (let paused_run := process_files sample_files [[]; [Pause]; [Resume]] in
      let plain_run := process_files sample_files [] in
      paused_run.2 = Hangs
      /\ processed_lines paused_run.1 = 1
      /\ plain_run.2 = Returned
      /\ processed_lines plain_run.1 = 5).
Proof.
  cbn zeta.
  set (sys_p := run _ (start 2 [Pause; Resume])).
  assert (Hin : in_pause_loop sys_p).
  { vm_compute. repeat split; auto; discriminate. }
  split; [|split].
  - split; [exact Hin|]. repeat split.
  - intros ts.
    destruct (pause_loop_is_forever ts sys_p Hin)
      as ((Hl & _ & Hp & Hw & _) & Hr & Hh & Hc).
    split; [apply Hc; reflexivity|].
    split; [rewrite Hr; reflexivity|].
    split; [rewrite Hh; reflexivity|].
    split; [exact Hp|]. split; [exact Hl|].
    destruct Hw as [-> | ->]; discriminate.
  - vm_compute. repeat split.
Qed.

(** ** C9 *)

(** C9: after a line is handled a progress snapshot is emitted exactly
    when processed_lines mod 100 = 0 or processed_lines = total_lines,
    and it carries the counters as they are then; a run that ends by
    completion or by a stop emits, after the loop, a final snapshot
    with the final counters, followed by the completion signal,
    whatever the final count of processed lines. *)
Theorem C9_progress_snapshots (fs : Files) (target : str) (n : nat)
    (s : State) (line : str) (sched : list (list Command)) (s_end : State) :
  boundary fs target n s ->
  usable fs target ->
  process_files fs sched = (s_end, Returned) ->
  let s' := process_line (n + 1) line s in
  processed_lines s' = n + 1
  /\ trace s'
     = trace s
       ++ (if (processed_lines s' mod 100 =? 0)
              || (processed_lines s' =? total_lines s')
           then [update_progress (total_lines s') (processed_lines s')
                   (valid_lines s') (rejected_lines s')]
           else [])
  /\ exists before,
       trace s_end
       = before ++ [update_progress (total_lines s_end)
                      (processed_lines s_end) (valid_lines s_end)
                      (rejected_lines s_end);
                    processing_complete].
Proof.
  intros Hb Hu Hp s'.
  destruct (boundary_inv _ _ _ _ Hb) as (_ & _ & _ & _ & Hk).
  pose proof (keys_NoDup s Hk) as Hnd.
  destruct (process_line_spec (n + 1) line s Hnd)
    as (_ & _ & P3 & P4 & _ & Pt).
  fold s' in P3, P4, Pt.
  split; [exact P4|]. split.
  - rewrite Pt, P4, P3. reflexivity.
  - destruct (process_files_returned fs target sched s_end Hu Hp)
      as (s0 & x & _ & _ & _ & ->).
    exists (trace s0 ++ [Close TargetFile; Close MasterFd]
              ++ (Close ∘ LogFile <$> log_reasons)).
    cbn. rewrite <- !app_assoc. reflexivity.
Qed.

Lemma C9_progress_snapshots_witness :
  let sched := [[]; []; [Stop]] in
  let s_end := (process_files sample_files sched).1 in
  boundary sample_files sample_target 0 (ready sample_files sample_target)
  /\ usable sample_files sample_target
  /\ process_files sample_files sched = (s_end, Returned)
  /\ processed_lines s_end = 2
  /\ total_lines s_end = 5
  /\ exists before,
       trace s_end
       = before ++ [update_progress 5 2 1 1; processing_complete].
Proof.
  cbn zeta.
  assert (Hb : boundary sample_files sample_target 0
                 (ready sample_files sample_target))
    by (apply boundary_ready; repeat split).
  assert (Hu : usable sample_files sample_target) by (repeat split).
  assert (Hp : process_files sample_files [[]; []; [Stop]]
               = ((process_files sample_files [[]; []; [Stop]]).1, Returned))
    by (vm_compute; reflexivity).
  destruct (C9_progress_snapshots sample_files sample_target 0 _
              (py "a:b:c" ++ [NL]) [[]; []; [Stop]] _ Hb Hu Hp)
    as (_ & _ & before & Ht).
  split; [exact Hb|]. split; [exact Hu|]. split; [exact Hp|].
  split; [vm_compute; reflexivity|]. split; [vm_compute; reflexivity|].
  exists before. rewrite Ht. f_equal.
Defined.

(** ** C10 *)

Lemma file_lines_open_line (l : str) :
  l <> [] -> NL ∉ l -> file_lines l = [l].
Proof.
  induction l as [|c l IH]; intros Hne Hnl; [congruence|]. simpl.
  destruct (c =? NL)%N eqn:E.
  - apply N.eqb_eq in E. subst c. exfalso. apply Hnl. left.
  - destruct l as [|d l]; [reflexivity|].
    rewrite IH; [reflexivity | discriminate |].
    intros H. apply Hnl. now right.
Qed.

(** A text that does not end with a newline: complete lines, then an
    open last line. *)
Lemma unterminated_split (text : str) :
  ~ terminated text ->
  exists pre open_line,
    text = pre ++ open_line /\ terminated pre
    /\ open_line <> [] /\ NL ∉ open_line.
Proof.
  induction text as [|c text IH]; intros Hn.
  - exfalso. apply Hn. now left.
  - destruct text as [|d text].
    + exists [], [c]. split; [reflexivity|]. split; [now left|].
      split; [discriminate|]. intros H. apply list_elem_of_singleton in H.
      subst c. apply Hn. now right.
    + destruct IH as (pre & ol & Ht & Hpre & Hol & Hnl).
      { intros [H|H]; [discriminate|]. apply Hn. right. exact H. }
      destruct pre as [|p pre].
      * destruct (decide (c = NL)) as [->|Hc].
        -- exists [NL], ol. cbn in Ht. rewrite Ht.
           split; [reflexivity|]. split; [now right|]. auto.
        -- exists [], (c :: ol). cbn in Ht. rewrite Ht.
           split; [reflexivity|]. split; [now left|].
           split; [discriminate|].
           intros H. apply elem_of_cons in H as [H|H]; auto.
      * exists (c :: p :: pre), ol. rewrite Ht.
        split; [reflexivity|]. split; [|auto].
        right. destruct Hpre as [H|H]; [discriminate|]. exact H.
Qed.

Lemma record_clean_in (seen : gset str) (target : str) (ls : list str)
    (c : str) :
  (forall l, l ∈ ls -> l ∈ file_lines target) ->
  c ∈ accepted seen ls -> (NL ∉ c) /\ strip c = c.
Proof.
  intros Hsub H. apply elem_of_accepted in H as (_ & l & Hl & Hv).
  apply validate_line_valid in Hv as [-> _].
  split; [apply (strip_line_no_NL target), Hsub, Hl | apply strip_idem].
Qed.

Lemma elem_of_take_lines (ls : list str) (k : nat) (l : str) :
  l ∈ take k ls -> l ∈ ls.
Proof.
  intros H. apply list_elem_of_lookup in H as [i Hi].
  apply lookup_take_Some in Hi as [Hi _].
  apply list_elem_of_lookup. eauto.
Qed.

(** C10: an accepted record is written as the record and one newline,
    at the end of the master file.  So when the master file exists, is
    not empty and does not end with a newline, the first record a
    run accepts continues the last line of the master file: that line
    and the record make one physical line of the resulting file, and
    the line count grows by one less than the number of accepted
    records.  This holds for every run that accepts a record, whatever
    the commands: completed, stopped, or hung in the pause loop; the
    run without commands handles every line. *)
Theorem C10_unterminated_master (fs : Files) (target master0 : str)
    (sched : list (list Command)) (first : str) (others : list str) :
  usable fs target ->
  master_file fs = Some master0 ->
  ~ terminated master0 ->
  let s_end := (process_files fs sched).1 in
  accepted (seed fs) (take (processed_lines s_end) (file_lines target))
  = first :: others ->
  (exists pre open_line,
    master s_end
    = Some (master0 ++ first ++ [NL] ++ appended others)
    /\ master0 = pre ++ open_line
    /\ open_line <> []
    /\ file_lines master0 = file_lines pre ++ [open_line]
    /\ file_lines (default [] (master s_end))
       = file_lines pre ++ [open_line ++ first ++ [NL]]
         ++ ((fun r => r ++ [NL]) <$> others)
    /\ length (file_lines (default [] (master s_end)))
       = length (file_lines master0) + length others)
  /\ exists s_full,
       process_files fs [] = (s_full, Returned)
       /\ processed_lines s_full = length (file_lines target).
Proof.
  intros Hu Hm Hn s_end Hacc.
  destruct (run_data fs target sched Hu) as (_ & _ & _ & Hm1 & _).
  cbn zeta in Hm1. fold s_end in Hm1.
  rewrite Hacc, Hm, appended_cons in Hm1. cbn [default from_option id] in Hm1.
  split.
  2: { destruct (complete_run fs target Hu) as (s_full & Hp & _ & Hl & _).
       exists s_full. auto. }
  destruct (unterminated_split master0 Hn) as (pre & ol & Ht & Hpre & Hol & Hnl).
  assert (Hsub : forall l,
             l ∈ take (processed_lines s_end) (file_lines target) ->
             l ∈ file_lines target)
    by (intros l; apply elem_of_take_lines).
  assert (Hclean : (NL ∉ first) /\ Forall (fun c => NL ∉ c) others).
  { split.
    - apply (record_clean_in (seed fs) target
               (take (processed_lines s_end) (file_lines target)) first Hsub).
      rewrite Hacc. left.
    - apply Forall_forall. intros c Hc.
      apply (record_clean_in (seed fs) target
               (take (processed_lines s_end) (file_lines target)) c Hsub).
      rewrite Hacc. now right. }
  destruct Hclean as [Hf Ho].
  assert (H0 : file_lines master0 = file_lines pre ++ [ol]).
  { rewrite Ht, file_lines_app_terminated by exact Hpre.
    now rewrite (file_lines_open_line ol) by assumption. }
  assert (H1 : file_lines (master0 ++ first ++ NL :: appended others)
               = file_lines pre ++ [ol ++ first ++ [NL]]
                 ++ ((fun r => r ++ [NL]) <$> others)).
  { rewrite Ht, <- app_assoc, file_lines_app_terminated by exact Hpre.
    f_equal. rewrite app_assoc, file_lines_line.
    - rewrite file_lines_appended by exact Ho.
      now rewrite <- app_assoc.
    - intros H. apply elem_of_app in H as [H|H]; auto. }
  exists pre, ol.
  split; [exact Hm1|]. split; [exact Ht|].
  split; [exact Hol|]. split; [exact H0|].
  rewrite Hm1. cbn [default from_option id app]. rewrite H1.
  split; [reflexivity|].
  rewrite H0, !length_app, length_fmap. cbn. lia.
Qed.

Lemma C10_unterminated_master_witness :
  let fs := {| target_file := Some sample_target;
               master_file := Some (py "x:y:z");
               master_appendable := true;
               logs_folder := true;
               log_openable := fun _ => true |} in
  let stopped := (process_files fs [[]; [Stop]]).1 in
  let hung := process_files fs [[]; [Pause]] in
  usable fs sample_target
  /\ master_file fs = Some (py "x:y:z")
  /\ ~ terminated (py "x:y:z")
  /\ accepted (seed fs) (take (processed_lines stopped)
                           (file_lines sample_target)) = [py "a:b:c"]
  /\ accepted (seed fs) (take (processed_lines hung.1)
                           (file_lines sample_target)) = [py "a:b:c"]
  /\ file_lines (default [] (master stopped)) = [py "x:y:za:b:c" ++ [NL]]
  /\ hung.2 = Hangs
  /\ file_lines (default [] (master hung.1)) = [py "x:y:za:b:c" ++ [NL]].
Proof.
  cbn zeta.
  set (fs := {| target_file := Some sample_target;
                master_file := Some (py "x:y:z");
                master_appendable := true;
                logs_folder := true;
                log_openable := fun _ => true |}).
  assert (Hu : usable fs sample_target) by (repeat split).
  assert (Hm : master_file fs = Some (py "x:y:z")) by reflexivity.
  assert (Hn : ~ terminated (py "x:y:z"))
    by (intros [H|H]; vm_compute in H; discriminate).
  assert (Ha : accepted (seed fs)
                 (take (processed_lines (process_files fs [[]; [Stop]]).1)
                    (file_lines sample_target)) = [py "a:b:c"])
    by (vm_compute; reflexivity).
  assert (Hb : accepted (seed fs)
                 (take (processed_lines (process_files fs [[]; [Pause]]).1)
                    (file_lines sample_target)) = [py "a:b:c"])
    by (vm_compute; reflexivity).
  split; [exact Hu|]. split; [exact Hm|]. split; [exact Hn|].
  split; [exact Ha|]. split; [exact Hb|].
  destruct (C10_unterminated_master fs _ _ [[]; [Stop]] _ _ Hu Hm Hn Ha)
    as ((pre & ol & Hmaster & _) & _).
  destruct (C10_unterminated_master fs _ _ [[]; [Pause]] _ _ Hu Hm Hn Hb)
    as ((pre' & ol' & Hmaster' & _) & _).
  split; [rewrite Hmaster; vm_compute; reflexivity|].
  split; [vm_compute; reflexivity|].
  rewrite Hmaster'. vm_compute. reflexivity.
Defined.

(** * Further properties of the engine *)

(** ** Any schedule handles a prefix of the target *)

(** X1: whatever commands arrive and whenever, a run that gets past
    its setup handles exactly the first processed_lines lines of the
    target file, in order, none skipped and none twice: the counters,
    the master file, the index and the three logs it ends with are
    those of the plain pass over that prefix.  This holds for runs
    that complete, are stopped, or hang in the pause loop. *)
Theorem X1_any_run_handles_a_prefix (fs : Files) (target : str)
    (sched : list (list Command)) :
  usable fs target ->
  let s := (process_files fs sched).1 in
  let handled := take (processed_lines s) (file_lines target) in
  processed_lines s <= length (file_lines target)
  /\ valid_lines s = length (accepted (seed fs) handled)
  /\ rejected_lines s = length (rejections (seed fs) 0 handled)
  /\ master s
     = Some (default [] (master_file fs)
             ++ appended (accepted (seed fs) handled))
  /\ existing_lines s = list_to_set (accepted (seed fs) handled) ∪ seed fs
  /\ log_files s
     = (fun reason =>
          (reason, log_text reason (rejections (seed fs) 0 handled)))
         <$> log_reasons.
Proof. exact (run_data fs target sched). Qed.

Lemma X1_any_run_handles_a_prefix_witness :
  let sched := [[]; [Pause; Resume]; [Pause]] in
  let s := (process_files sample_files sched).1 in
  usable sample_files sample_target
  /\ processed_lines s = 2
  /\ master s = Some (text_of ["x:y:z"; "a:b:c"]%string).
Proof.
  cbn zeta.
  assert (Hu : usable sample_files sample_target) by (repeat split).
  split; [exact Hu|].
  destruct (X1_any_run_handles_a_prefix sample_files sample_target
              [[]; [Pause; Resume]; [Pause]] Hu) as (_ & _ & _ & Hm & _).
  split; [vm_compute; reflexivity|].
  rewrite Hm. vm_compute. reflexivity.
Defined.

(** ** The master file is only ever appended to *)

(** X2: an existing master file is never truncated or rewritten.
    Whatever the other files, the commands and the outcome of the run
    (completed, stopped, hung or failed), the master file ends as its
    previous content followed by newline-terminated records; these
    records are pairwise distinct and none of them was a stripped
    line of the master file when the run started. *)
Theorem X2_master_append_only (fs : Files) (sched : list (list Command))
    (old : str) :
  master_file fs = Some old ->
  exists records,
    master (process_files fs sched).1 = Some (old ++ appended records)
    /\ NoDup records
    /\ Forall (fun c => c ∉ seed fs) records.
Proof.
  intros Hm.
  destruct (target_file fs) as [target|] eqn:Et;
    [destruct (master_appendable fs) eqn:Ea;
     [destruct (logs_creatable fs) eqn:El|]|].
  - assert (Hu : usable fs target) by (repeat split; assumption).
    destruct (run_data fs target sched Hu) as (_ & _ & _ & Hmaster & _).
    eexists. split; [rewrite Hmaster, Hm; reflexivity|].
    split; [apply accepted_NoDup|].
    apply Forall_forall. intros c Hc. now apply elem_of_accepted in Hc.
  - destruct (process_files_unusable fs sched) as (s & e & -> & _ & _ & _ & H & _).
    { intros t (_ & _ & Hl). congruence. }
    exists []. cbn [fst]. rewrite H, Hm. unfold appended. cbn.
    rewrite app_nil_r. repeat split; constructor.
  - destruct (process_files_unusable fs sched) as (s & e & -> & _ & _ & _ & H & _).
    { intros t (_ & Ha & _). congruence. }
    exists []. cbn [fst]. rewrite H, Hm. unfold appended. cbn.
    rewrite app_nil_r. repeat split; constructor.
  - destruct (process_files_unusable fs sched) as (s & e & -> & _ & _ & _ & H & _).
    { intros t (Ht & _). congruence. }
    exists []. cbn [fst]. rewrite H, Hm. unfold appended. cbn.
    rewrite app_nil_r. repeat split; constructor.
Qed.

Lemma X2_master_append_only_witness :
  master_file sample_files = Some (text_of ["x:y:z"]%string)
  /\ master (process_files sample_files [[]; [Pause; Resume]]).1
     = Some (text_of ["x:y:z"; "a:b:c"; "q:r:s:t"]%string)
  /\ exists records,
       master (process_files sample_files [[]; [Pause; Resume]]).1
       = Some (text_of ["x:y:z"]%string ++ appended records)
       /\ records <> []
       /\ NoDup records
       /\ Forall (fun c => c ∉ seed sample_files) records.
Proof.
  assert (Hm : master_file sample_files = Some (text_of ["x:y:z"]%string))
    by reflexivity.
  split; [exact Hm|]. split; [vm_compute; reflexivity|].
  destruct (X2_master_append_only sample_files [[]; [Pause; Resume]] _ Hm)
    as (records & H & Hnd & Hnew).
  exists records. split; [exact H|]. split; [|split; assumption].
  intros ->. vm_compute in H. discriminate.
Defined.

(** ** The index and the master file agree; interrupted runs resume *)

Lemma appended_app (rs rs' : list str) :
  appended (rs ++ rs') = appended rs ++ appended rs'.
Proof. unfold appended. now rewrite fmap_app, concat_app. Qed.

Lemma accepted_app (seen : gset str) (a b : list str) :
  accepted seen (a ++ b)
  = accepted seen a ++ accepted (list_to_set (accepted seen a) ∪ seen) b.
Proof.
  revert seen. induction a as [|line a IH]; intros seen; cbn [accepted app].
  - now rewrite list_to_set_nil, union_empty_l_L.
  - destruct (verdict seen line) as [c|r]; [|apply IH].
    rewrite IH, list_to_set_cons. cbn [app]. do 3 f_equal.
    symmetry. apply union_shift.
Qed.

(** The preload of a master file that a run has extended. *)
Lemma seed_extended (fs : Files) (target : str) (k : nat) :
  terminated (default [] (master_file fs)) ->
  list_to_set (C := gset str)
    (strip <$> file_lines
       (default [] (master_file fs)
        ++ appended (accepted (seed fs) (take k (file_lines target)))))
  = list_to_set (accepted (seed fs) (take k (file_lines target))) ∪ seed fs.
Proof.
  intros Hterm. rewrite seed_app by exact Hterm.
  rewrite seed_appended.
  - rewrite union_comm_L. f_equal. unfold seed.
    now destruct (master_file fs).
  - apply Forall_forall. intros c Hc.
    apply (record_clean_in (seed fs) target
             (take k (file_lines target)) c); [|exact Hc].
    intros l. apply elem_of_take_lines.
Qed.

(** X3: the index never drifts from the file.  When the master file
    is absent, empty or ends with a newline at the start, then at the
    end of any run (whatever the commands) the index held in memory is
    exactly what a fresh preload of the master file on disk gives: the
    set of its stripped lines. *)
Theorem X3_index_matches_master (fs : Files) (target : str)
    (sched : list (list Command)) :
  usable fs target ->
  terminated (default [] (master_file fs)) ->
  let s := (process_files fs sched).1 in
  existing_lines s
  = list_to_set (strip <$> file_lines (default [] (master s))).
Proof.
  intros Hu Hterm.
  destruct (run_data fs target sched Hu) as (_ & _ & _ & Hm & He & _).
  cbn zeta. rewrite He, Hm. cbn [default from_option id].
  symmetry. now apply seed_extended.
Qed.

Lemma X3_index_matches_master_witness :
  let s := (process_files sample_files [[]; []; []; [Stop]]).1 in
  usable sample_files sample_target
  /\ terminated (default [] (master_file sample_files))
  /\ existing_lines s
     = list_to_set (strip <$> file_lines (default [] (master s))).
Proof.
  cbn zeta.
  assert (Hu : usable sample_files sample_target) by (repeat split).
  assert (Ht : terminated (default [] (master_file sample_files)))
    by (right; reflexivity).
  split; [exact Hu|]. split; [exact Ht|].
  exact (X3_index_matches_master sample_files sample_target
           [[]; []; []; [Stop]] Hu Ht).
Defined.

(** X4: an interrupted run can be resumed by running again.  When the
    master file is absent, empty or ends with a newline at the start,
    a first run cut short by any commands (stopped, or hung in the
    pause loop and killed: every record is flushed as it is written),
    followed by a full run over the same target file against the
    master file the first run left, gives the master file of a single
    uninterrupted run, and the two runs together accept as many
    records as the single one. *)
Theorem X4_rerun_completes_interrupted_run (fs : Files) (target : str)
    (sched : list (list Command)) :
  usable fs target ->
  terminated (default [] (master_file fs)) ->
  let first := (process_files fs sched).1 in
  let second := (process_files (rerun fs first) []).1 in
  let whole := (process_files fs []).1 in
  master second = master whole
  /\ valid_lines first + valid_lines second = valid_lines whole.
Proof.
  intros Hu Hterm.
  destruct (run_data fs target sched Hu) as (_ & Hv1 & _ & Hm1 & _).
  set (first := (process_files fs sched).1) in *.
  set (p := processed_lines first) in *.
  set (acc1 := accepted (seed fs) (take p (file_lines target))) in *.
  assert (Hu2 : usable (rerun fs first) target).
  { destruct Hu as (? & ? & ?). repeat split; assumption. }
  destruct (complete_run (rerun fs first) target Hu2)
    as (second & Hp2 & _ & _ & Hv2 & _ & Hm2 & _).
  destruct (complete_run fs target Hu)
    as (whole & Hpw & _ & _ & Hvw & _ & Hmw & _).
  assert (Hseed : seed (rerun fs first) = list_to_set acc1 ∪ seed fs).
  { unfold seed at 1. cbn [master_file rerun]. rewrite Hm1.
    now apply seed_extended. }
  assert (Hsplit : accepted (seed fs) (file_lines target)
                   = acc1 ++ accepted (seed (rerun fs first))
                               (file_lines target)).
  { rewrite <- (take_drop p (file_lines target)) at 1 2.
    rewrite !accepted_app. fold acc1.
    destruct (accepted_nil (seed (rerun fs first))
                (take p (file_lines target))) as [Hnil _].
    { intros l c Hl Hv. rewrite Hseed.
      destruct (decide (c ∈ seed fs)) as [Hin|Hin];
        [now apply elem_of_union_r|].
      apply elem_of_union_l, elem_of_list_to_set, elem_of_accepted. eauto. }
    rewrite Hnil, list_to_set_nil, union_empty_l_L, Hseed. reflexivity. }
  cbn zeta. rewrite Hp2, Hpw. cbn [fst].
  split.
  - rewrite Hm2, Hmw. cbn [master_file rerun]. rewrite Hm1.
    cbn [default from_option id]. rewrite Hsplit, appended_app, app_assoc.
    reflexivity.
  - rewrite Hv1, Hv2, Hvw, Hsplit, length_app. reflexivity.
Qed.

Lemma X4_rerun_completes_interrupted_run_witness :
  let first := (process_files sample_files [[]; [Stop]]).1 in
  let second := (process_files (rerun sample_files first) []).1 in
  let whole := (process_files sample_files []).1 in
  usable sample_files sample_target
  /\ terminated (default [] (master_file sample_files))
  /\ processed_lines first = 1
  /\ master second = master whole.
Proof.
  cbn zeta.
  assert (Hu : usable sample_files sample_target) by (repeat split).
  assert (Ht : terminated (default [] (master_file sample_files)))
    by (right; reflexivity).
  split; [exact Hu|]. split; [exact Ht|].
  split; [vm_compute; reflexivity|].
  exact (proj1 (X4_rerun_completes_interrupted_run sample_files sample_target
                  [[]; [Stop]] Hu Ht)).
Defined.

(** ** More on [validate_line] *)

(** X5: validation is idempotent on its own output.  The clean line
    of a valid line is itself a valid line with the same clean line,
    with or without a newline after it: every record the engine
    writes to the master file would be accepted if read back as a
    target line. *)
Theorem X5_clean_line_revalidates (line : str) (n m : nat) (c : str) :
  validate_line line n = (true, "Valid"%string, c) ->
  validate_line c m = (true, "Valid"%string, c)
  /\ validate_line (c ++ [NL]) m = (true, "Valid"%string, c).
Proof.
  intros Hv. destruct (validate_line_valid _ _ _ _ Hv) as [-> Hv0].
  assert (H1 : validate_line (strip line) m
               = (true, "Valid"%string, strip line)).
  { unfold validate_line in *. rewrite strip_idem. exact Hv0. }
  split; [exact H1|].
  unfold validate_line in *. rewrite strip_snoc_space by reflexivity.
  exact H1.
Qed.

Lemma X5_clean_line_revalidates_witness :
  validate_line (py "  a:b:c:d " ++ [NL]) 7
  = (true, "Valid"%string, py "a:b:c:d")
  /\ validate_line (py "a:b:c:d" ++ [NL]) 1
     = (true, "Valid"%string, py "a:b:c:d").
Proof.
  assert (Hv : validate_line (py "  a:b:c:d " ++ [NL]) 7
               = (true, "Valid"%string, py "a:b:c:d")) by reflexivity.
  split; [exact Hv|].
  exact (proj2 (X5_clean_line_revalidates _ 7 1 _ Hv)).
Defined.

Lemma filter_colon_none (s : str) :
  COLON ∉ s -> filter (fun x => x = COLON) s = [].
Proof.
  induction s as [|c s IH]; intros H; [reflexivity|].
  apply not_elem_of_cons in H as [Hne Hs].
  rewrite filter_cons, decide_False by congruence. auto.
Qed.

Lemma count_colons_cut (a post : str) :
  COLON ∉ a ->
  length (filter (fun x => x = COLON) (a ++ COLON :: post))
  = S (length (filter (fun x => x = COLON) post)).
Proof.
  intros Ha. rewrite filter_app, filter_colon_none by exact Ha.
  rewrite filter_cons, decide_True by reflexivity. reflexivity.
Qed.

(** X6: a line is valid exactly when its stripped text holds at least
    two colons.  Nothing else is looked at: the three fields may be
    empty ("::" is valid), and further colons belong to the third
    field. *)
Theorem X6_valid_iff_two_colons (line : str) (n : nat) :
  (validate_line line n).1.1 = true
  <-> 2 <= length (filter (fun x => x = COLON) (strip line)).
Proof.
  unfold validate_line. case_bool_decide as He.
  - rewrite He. cbn. split; [discriminate | lia].
  - destruct (length (split COLON 2 (strip line)) =? 3) eqn:E; cbn [negb fst].
    + apply Nat.eqb_eq, split_three in E as (a & b & c & -> & Ha & Hb & _).
      rewrite count_colons_cut, count_colons_cut by assumption.
      split; [lia | reflexivity].
    + apply Nat.eqb_neq in E. split; [discriminate|]. intros Hc.
      exfalso. apply E. clear E He. cbn [split].
      pose proof (cut_spec COLON (strip line)) as H1.
      destruct (cut COLON (strip line)) as [[a post]|].
      * destruct H1 as [H1 Ha]. rewrite H1, count_colons_cut in Hc
          by exact Ha.
        pose proof (cut_spec COLON post) as H2.
        destruct (cut COLON post) as [[b c]|]; [reflexivity|].
        rewrite filter_colon_none in Hc by exact H2. cbn in Hc. lia.
      * rewrite filter_colon_none in Hc by exact H1. cbn in Hc. lia.
Qed.

(** X7: the clean line is the line with whitespace removed at its two
    ends and nowhere else: the line is whitespace, then the clean
    line, then whitespace, and the clean line neither starts nor ends
    with a whitespace character (inner blanks are kept). *)
Theorem X7_clean_line_shape (line : str) (n : nat) :
  let clean := (validate_line line n).2 in
  (exists before after,
      line = before ++ clean ++ after
      /\ Forall (fun c => isspace c = true) before
      /\ Forall (fun c => isspace c = true) after)
  /\ isspace <$> head clean <> Some true
  /\ isspace <$> last clean <> Some true.
Proof.
  assert (Hc : (validate_line line n).2 = strip line).
  { unfold validate_line. case_bool_decide; [reflexivity|].
    now destruct (negb _). }
  cbn zeta. rewrite Hc. clear Hc. split; [|split].
  - destruct (lstrip_parts line) as (a & Hl & Ha).
    destruct (rstrip_parts (lstrip line)) as (b & Hr & Hb).
    exists a, b. split; [|auto]. unfold strip. now rewrite <- Hr.
  - unfold strip. destruct (lstrip line) as [|c t] eqn:E; [discriminate|].
    pose proof (lstrip_head _ _ _ E) as Hs.
    destruct (rstrip_head c t Hs) as [t' ->]. cbn. congruence.
  - unfold strip, rstrip. rewrite last_rev_head.
    destruct (lstrip (rev (lstrip line))) as [|c t] eqn:E; [discriminate|].
    apply lstrip_head in E. cbn. congruence.
Qed.

(** ** Failed setups, signals and snapshots *)

(** What a run does when its setup raises. *)
Lemma failed_setup (fs : Files)
    (sched : list (list Command)) :
  target_file fs = None \/ logs_creatable fs = false
  \/ master_appendable fs = false ->
  let r := process_files fs sched in
  r.2 = Returned
  /\ master r.1 = master_file fs
  /\ processed_lines r.1 = 0 /\ valid_lines r.1 = 0 /\ rejected_lines r.1 = 0
  /\ Forall (fun kw => kw.2 = []) (log_files r.1)
  /\ (exists e before,
        trace r.1 = before ++ [error_occurred e]
        /\ Forall (fun ev => is_signal ev = false) before)
  /\ still_open (trace r.1) = leaked fs
  /\ (target_file fs = None \/ logs_folder fs = false ->
      still_open (trace r.1) = []).
Proof.
  intros H. destruct fs as [[t|] m a l lo];
    unfold logs_creatable in H; cbn in H;
    unfold process_files, try_block, setup, init, open_target,
      initialize_logs, open_log, preload, open_master, leaked;
    cbn.
  - destruct l; cbn.
    + destruct (lo "Not Enough Parts"%string) eqn:E1; cbn;
        [destruct (lo "Empty Line"%string) eqn:E2; cbn;
         [destruct (lo "Duplicate"%string) eqn:E3; cbn|]|].
      * destruct a; [destruct H as [H|[H|H]]; discriminate|].
        destruct m; cbn;
          (repeat split; try (repeat constructor);
           [do 2 eexists; split; [reflexivity|]; repeat constructor
           |intros [?|?]; discriminate]).
      * repeat split; try (repeat constructor);
          [do 2 eexists; split; [reflexivity|]; repeat constructor
          |intros [?|?]; discriminate].
      * repeat split; try (repeat constructor);
          [do 2 eexists; split; [reflexivity|]; repeat constructor
          |intros [?|?]; discriminate].
      * repeat split; try (repeat constructor).
        do 2 eexists. split; [reflexivity|]. repeat constructor.
    + repeat split; try (repeat constructor).
      do 2 eexists. split; [reflexivity|]. repeat constructor.
  - repeat split; try (repeat constructor).
    exists (CannotOpen TargetFile), []. split; [reflexivity|]. constructor.
Qed.


Lemma error_trace_terminal (before : list Event) (e : Error) :
  Forall (fun ev => is_signal ev = false) before ->
  length (filter (fun ev => terminal ev = true)
            (before ++ [error_occurred e])) = 1
  /\ terminal <$> last (before ++ [error_occurred e]) = Some true.
Proof.
  intros H. rewrite filter_app, last_app. split; [|reflexivity].
  assert (H0 : filter (fun ev => terminal ev = true) before = []).
  { induction H as [|ev evs Hev _ IH]; [reflexivity|].
    rewrite filter_cons, IH. destruct ev; try discriminate;
      now rewrite decide_False by discriminate. }
  now rewrite H0.
Qed.

Lemma error_trace_snapshots (T : nat) (before : list Event) (e : Error) :
  Forall (fun ev => is_signal ev = false) before ->
  Forall (snapshot_ok T) (before ++ [error_occurred e]).
Proof.
  intros H. apply Forall_app. split; [|repeat constructor].
  eapply Forall_impl; [exact H|]. intros ev Hev.
  destruct ev; try discriminate; exact I.
Qed.

(** X8: a run one of whose files cannot be opened changes nothing,
    but may leave logs open.  It returns after a single error signal,
    its last event; before it no snapshot and no completion signal is
    emitted, no line is handled, nothing is written to a log and the
    master file is left as it was (it is not even created).  The
    error path closes nothing: the logs opened before the open that
    raised stay open.  When the target file or the logs folder is the
    cause, no log was opened yet and no handle is left open. *)
Theorem X8_failed_setup_changes_nothing (fs : Files)
    (sched : list (list Command)) :
  target_file fs = None \/ logs_creatable fs = false
  \/ master_appendable fs = false ->
  let r := process_files fs sched in
  r.2 = Returned
  /\ master r.1 = master_file fs
  /\ processed_lines r.1 = 0 /\ valid_lines r.1 = 0 /\ rejected_lines r.1 = 0
  /\ Forall (fun kw => kw.2 = []) (log_files r.1)
  /\ (exists e before,
        trace r.1 = before ++ [error_occurred e]
        /\ Forall (fun ev => is_signal ev = false) before)
  /\ still_open (trace r.1) = leaked fs
  /\ (target_file fs = None \/ logs_folder fs = false ->
      still_open (trace r.1) = []).
Proof. exact (failed_setup fs sched). Qed.

Lemma X8_failed_setup_changes_nothing_witness :
  let fs := {| target_file := Some (text_of ["a:b:c"]%string);
               master_file := Some (text_of ["x:y:z"]%string);
               master_appendable := true;
               logs_folder := true;
               log_openable :=
                 fun reason => negb (String.eqb reason "Empty Line") |} in
  let r := process_files fs [] in
  (target_file fs = None \/ logs_creatable fs = false
   \/ master_appendable fs = false)
  /\ master r.1 = Some (text_of ["x:y:z"]%string)
  /\ trace r.1
     = [Open TargetFile; Close TargetFile; Open (LogFile "Not Enough Parts");
        error_occurred (CannotOpen (LogFile "Empty Line"))]
  /\ still_open (trace r.1) = [LogFile "Not Enough Parts"].
Proof.
  cbn zeta.
  set (fs := {| target_file := Some (text_of ["a:b:c"]%string);
                master_file := Some (text_of ["x:y:z"]%string);
                master_appendable := true;
                logs_folder := true;
                log_openable :=
                  fun reason => negb (String.eqb reason "Empty Line") |}).
  assert (H : target_file fs = None \/ logs_creatable fs = false
              \/ master_appendable fs = false)
    by (right; left; reflexivity).
  split; [exact H|].
  destruct (X8_failed_setup_changes_nothing fs [] H)
    as (_ & Hm & _ & _ & _ & _ & _ & Ho & _).
  split; [exact Hm|]. split; [vm_compute; reflexivity|].
  rewrite Ho. vm_compute. reflexivity.
Defined.

Lemma filter_terminal_progress (evs : list Event) :
  Forall is_progress evs -> filter (fun e => terminal e = true) evs = [].
Proof.
  induction 1 as [|e evs He _ IH]; [reflexivity|].
  rewrite filter_cons, IH. destruct e; try contradiction.
  now rewrite decide_False by discriminate.
Qed.

Lemma filter_terminal_ready (fs : Files) (target : str) :
  filter (fun e => terminal e = true) (trace (ready fs target)) = [].
Proof. cbn [trace ready]. destruct (master_file fs); reflexivity. Qed.

(** The events of a run up to the end of its loop. *)
Lemma loop_trace (fs : Files) (target : str) (N : nat) (s : State) :
  same_data (run_lines (take N (file_lines target)) 0 (ready fs target)) s ->
  exists evs, trace s = trace (ready fs target) ++ evs
              /\ Forall is_progress evs.
Proof.
  intros (_ & _ & _ & _ & _ & _ & _ & S8).
  destruct (run_lines_spec (take N (file_lines target)) 0 (ready fs target)
              (ready_NoDup fs target))
    as (_ & _ & _ & _ & _ & _ & _ & _ & _ & _ & evs & R11 & R12).
  exists evs. split; [congruence | exact R12].
Qed.

(** X9: a run emits exactly one terminal signal, and as its last
    event: [processing_complete] or [error_occurred], never both and
    never twice, whatever the files and the commands.  A run that
    hangs in the pause loop emits none. *)
Theorem X9_one_terminal_signal (fs : Files) (sched : list (list Command)) :
  let r := process_files fs sched in
  match r.2 with
  | Returned =>
      length (filter (fun e => terminal e = true) (trace r.1)) = 1
      /\ terminal <$> last (trace r.1) = Some true
  | Hangs => filter (fun e => terminal e = true) (trace r.1) = []
  end.
Proof.
  destruct (target_file fs) as [target|] eqn:Et;
    [destruct (master_appendable fs) eqn:Ea;
     [destruct (logs_creatable fs) eqn:El|]|].
  - assert (Hu : usable fs target) by (repeat split; assumption).
    destruct (any_run fs target sched Hu)
      as (N & s & x & _ & _ & Hd & _ & _ & Hp).
    destruct (loop_trace fs target N s Hd) as (evs & Ht & Hev).
    cbn zeta. rewrite Hp.
    assert (H0 : filter (fun e => terminal e = true) (trace s) = []).
    { rewrite Ht, filter_app, filter_terminal_ready.
      now rewrite filter_terminal_progress. }
    destruct x; cbn [fst snd trace set_is_running emit_all];
      try exact H0;
      (split;
       [rewrite filter_app, H0; reflexivity
       | rewrite last_app; reflexivity]).
  - destruct (failed_setup fs sched (or_intror (or_introl El)))
      as (R & _ & _ & _ & _ & _ & (e & before & Ht & Hb) & _).
    cbn zeta. rewrite R, Ht. now apply error_trace_terminal.
  - destruct (failed_setup fs sched (or_intror (or_intror Ea)))
      as (R & _ & _ & _ & _ & _ & (e & before & Ht & Hb) & _).
    cbn zeta. rewrite R, Ht. now apply error_trace_terminal.
  - destruct (failed_setup fs sched (or_introl Et))
      as (R & _ & _ & _ & _ & _ & (e & before & Ht & Hb) & _).
    cbn zeta. rewrite R, Ht. now apply error_trace_terminal.
Qed.

Lemma boundary_snapshots (fs : Files) (target : str) (n : nat) (s : State) :
  boundary fs target n s ->
  Forall (snapshot_ok (length (file_lines target))) (trace s).
Proof.
  induction 1 as [Hu|n s c Hb IH|n s line Hb IH Hline Hr Hp].
  - rewrite (setup_ready fs target Hu). cbn [fst trace ready].
    destruct (master_file fs); repeat constructor.
  - destruct c; exact IH.
  - assert (Hb' : boundary fs target (n + 1) (process_line (n + 1) line s))
      by (constructor; assumption).
    destruct (boundary_inv _ _ _ _ Hb) as (_ & _ & _ & I4 & I5).
    destruct (boundary_inv _ _ _ _ Hb') as (J1 & J2 & J3 & J4 & _).
    destruct (process_line_spec (n + 1) line s (keys_NoDup s I5))
      as (_ & _ & _ & _ & _ & Pt).
    rewrite Pt. apply Forall_app. split; [exact IH|].
    destruct (throttle (n + 1) (total_lines s)); [|constructor].
    constructor; [|constructor]. cbn. lia.
Qed.

(** X10: every progress snapshot a run emits, inside the loop or
    after it, is consistent: its total is the number of lines of the
    target file, its processed count is the sum of its valid and
    rejected counts, and is at most the total.  An observer never
    sees counters caught between two updates. *)
Theorem X10_snapshots_consistent (fs : Files) (target : str)
    (sched : list (list Command)) (total processed valid rejected : nat) :
  target_file fs = Some target ->
  update_progress total processed valid rejected
    ∈ trace (process_files fs sched).1 ->
  total = length (file_lines target)
  /\ processed = valid + rejected
  /\ processed <= total.
Proof.
  intros Et Hin.
  assert (Hall : Forall (snapshot_ok (length (file_lines target)))
                   (trace (process_files fs sched).1)).
  { destruct (master_appendable fs) eqn:Ea;
      [destruct (logs_creatable fs) eqn:El|].
    - assert (Hu : usable fs target) by (repeat split; assumption).
      rewrite (process_files_usable fs target sched Hu).
      destruct (loop_boundary fs target (file_lines target) 0 sched
                  (ready fs target)) as (m & Hm);
        [apply drop_0 | now apply boundary_ready|].
      pose proof (loop_keys (file_lines target) 0 sched (ready fs target)
                    eq_refl) as Hk.
      pose proof (boundary_snapshots _ _ _ _ Hm) as Hs.
      destruct (boundary_inv _ _ _ _ Hm) as (I1 & I2 & I3 & I4 & _).
      destruct (loop (file_lines target) 0 sched (ready fs target))
        as [s x]. cbn [fst] in *.
      destruct x; cbn [fst]; try exact Hs;
        rewrite finish_spec by exact Hk;
        cbn [trace set_is_running emit_all];
        (apply Forall_app; split; [exact Hs|]);
        repeat constructor; cbn; lia.
    - destruct (failed_setup fs sched (or_intror (or_introl El)))
        as (_ & _ & _ & _ & _ & _ & (e & before & Ht & Hb) & _).
      rewrite Ht. now apply error_trace_snapshots.
    - destruct (failed_setup fs sched (or_intror (or_intror Ea)))
        as (_ & _ & _ & _ & _ & _ & (e & before & Ht & Hb) & _).
      rewrite Ht. now apply error_trace_snapshots. }
  rewrite Forall_forall in Hall. exact (Hall _ Hin).
Qed.

Lemma X10_snapshots_consistent_witness :
  target_file sample_files = Some sample_target
  /\ update_progress 5 3 1 2
       ∈ trace (process_files sample_files [[]; []; []; [Stop]]).1
  /\ 3 = 1 + 2.
Proof.
  assert (Et : target_file sample_files = Some sample_target) by reflexivity.
  assert (Hin : update_progress 5 3 1 2
                  ∈ trace (process_files sample_files
                             [[]; []; []; [Stop]]).1).
  { vm_compute. do 14 right. left. }
  split; [exact Et|]. split; [exact Hin|].
  exact (proj1 (proj2 (X10_snapshots_consistent sample_files sample_target
                         _ 5 3 1 2 Et Hin))).
Defined.

(** ** The counters count the lines of the files *)

Lemma py_String (a : ascii) (t : string) :
  py (String a t) = N_of_ascii a :: py t.
Proof. reflexivity. Qed.

Lemma digits_no_NL (d : Decimal.uint) :
  NL ∉ py (NilEmpty.string_of_uint d).
Proof.
  induction d; cbn [NilEmpty.string_of_uint];
    rewrite ?py_String, ?not_elem_of_cons;
    [apply not_elem_of_nil | split; [discriminate | exact IHd] ..].
Qed.

Lemma str_of_nat_no_NL (n : nat) : NL ∉ str_of_nat n.
Proof.
  unfold str_of_nat, NilZero.string_of_uint.
  destruct (Nat.to_uint n) eqn:E; try apply digits_no_NL.
  rewrite py_String, not_elem_of_cons. split; [discriminate|].
  apply not_elem_of_nil.
Qed.

(** A log entry is one line. *)
Lemma entry_body_no_NL (n : nat) (c : str) :
  NL ∉ c -> NL ∉ py "Line " ++ str_of_nat n ++ py ": " ++ c.
Proof.
  intros Hc.
  assert (H1 : NL ∉ py "Line ").
  { intros H. apply list_elem_of_In in H. vm_compute in H.
    intuition discriminate. }
  assert (H2 : NL ∉ py ": ").
  { intros H. apply list_elem_of_In in H. vm_compute in H.
    intuition discriminate. }
  pose proof (str_of_nat_no_NL n) as H3.
  rewrite !not_elem_of_app. auto.
Qed.

Lemma rejections_lines (seen : gset str) (k : nat) (ls : list str)
    (x : Reason * nat * str) :
  x ∈ rejections seen k ls -> x.2 ∈ ls.
Proof.
  revert seen k. induction ls as [|line rest IH]; intros seen k;
    cbn [rejections]; [intros H; inversion H|].
  destruct (verdict seen line) as [c|r].
  - intros H. right. exact (IH _ _ H).
  - rewrite elem_of_cons. intros [->|H]; [left | right; exact (IH _ _ H)].
Qed.

Lemma log_text_appended (name : string) (rej : list (Reason * nat * str)) :
  log_text name rej
  = appended ((fun x => py "Line " ++ str_of_nat x.1.2 ++ py ": "
                          ++ strip x.2)
                <$> filter (fun x => reason_name x.1.1 = name) rej).
Proof.
  unfold log_text, appended. rewrite <- list_fmap_compose. f_equal.
  apply list_fmap_ext. intros _ x _. unfold compose, log_entry.
  now rewrite <- !app_assoc.
Qed.

Lemma log_text_line_count (name : string) (rej : list (Reason * nat * str)) :
  (forall x, x ∈ rej -> NL ∉ strip x.2) ->
  length (file_lines (log_text name rej))
  = length (filter (fun x => reason_name x.1.1 = name) rej).
Proof.
  intros Hrej. rewrite log_text_appended, file_lines_appended.
  - now rewrite !length_fmap.
  - apply Forall_fmap, Forall_forall. intros x Hx.
    apply list_elem_of_filter in Hx as [_ Hx]. unfold compose.
    apply entry_body_no_NL, Hrej, Hx.
Qed.

Lemma rejections_by_reason (rej : list (Reason * nat * str)) :
  length (filter (fun x => reason_name x.1.1 = "Not Enough Parts"%string) rej)
  + length (filter (fun x => reason_name x.1.1 = "Empty Line"%string) rej)
  + length (filter (fun x => reason_name x.1.1 = "Duplicate"%string) rej)
  = length rej.
Proof.
  induction rej as [|[[r n] l] rej IH]; [reflexivity|].
  rewrite !filter_cons. cbn [fst snd length].
  destruct r; cbn [reason_name];
    repeat (first [rewrite decide_True by reflexivity
                  | rewrite decide_False by discriminate]);
    cbn [length]; lia.
Qed.

(** X11: the rejected counter counts the log lines.  At the end of
    any run that got past its setup, rejected_lines is the number of
    lines written to the three log files together: every rejection is
    logged as exactly one line, in exactly one log. *)
Theorem X11_rejected_counts_log_lines (fs : Files) (target : str)
    (sched : list (list Command)) :
  usable fs target ->
  let s := (process_files fs sched).1 in
  rejected_lines s
  = sum_list ((fun kw => length (file_lines kw.2)) <$> log_files s).
Proof.
  intros Hu. destruct (run_data fs target sched Hu)
    as (_ & _ & Hr & _ & _ & Hl).
  cbn zeta. rewrite Hr, Hl.
  set (rej := rejections (seed fs) 0
                (take (processed_lines (process_files fs sched).1)
                   (file_lines target))).
  assert (Hrej : forall x, x ∈ rej -> NL ∉ strip x.2).
  { intros x Hx. apply (strip_line_no_NL target).
    apply rejections_lines in Hx. now apply elem_of_take_lines in Hx. }
  cbn [fmap list_fmap log_reasons sum_list sum_list_with snd].
  rewrite !log_text_line_count by exact Hrej.
  rewrite <- (rejections_by_reason rej). unfold id. lia.
Qed.

Lemma X11_rejected_counts_log_lines_witness :
  let s := (process_files sample_files []).1 in
  usable sample_files sample_target
  /\ rejected_lines s = 3
  /\ sum_list ((fun kw => length (file_lines kw.2)) <$> log_files s) = 3.
Proof.
  cbn zeta.
  assert (Hu : usable sample_files sample_target) by (repeat split).
  split; [exact Hu|]. split; [vm_compute; reflexivity|].
  rewrite <- (X11_rejected_counts_log_lines sample_files sample_target [] Hu).
  vm_compute. reflexivity.
Defined.

(** X12: the valid counter counts the lines added to the master file.
    When the master file is absent, empty or ends with a newline at
    the start, at the end of any run that got past its setup the
    master file has exactly valid_lines more lines than before. *)
Theorem X12_valid_counts_master_lines (fs : Files) (target : str)
    (sched : list (list Command)) :
  usable fs target ->
  terminated (default [] (master_file fs)) ->
  let s := (process_files fs sched).1 in
  length (file_lines (default [] (master s)))
  = length (file_lines (default [] (master_file fs))) + valid_lines s.
Proof.
  intros Hu Hterm. destruct (run_data fs target sched Hu)
    as (_ & Hv & _ & Hm & _).
  cbn zeta. rewrite Hm, Hv. cbn [default from_option id].
  rewrite file_lines_app_terminated by exact Hterm.
  rewrite file_lines_appended, length_app, length_fmap; [reflexivity|].
  apply Forall_forall. intros c Hc.
  apply (record_clean_in (seed fs) target
           (take (processed_lines (process_files fs sched).1)
              (file_lines target)) c); [|exact Hc].
  intros l. apply elem_of_take_lines.
Qed.

Lemma X12_valid_counts_master_lines_witness :
  let s := (process_files sample_files []).1 in
  usable sample_files sample_target
  /\ terminated (default [] (master_file sample_files))
  /\ valid_lines s = 2
  /\ length (file_lines (default [] (master s))) = 1 + 2.
Proof.
  cbn zeta.
  assert (Hu : usable sample_files sample_target) by (repeat split).
  assert (Ht : terminated (default [] (master_file sample_files)))
    by (right; reflexivity).
  split; [exact Hu|]. split; [exact Ht|].
  split; [vm_compute; reflexivity|].
  rewrite (X12_valid_counts_master_lines sample_files sample_target [] Hu Ht).
  vm_compute. reflexivity.
Defined.

(** ** A pause that is seen *)

Lemma execute_flags_after (cs : list Command) (s : State) :
  (is_running (foldl execute s cs), is_paused (foldl execute s cs))
  = foldl (fun '(r, p) c => LockProtocol.assign c r p)
      (is_running s, is_paused s) cs.
Proof.
  revert s. induction cs as [|c cs IH]; intros s; [reflexivity|].
  cbn [foldl]. rewrite IH. now destruct c.
Qed.

Lemma execute_passes (cs : list Command) (s : State) :
  is_running s = true -> is_paused s = false -> passes cs ->
  foldl execute s cs = s.
Proof.
  intros Hr Hp Hc. pose proof (execute_flags_after cs s) as Hf.
  rewrite Hr, Hp in Hf. unfold passes, flags_after in Hc. rewrite Hc in Hf.
  injection Hf as Hr' Hp'.
  destruct (execute_same_data cs s) as (H1 & H2 & H3 & H4 & H5 & H6 & H7 & H8).
  destruct (foldl execute s cs), s. cbn in *. congruence.
Qed.

(** Commands that pass leave the loop as it is without them. *)
Lemma loop_passes (pre : list (list Command)) :
  Forall passes pre ->
  forall lines n sched s,
    is_running s = true -> is_paused s = false ->
    NoDup (log_files s).*1 ->
    loop lines n (pre ++ sched) s
    = loop lines n (replicate (length pre) [] ++ sched) s.
Proof.
  induction 1 as [|cs pre Hcs _ IH]; intros lines n sched s Hr Hp Hnd;
    [reflexivity|].
  destruct lines as [|line lines]; [reflexivity|].
  cbn [length replicate app loop head tail default from_option id foldl].
  rewrite (execute_passes cs s Hr Hp Hcs), Hr, Hp. cbn [negb andb].
  destruct (process_line_spec (n + 1) line s Hnd)
    as (P1 & P2 & _ & _ & Pv & _).
  apply IH; [congruence | congruence |].
  destruct (verdict (existing_lines s) line);
    destruct Pv as (_ & _ & -> & _); [exact Hnd|].
  rewrite <- list_fmap_compose. exact Hnd.
Qed.

Lemma process_files_passes (fs : Files) (target : str)
    (pre sched : list (list Command)) :
  usable fs target -> Forall passes pre ->
  process_files fs (pre ++ sched)
  = process_files fs (replicate (length pre) [] ++ sched).
Proof.
  intros Hu Hpre. rewrite !(process_files_usable fs target _ Hu).
  now rewrite (loop_passes pre Hpre _ 0 sched (ready fs target) eq_refl
                 eq_refl (ready_NoDup fs target)).
Qed.

Lemma pause_after_quiet_lines (fs : Files) (target : str) (N : nat)
    (cs : list Command) (rest : list (list Command)) :
  usable fs target ->
  N < length (file_lines target) ->
  flags_after cs = (true, true) ->
  let r := process_files fs (replicate N [] ++ cs :: rest) in
  r.2 = Hangs
  /\ processed_lines r.1 = N
  /\ is_running r.1 = true
  /\ filter (fun e => terminal e = true) (trace r.1) = []
  /\ still_open (trace r.1)
     = (LogFile <$> log_reasons) ++ [MasterFd; TargetFile].
Proof.
  intros Hu HN Hf.
  set (sN := run_lines (take N (file_lines target)) 0 (ready fs target)).
  destruct (run_lines_spec (take N (file_lines target)) 0 (ready fs target)
              (ready_NoDup fs target))
    as (R1 & R2 & _ & R4 & _ & _ & _ & _ & _ & _ & evs & R11 & R12).
  fold sN in R1, R2, R4, R11.
  pose proof (execute_flags_after cs sN) as Hfl.
  rewrite R1, R2 in Hfl. cbn [is_running is_paused ready] in Hfl.
  unfold flags_after in Hf. rewrite Hf in Hfl. injection Hfl as Hr Hp.
  destruct (execute_same_data cs sN) as (_ & S2 & _ & _ & _ & _ & _ & S8).
  assert (Hloop : loop (file_lines target) 0 (replicate N [] ++ cs :: rest)
                    (ready fs target) = (foldl execute sN cs, Spin)).
  { rewrite (loop_quiet N (file_lines target) 0 (cs :: rest)
               (ready fs target) eq_refl eq_refl (ready_NoDup fs target))
      by lia.
    fold sN. destruct (drop N (file_lines target)) as [|line more] eqn:Ed.
    - apply (f_equal length) in Ed. rewrite length_drop in Ed.
      cbn in Ed. lia.
    - now apply loop_spin. }
  cbn zeta. rewrite (process_files_usable fs target _ Hu), Hloop.
  cbn [fst snd]. split; [reflexivity|].
  split.
  { rewrite S2, R4.
    pose proof (length_take_le (file_lines target) N) as Hl.
    destruct (take N (file_lines target)); cbn in *; lia. }
  split; [exact Hr|].
  rewrite S8, R11. split.
  - rewrite filter_app, filter_terminal_ready.
    now rewrite filter_terminal_progress.
  - now apply (still_open_run fs target evs 0 0 0 0).
Qed.

(** X13: any pause the worker sees makes the run hang.  The worker
    reaches its check before line N+1 when the commands that arrived
    before each of the N earlier checks let it pass (none, or such as
    a resume or a pause undone by a resume).  If the commands that
    arrive before that check leave is_paused set and is_running set,
    then [process_files] never returns, whatever is called afterwards:
    the N lines before are handled and no other, no terminal signal
    is ever emitted, is_running stays set, and the target file,
    [master_fd] and the three logs stay open. *)
Theorem X13_seen_pause_hangs (fs : Files) (target : str)
    (pre : list (list Command)) (cs : list Command)
    (rest : list (list Command)) :
  usable fs target ->
  Forall passes pre ->
  length pre < length (file_lines target) ->
  flags_after cs = (true, true) ->
  let r := process_files fs (pre ++ cs :: rest) in
  r.2 = Hangs
  /\ processed_lines r.1 = length pre
  /\ is_running r.1 = true
  /\ filter (fun e => terminal e = true) (trace r.1) = []
  /\ still_open (trace r.1)
     = (LogFile <$> log_reasons) ++ [MasterFd; TargetFile].
Proof.
  intros Hu Hpre HN Hf.
  rewrite (process_files_passes fs target pre (cs :: rest) Hu Hpre).
  exact (pause_after_quiet_lines fs target (length pre) cs rest Hu HN Hf).
Qed.

Lemma X13_seen_pause_hangs_witness :
  let pre := [[Resume]; [Pause; Resume]] in
  let r := process_files sample_files (pre ++ [Resume; Pause] :: [[Stop]]) in
  usable sample_files sample_target
  /\ Forall passes pre
  /\ length pre < length (file_lines sample_target)
  /\ flags_after [Resume; Pause] = (true, true)
  /\ r.2 = Hangs
  /\ processed_lines r.1 = 2.
Proof.
  cbn zeta.
  assert (Hu : usable sample_files sample_target) by (repeat split).
  assert (Hpre : Forall passes [[Resume]; [Pause; Resume]])
    by (repeat constructor).
  assert (HN : length [[Resume]; [Pause; Resume]]
               < length (file_lines sample_target)) by (vm_compute; lia).
  assert (Hf : flags_after [Resume; Pause] = (true, true)) by reflexivity.
  split; [exact Hu|]. split; [exact Hpre|]. split; [exact HN|].
  split; [exact Hf|].
  destruct (X13_seen_pause_hangs sample_files sample_target
              [[Resume]; [Pause; Resume]] [Resume; Pause] [[Stop]]
              Hu Hpre HN Hf) as (H1 & H2 & _).
  split; [exact H1 | exact H2].
Defined.

(** ** A stop that is seen *)

Lemma stop_after_quiet_lines (fs : Files) (target : str) (N : nat)
    (cs : list Command) (rest : list (list Command)) :
  usable fs target ->
  N <= length (file_lines target) ->
  Stop ∈ cs ->
  let records := accepted (seed fs) (take N (file_lines target)) in
  let rej := rejections (seed fs) 0 (take N (file_lines target)) in
  (exists s_end,
    process_files fs (replicate N [] ++ cs :: rest) = (s_end, Returned)
    /\ total_lines s_end = length (file_lines target)
    /\ processed_lines s_end = N
    /\ valid_lines s_end = length records
    /\ rejected_lines s_end = length rej
    /\ master s_end
       = Some (default [] (master_file fs) ++ appended records)
    /\ log_files s_end
       = (fun reason => (reason, log_text reason rej)) <$> log_reasons
    /\ still_open (trace s_end) = []
    /\ exists before,
         trace s_end
         = before ++ teardown (total_lines s_end) N (valid_lines s_end)
                       (rejected_lines s_end))
  /\ NoDup records
  /\ sublist records (strip <$> take N (file_lines target))
  /\ (forall c, c ∈ records <->
                (c ∉ seed fs)
                /\ exists l, l ∈ take N (file_lines target)
                     /\ validate_line l 0 = (true, "Valid"%string, c))
  /\ (exists s_full before,
        process_files fs [] = (s_full, Returned)
        /\ trace s_full
           = before ++ teardown (total_lines s_full) (processed_lines s_full)
                         (valid_lines s_full) (rejected_lines s_full)).
Proof.
  intros Hu HN Hstop records rej.
  destruct (loop_stopped fs target N cs rest HN Hstop)
    as (s & x & Hloop & Hx & Hsame).
  split; [exact (returned_run fs target N _ s x Hu HN Hloop Hx Hsame)|].
  split; [apply accepted_NoDup|].
  split; [apply accepted_sublist|].
  split; [intros c; apply elem_of_accepted|].
  destruct (complete_run fs target Hu)
    as (s_full & Hp & _ & Hn & _ & _ & _ & _ & _ & before & Ht).
  exists s_full, before. split; [exact Hp|]. now rewrite Hn.
Qed.

(** X18: a stop the worker sees while the run is not paused ends the
    run at that line boundary.  When the commands before each of the
    first N checks let the worker pass, and a stop arrives before the
    next check (or after the last line), the run returns;
    processed_lines is N; the master file is its content before the
    run followed by the records accepted among the first N lines,
    each with its newline, in the order of their lines (pairwise
    distinct, none in the index, each the record of a valid line among
    the N); the logs hold the rejections among these N lines only; and
    the teardown is that of a completed run: every handle closed, the
    final snapshot and the completion signal emitted. *)
Theorem X18_seen_stop_ends_run (fs : Files) (target : str)
    (pre : list (list Command)) (cs : list Command)
    (rest : list (list Command)) :
  usable fs target ->
  Forall passes pre ->
  length pre <= length (file_lines target) ->
  Stop ∈ cs ->
  let N := length pre in
  let records := accepted (seed fs) (take N (file_lines target)) in
  let rej := rejections (seed fs) 0 (take N (file_lines target)) in
  (exists s_end,
    process_files fs (pre ++ cs :: rest) = (s_end, Returned)
    /\ total_lines s_end = length (file_lines target)
    /\ processed_lines s_end = N
    /\ valid_lines s_end = length records
    /\ rejected_lines s_end = length rej
    /\ master s_end
       = Some (default [] (master_file fs) ++ appended records)
    /\ log_files s_end
       = (fun reason => (reason, log_text reason rej)) <$> log_reasons
    /\ still_open (trace s_end) = []
    /\ exists before,
         trace s_end
         = before ++ teardown (total_lines s_end) N (valid_lines s_end)
                       (rejected_lines s_end))
  /\ NoDup records
  /\ sublist records (strip <$> take N (file_lines target))
  /\ (forall c, c ∈ records <->
                (c ∉ seed fs)
                /\ exists l, l ∈ take N (file_lines target)
                     /\ validate_line l 0 = (true, "Valid"%string, c)).
Proof.
  intros Hu Hpre HN Hstop.
  rewrite (process_files_passes fs target pre (cs :: rest) Hu Hpre).
  destruct (stop_after_quiet_lines fs target (length pre) cs rest Hu HN Hstop)
    as (H1 & H2 & H3 & H4 & _).
  cbn zeta. auto.
Qed.

Lemma X18_seen_stop_ends_run_witness :
  let pre := [[Pause; Resume]; [Resume]] in
  usable sample_files sample_target
  /\ Forall passes pre
  /\ length pre <= length (file_lines sample_target)
  /\ Stop ∈ [Pause; Stop]
  /\ exists s_end,
       process_files sample_files (pre ++ [Pause; Stop] :: [])
       = (s_end, Returned)
       /\ processed_lines s_end = 2
       /\ master s_end = Some (text_of ["x:y:z"; "a:b:c"]%string).
Proof.
  cbn zeta.
  assert (Hu : usable sample_files sample_target) by (repeat split).
  assert (Hpre : Forall passes [[Pause; Resume]; [Resume]])
    by (repeat constructor).
  assert (HN : length [[Pause; Resume]; [Resume]]
               <= length (file_lines sample_target)) by (vm_compute; lia).
  assert (Hs : Stop ∈ [Pause; Stop]) by (right; left).
  split; [exact Hu|]. split; [exact Hpre|]. split; [exact HN|].
  split; [exact Hs|].
  destruct (X18_seen_stop_ends_run sample_files sample_target
              [[Pause; Resume]; [Resume]] [Pause; Stop] []
              Hu Hpre HN Hs) as ((s_end & Hp & _ & Hn & _ & _ & Hm & _) & _).
  exists s_end. split; [exact Hp|]. split; [exact Hn|].
  rewrite Hm. vm_compute. reflexivity.
Defined.

(** ** The Pause button *)

Module TogglePauseFacts.
Import TogglePause.

Lemma consistent_step (sy : Sys) (t : Thread) :
  consistent sy -> consistent (step sy t).
Proof.
  destruct sy as [[l r p w c cs ret left h] g k].
  unfold consistent. cbn. intros (-> & -> & H).
  destruct t; unfold step, worker_step, gui_step; cbn.
  - destruct l as [[|]|]; destruct w; cbn; try destruct left; cbn;
      intuition (try discriminate; auto).
  - destruct l as [[|]|]; destruct g as [| | |c0|c0|];
      try destruct k; cbn; intuition (try discriminate; auto).
Qed.

Lemma consistent_run (ts : list Thread) (sy : Sys) :
  consistent sy -> consistent (run ts sy).
Proof.
  revert sy. induction ts as [|t ts IH]; intros sy H; [exact H|].
  unfold run. cbn [foldl]. apply IH, consistent_step, H.
Qed.

Lemma consistent_waits (sy : Sys) (c : Command) :
  consistent sy -> gpc sy = GCall c -> waits_for_itself sy.
Proof.
  unfold consistent, waits_for_itself.
  intros (_ & _ & H) Hg. rewrite Hg in H.
  destruct (lock (core sy)) as [[|]|];
    try (destruct H as ([?|?] & _); discriminate).
  destruct H as (_ & H1 & H2 & H3). eauto 10.
Qed.

(** While the GUI thread waits for the lock it holds, nothing but the
    line in flight moves. *)
Lemma waits_step (sy : Sys) (t : Thread) :
  waits_for_itself sy ->
  waits_for_itself (step sy t)
  /\ gpc (step sy t) = gpc sy
  /\ handled (core (step sy t)) + in_flight (step sy t)
     = handled (core sy) + in_flight sy
  /\ (line_ahead sy -> line_ahead (step sy t)).
Proof.
  destruct sy as [[l r p w c cs ret left h] g k].
  unfold waits_for_itself, line_ahead, in_flight. cbn.
  intros (-> & (c0 & ->) & H1 & H2 & H3).
  destruct t; unfold step, worker_step, gui_step; cbn.
  - destruct w; cbn; try congruence; try destruct left; cbn;
      (split; [eauto 10|]); (split; [reflexivity|]);
      (split; [lia|]); intuition (try discriminate; try lia; auto).
  - split; [eauto 10|]. auto.
Qed.

Lemma waits_run (ts : list Thread) (sy : Sys) :
  waits_for_itself sy ->
  waits_for_itself (run ts sy)
  /\ gpc (run ts sy) = gpc sy
  /\ handled (core (run ts sy)) + in_flight (run ts sy)
     = handled (core sy) + in_flight sy
  /\ (line_ahead sy -> line_ahead (run ts sy)).
Proof.
  revert sy. induction ts as [|t ts IH]; intros sy H; [auto|].
  destruct (waits_step sy t H) as (H1 & H2 & H3 & H4).
  destruct (IH (step sy t) H1) as (I1 & I2 & I3 & I4).
  unfold run in *. cbn [foldl].
  split; [exact I1|]. split; [congruence|]. split; [lia | auto].
Qed.

End TogglePauseFacts.

(** X14: the Pause button cannot pause and freezes the window.
    [toggle_pause] calls [pause()] while it holds the processor's
    lock, and [pause()] waits for that same lock.  So, from the start
    of a run and whatever the scheduling: the flag is_paused is never
    set; once the GUI thread is in the call it stays there for ever;
    the worker finishes at most the line it has in flight, and if a
    line remains to be started the worker never leaves the loop. *)
Theorem X14_pause_button_deadlocks (lines clicks : nat)
    (ts1 ts2 : list Thread) (c : Command) :
  let sy1 := TogglePause.run ts1 (TogglePause.start lines clicks) in
  let sy2 := TogglePause.run ts2 sy1 in
  TogglePause.gpc sy1 = TogglePause.GCall c ->
  c = Pause
  /\ paused (TogglePause.core sy2) = false
  /\ TogglePause.gpc sy2 = TogglePause.GCall c
  /\ lock (TogglePause.core sy2) = Some Controller
  /\ handled (TogglePause.core sy2)
     <= handled (TogglePause.core sy1) + TogglePause.in_flight sy1
  /\ (TogglePause.line_ahead sy1 ->
      wpc (TogglePause.core sy2) <> WAfterLoop).
Proof.
  cbn zeta. intros Hg.
  assert (H0 : TogglePause.consistent (TogglePause.start lines clicks)).
  { unfold TogglePause.consistent. cbn. intuition discriminate. }
  pose proof (TogglePauseFacts.consistent_run ts1 _ H0) as H1.
  pose proof (TogglePauseFacts.consistent_waits _ c H1 Hg) as Hw.
  pose proof (TogglePauseFacts.consistent_run ts2 _ H1) as H2.
  destruct (TogglePauseFacts.waits_run ts2 _ Hw)
    as ((W1 & _) & W2 & W3 & W4).
  split.
  { destruct H1 as (_ & _ & H1). rewrite Hg in H1.
    destruct (lock (TogglePause.core
                      (TogglePause.run ts1 (TogglePause.start lines clicks))))
      as [[|]|];
      destruct H1 as ([H1|H1] & _); congruence. }
  split; [exact (proj1 H2)|].
  split; [congruence|]. split; [exact W1|].
  split; [lia|].
  intros Ha. specialize (W4 Ha).
  destruct W4 as [W4|(_ & [W4|W4])]; rewrite W4; discriminate.
Qed.

Lemma X14_pause_button_deadlocks_witness :
  let ts1 := [Worker; Worker; Worker; Worker;
              Controller; Controller; Controller] in
  let ts2 := [Worker; Controller; Worker; Worker; Controller; Worker] in
  let sy1 := TogglePause.run ts1 (TogglePause.start 2 1) in
  let sy2 := TogglePause.run ts2 sy1 in
  TogglePause.gpc sy1 = TogglePause.GCall Pause
  /\ TogglePause.gpc sy2 = TogglePause.GCall Pause
  /\ handled (TogglePause.core sy2) <= 1.
Proof.
  cbn zeta.
  assert (Hg : TogglePause.gpc
                 (TogglePause.run
                    [Worker; Worker; Worker; Worker;
                     Controller; Controller; Controller]
                    (TogglePause.start 2 1))
               = TogglePause.GCall Pause) by reflexivity.
  split; [exact Hg|].
  destruct (X14_pause_button_deadlocks 2 1 _
              [Worker; Controller; Worker; Worker; Controller; Worker]
              Pause Hg) as (_ & _ & H3 & _ & H5 & _).
  split; [exact H3 | exact H5].
Defined.

(** ** The settings file *)

(** X15: the chosen paths survive a restart, up to blanks at their
    ends.  After [save_settings] has written the settings file,
    [load_settings] in a fresh window gives back the two paths
    stripped of leading and trailing whitespace, provided neither
    holds a line break (newline or carriage return, which the file
    would turn into line ends); Start is then enabled as soon as both
    stripped paths are non-empty, whether or not the files still
    exist. *)
Theorem X15_settings_round_trip (path_exists : str -> bool)
    (basename : str -> str) (saved fresh : Settings.App)
    (file : option str) :
  (NL ∉ Settings.master_file saved) -> (NL ∉ Settings.target_file saved) ->
  (CR ∉ Settings.master_file saved) -> (CR ∉ Settings.target_file saved) ->
  let loaded :=
    Settings.load_settings path_exists basename
      (Settings.save_settings Settings.Saved saved file) fresh in
  Settings.master_file loaded = strip (Settings.master_file saved)
  /\ Settings.target_file loaded = strip (Settings.target_file saved)
  /\ Settings.start_enabled loaded
     = Settings.truthy (strip (Settings.master_file saved))
       && Settings.truthy (strip (Settings.target_file saved)).
Proof.
  intros Hm Ht _ _. cbn zeta.
  unfold Settings.load_settings, Settings.save_settings.
  rewrite <- app_assoc. cbn [app].
  rewrite file_lines_line by exact Hm.
  rewrite <- (app_nil_r (Settings.target_file saved ++ [NL])),
    <- app_assoc. cbn [app].
  rewrite file_lines_line by exact Ht.
  cbn [file_lines length Nat.leb nth Settings.check_files_selected
       Settings.master_file Settings.target_file Settings.start_enabled].
  rewrite !strip_snoc_space by reflexivity.
  repeat split.
  destruct (Settings.truthy (strip (Settings.master_file saved))
            && Settings.truthy (strip (Settings.target_file saved)));
    reflexivity.
Qed.

Lemma X15_settings_round_trip_witness :
  let saved := Settings.mkApp (py "/data/master list.txt") (py "new.txt ")
                 [] [] true in
  let fresh := Settings.mkApp [] [] [] [] false in
  let loaded :=
    Settings.load_settings (fun _ => false) (fun p => p)
      (Settings.save_settings Settings.Saved saved None) fresh in
  (NL ∉ Settings.master_file saved) /\ (NL ∉ Settings.target_file saved)
  /\ (CR ∉ Settings.master_file saved) /\ (CR ∉ Settings.target_file saved)
  /\ Settings.master_file loaded = py "/data/master list.txt"
  /\ Settings.target_file loaded = py "new.txt"
  /\ Settings.start_enabled loaded = true.
Proof.
  cbn zeta.
  set (saved := Settings.mkApp (py "/data/master list.txt") (py "new.txt ")
                  [] [] true).
  set (fresh := Settings.mkApp [] [] [] [] false).
  assert (H1 : NL ∉ Settings.master_file saved).
  { intros H. apply list_elem_of_In in H. vm_compute in H.
    intuition discriminate. }
  assert (H2 : NL ∉ Settings.target_file saved).
  { intros H. apply list_elem_of_In in H. vm_compute in H.
    intuition discriminate. }
  assert (H3 : CR ∉ Settings.master_file saved).
  { intros H. apply list_elem_of_In in H. vm_compute in H.
    intuition discriminate. }
  assert (H4 : CR ∉ Settings.target_file saved).
  { intros H. apply list_elem_of_In in H. vm_compute in H.
    intuition discriminate. }
  destruct (X15_settings_round_trip (fun _ => false) (fun p => p)
              saved fresh None H1 H2 H3 H4) as (R1 & R2 & R3).
  split; [exact H1|]. split; [exact H2|]. split; [exact H3|].
  split; [exact H4|].
  split; [rewrite R1; reflexivity|].
  split; [rewrite R2; reflexivity|].
  rewrite R3. reflexivity.
Defined.

(** ** Calls other than pause *)

Module LockLivenessFacts.
Import LockLiveness.

Ltac lock_cases :=
  repeat match goal with
         | H : _ /\ _ |- _ => destruct H
         | H : exists _, _ |- _ => destruct H
         | H : _ \/ _ |- _ => destruct H
         end;
  try discriminate; try congruence.

Lemma worker_moves sy sy' :
  pause_free sy -> LockProtocol.worker_step sy = Some sy' ->
  pause_free sy' /\ rank sy' < rank sy /\ all_calls sy' = all_calls sy.
Proof.
  destruct sy as [l r p w c cs ret left h].
  unfold pause_free, LockProtocol.worker_step, rank, worker_rank,
    controller_rank, all_calls.
  cbn. intros (Hp & Hc & Ha & Hh & Hl) H. subst p.
  destruct w; [destruct left| destruct l as [[]|] |destruct r| | | |];
    cbn in H; inversion H; subst; clear H; cbn;
    (split; [|split; [lia|reflexivity]]);
    (split; [reflexivity|]); (split; [assumption|]);
    (split; [assumption|]); (split; [assumption|]);
    try (destruct l as [[]|]); lock_cases;
    repeat split; try discriminate; try assumption; eauto.
Qed.

Lemma controller_moves sy sy' :
  pause_free sy -> LockProtocol.controller_step sy = Some sy' ->
  pause_free sy' /\ rank sy' < rank sy /\ all_calls sy' = all_calls sy.
Proof.
  destruct sy as [l r p w c cs ret left h].
  unfold pause_free, LockProtocol.controller_step, rank, worker_rank,
    controller_rank, all_calls.
  cbn. intros (Hp & Hc & Ha & Hh & Hl) H. subst p.
  destruct c as [|c|c]; [destruct cs as [|c cs]|destruct l as [[]|]|];
    try discriminate.
  - apply not_elem_of_cons in Hc as [Hc1 Hc2].
    inversion H; subst; clear H; cbn.
    split; [|split; [lia|lia]].
    split; [reflexivity|]. split; [assumption|].
    split; [congruence|]. split; [discriminate|].
    destruct l as [[]|]; lock_cases; repeat split; try discriminate;
      try assumption; auto.
  - inversion H; subst; clear H; cbn.
    split; [|split; [destruct w; lia|lia]].
    split; [reflexivity|]. split; [assumption|].
    split; [discriminate|]. split; [congruence|].
    lock_cases. repeat split; try assumption. eauto.
  - destruct c; try congruence; cbn in H; inversion H; subst; clear H; cbn;
      (split; [|split; [destruct w; lia|lia]]);
      (split; [reflexivity|]); (split; [assumption|]);
      (split; [discriminate|]); (split; [discriminate|]);
      destruct l as [[]|]; lock_cases; repeat split; try discriminate; auto;
      assumption.
Qed.

Lemma pause_free_step sy t :
  pause_free sy ->
  pause_free (LockProtocol.step sy t)
  /\ rank (LockProtocol.step sy t) <= rank sy
  /\ all_calls (LockProtocol.step sy t) = all_calls sy.
Proof.
  intros Hpf. unfold LockProtocol.step. destruct t.
  - destruct (LockProtocol.worker_step sy) as [sy'|] eqn:E; cbn.
    + destruct (worker_moves sy sy' Hpf E) as (H1 & H2 & H3).
      repeat split; try apply H1; try lia.
    + repeat split; try apply Hpf; lia.
  - destruct (LockProtocol.controller_step sy) as [sy'|] eqn:E; cbn.
    + destruct (controller_moves sy sy' Hpf E) as (H1 & H2 & H3).
      repeat split; try apply H1; try lia.
    + repeat split; try apply Hpf; lia.
Qed.

Lemma pause_free_run ts sy :
  pause_free sy ->
  pause_free (LockProtocol.run ts sy)
  /\ rank (LockProtocol.run ts sy) <= rank sy
  /\ all_calls (LockProtocol.run ts sy) = all_calls sy.
Proof.
  revert sy. induction ts as [|t ts IH]; intros sy Hpf.
  - cbn. repeat split; try apply Hpf; lia.
  - destruct (pause_free_step sy t Hpf) as (H1 & H2 & H3).
    destruct (IH _ H1) as (I1 & I2 & I3).
    change (LockProtocol.run (t :: ts) sy)
      with (LockProtocol.run ts (LockProtocol.step sy t)).
    split; [exact I1|]. split; [lia|congruence].
Qed.

(** Somebody can move as long as something is left to do. *)
Lemma no_deadlock sy :
  pause_free sy -> 0 < rank sy ->
  LockProtocol.worker_step sy <> None
  \/ LockProtocol.controller_step sy <> None.
Proof.
  destruct sy as [l r p w c cs ret left h].
  unfold pause_free, LockProtocol.worker_step,
    LockProtocol.controller_step, rank, worker_rank, controller_rank.
  cbn. intros (Hp & Hc & Ha & Hh & Hl) Hr. subst p.
  destruct w; try (left; destruct left, r; discriminate).
  - destruct l as [[]|]; lock_cases; [|left; discriminate].
    right. subst c. destruct (LockProtocol.assign x r false). discriminate.
  - destruct c as [|c|c]; [destruct cs|destruct l as [[]|]|];
      cbn in Hr; try lia; lock_cases; right; try discriminate.
    destruct (LockProtocol.assign c r false). discriminate.
Qed.

Lemma rank_round sy :
  pause_free sy ->
  pause_free (round sy) /\ rank (round sy) <= rank sy - 1
  /\ all_calls (round sy) = all_calls sy.
Proof.
  intros Hpf. unfold round.
  destruct (pause_free_step sy LockProtocol.Worker Hpf) as (H1 & H2 & H3).
  destruct (pause_free_step _ LockProtocol.Controller H1) as (I1 & I2 & I3).
  split; [exact I1|]. split; [|congruence].
  destruct (Nat.eq_dec (rank sy) 0) as [Hz|Hz]; [lia|].
  unfold LockProtocol.step in *.
  destruct (LockProtocol.worker_step sy) as [sy'|] eqn:E; cbn in *.
  - destruct (worker_moves sy sy' Hpf E) as (_ & W & _). lia.
  - destruct (LockProtocol.controller_step sy) as [sy'|] eqn:E'; cbn in *.
    + destruct (controller_moves sy sy' Hpf E') as (_ & W & _). lia.
    + destruct (no_deadlock sy Hpf) as [N|N]; [lia| |]; congruence.
Qed.

Lemma rank_rounds n sy :
  pause_free sy ->
  pause_free (Nat.iter n round sy)
  /\ rank (Nat.iter n round sy) <= rank sy - n
  /\ all_calls (Nat.iter n round sy) = all_calls sy.
Proof.
  intros Hpf. induction n as [|n (I1 & I2 & I3)].
  - cbn. repeat split; try apply Hpf; lia.
  - change (Nat.iter (S n) round sy) with (round (Nat.iter n round sy)).
    destruct (rank_round _ I1) as (R1 & R2 & R3).
    split; [exact R1|]. split; [lia|congruence].
Qed.

Lemma pause_free_start lines cs :
  Pause ∉ cs -> pause_free (LockProtocol.start lines cs).
Proof.
  intros H. unfold pause_free. cbn.
  repeat split; try discriminate; assumption.
Qed.

(** At rank 0 everything is over. *)
Lemma rank_zero sy :
  pause_free sy -> rank sy = 0 ->
  LockProtocol.wpc sy = LockProtocol.WAfterLoop
  /\ LockProtocol.cpc sy = LockProtocol.CIdle
  /\ LockProtocol.calls sy = []
  /\ LockProtocol.lock sy = None
  /\ LockProtocol.returned sy = all_calls sy.
Proof.
  destruct sy as [l r p w c cs ret left h].
  unfold pause_free, rank, worker_rank, controller_rank, all_calls.
  cbn. intros (Hp & Hc & Ha & Hh & Hl) Hr.
  destruct w; try lia. destruct c; try lia. destruct cs; [|cbn in Hr; lia].
  destruct l as [[]|]; lock_cases. repeat split. cbn. lia.
Qed.

(** No line is handled twice, whatever the calls and the schedule. *)
Lemma handled_step lines sy t :
  LockProtocol.handled sy + LockProtocol.lines_left sy + read sy <= lines ->
  LockProtocol.handled (LockProtocol.step sy t)
  + LockProtocol.lines_left (LockProtocol.step sy t)
  + read (LockProtocol.step sy t) <= lines.
Proof.
  destruct sy as [l r p w c cs ret left h].
  unfold LockProtocol.step, LockProtocol.worker_step,
    LockProtocol.controller_step, read.
  cbn. intros H. destruct t.
  - destruct w; [destruct left|destruct l|destruct r|destruct p, r| | |];
      cbn in *; lia.
  - destruct c as [|c|c]; [destruct cs|destruct l|destruct c];
      cbn in *; lia.
Qed.

Lemma handled_run lines ts sy :
  LockProtocol.handled sy + LockProtocol.lines_left sy + read sy <= lines ->
  LockProtocol.handled (LockProtocol.run ts sy)
  + LockProtocol.lines_left (LockProtocol.run ts sy)
  + read (LockProtocol.run ts sy) <= lines.
Proof.
  revert sy. induction ts as [|t ts IH]; intros sy H; [exact H|].
  change (LockProtocol.run (t :: ts) sy)
    with (LockProtocol.run ts (LockProtocol.step sy t)).
  apply IH, handled_step, H.
Qed.

Lemma handled_rounds lines n sy :
  LockProtocol.handled sy + LockProtocol.lines_left sy + read sy <= lines ->
  LockProtocol.handled (Nat.iter n round sy)
  + LockProtocol.lines_left (Nat.iter n round sy)
  + read (Nat.iter n round sy) <= lines.
Proof.
  intros H. induction n as [|n IH]; [exact H|].
  change (Nat.iter (S n) round sy) with (round (Nat.iter n round sy)).
  unfold round. apply handled_step, handled_step, IH.
Qed.

Lemma stop_free_step lines sy t :
  stop_free lines sy -> stop_free lines (LockProtocol.step sy t).
Proof.
  destruct sy as [l r p w c cs ret left h].
  unfold stop_free, LockProtocol.step, LockProtocol.worker_step,
    LockProtocol.controller_step, read.
  cbn. intros (Hr & Hc & Ha & Hh & Hl & Hz). subst r. destruct t.
  - destruct w; [destruct left|destruct l| |destruct p| | |];
      cbn in *; repeat split; try assumption; try discriminate; lia.
  - destruct c as [|c|c]; [destruct cs as [|c cs]|destruct l|destruct c];
      cbn in *; try (repeat split; try assumption; try discriminate; lia).
    + apply not_elem_of_cons in Hc as [Hc1 Hc2].
      repeat split; try assumption; try discriminate; congruence.
    + repeat split; try assumption; try discriminate; congruence.
    + congruence.
Qed.

Lemma stop_free_run lines ts sy :
  stop_free lines sy -> stop_free lines (LockProtocol.run ts sy).
Proof.
  revert sy. induction ts as [|t ts IH]; intros sy H; [exact H|].
  change (LockProtocol.run (t :: ts) sy)
    with (LockProtocol.run ts (LockProtocol.step sy t)).
  apply IH, stop_free_step, H.
Qed.

Lemma stop_free_rounds lines n sy :
  stop_free lines sy -> stop_free lines (Nat.iter n round sy).
Proof.
  intros H. induction n as [|n IH]; [exact H|].
  change (Nat.iter (S n) round sy) with (round (Nat.iter n round sy)).
  unfold round. apply stop_free_step, stop_free_step, IH.
Qed.

(** The loop is left with lines unread only after a stop. *)
Lemma stop_free_after_loop lines sy :
  stop_free lines sy ->
  LockProtocol.wpc sy = LockProtocol.WAfterLoop ->
  LockProtocol.handled sy = lines.
Proof.
  intros (_ & _ & _ & _ & H & H0) Hw. specialize (H0 Hw).
  unfold read in H. rewrite Hw in H. lia.
Qed.

Lemma stop_free_start lines cs :
  Stop ∉ cs -> stop_free lines (LockProtocol.start lines cs).
Proof.
  intros H. unfold stop_free, read. cbn.
  repeat split; try discriminate; try assumption. lia.
Qed.

End LockLivenessFacts.

(** X16: without a pause, stop and resume always return and the worker
    always leaves its loop.  Whatever the two threads did so far, if
    the calls to be made hold no [pause()], then letting the worker
    and the controlling thread move in turn for at most
    [5 * lines + 3 * calls + 1] rounds ends with every call returned,
    the loop left and the lock free; no line is handled twice, and
    when no [stop()] is among the calls every line of the target is
    handled. *)
Theorem X16_stop_and_resume_return (lines : nat) (cs : list Command)
    (ts : list LockProtocol.Thread) :
  (Pause ∉ cs) ->
  let sy := LockProtocol.run ts (LockProtocol.start lines cs) in
  let final :=
    Nat.iter (5 * lines + 3 * length cs + 1) LockLiveness.round sy in
  LockProtocol.wpc final = LockProtocol.WAfterLoop
  /\ LockProtocol.cpc final = LockProtocol.CIdle
  /\ LockProtocol.calls final = []
  /\ LockProtocol.returned final = length cs
  /\ LockProtocol.lock final = None
  /\ LockProtocol.paused final = false
  /\ LockProtocol.handled final <= lines
  /\ ((Stop ∉ cs) -> LockProtocol.handled final = lines).
Proof.
  intros Hp sy final.
  pose proof (LockLivenessFacts.pause_free_start lines cs Hp) as H0.
  destruct (LockLivenessFacts.pause_free_run ts _ H0) as (H1 & H2 & H3).
  fold sy in H1, H2, H3.
  destruct (LockLivenessFacts.rank_rounds
              (5 * lines + 3 * length cs + 1) sy H1) as (R1 & R2 & R3).
  fold final in R1, R2, R3.
  assert (Hs : LockLiveness.rank (LockProtocol.start lines cs)
               = 5 * lines + 1 + 3 * length cs) by (cbn; lia).
  assert (Hz : LockLiveness.rank final = 0) by lia.
  destruct (LockLivenessFacts.rank_zero final R1 Hz)
    as (Z1 & Z2 & Z3 & Z4 & Z5).
  assert (Ha : LockLiveness.all_calls (LockProtocol.start lines cs)
               = length cs) by (cbn; lia).
  split; [exact Z1|]. split; [exact Z2|]. split; [exact Z3|].
  split; [congruence|]. split; [exact Z4|]. split; [apply R1|].
  split.
  - assert (Hh : LockProtocol.handled final
                 + LockProtocol.lines_left final
                 + LockLiveness.read final <= lines).
    { apply LockLivenessFacts.handled_rounds,
        LockLivenessFacts.handled_run.
      unfold LockLiveness.read. cbn. lia. }
    lia.
  - intros Hstop.
    apply (LockLivenessFacts.stop_free_after_loop lines final); [|exact Z1].
    apply LockLivenessFacts.stop_free_rounds,
      LockLivenessFacts.stop_free_run,
      LockLivenessFacts.stop_free_start, Hstop.
Qed.

Lemma X16_stop_and_resume_return_witness :
  let cs := [Resume; Stop] in
  let ts := [LockProtocol.Controller; LockProtocol.Worker;
             LockProtocol.Worker] in
  let final :=
    Nat.iter (5 * 3 + 3 * length cs + 1) LockLiveness.round
      (LockProtocol.run ts (LockProtocol.start 3 cs)) in
  (Pause ∉ cs)
  /\ LockProtocol.wpc final = LockProtocol.WAfterLoop
  /\ LockProtocol.returned final = 2
  /\ LockProtocol.lock final = None
  /\ LockProtocol.handled final <= 3.
Proof.
  cbn zeta.
  assert (Hp : Pause ∉ [Resume; Stop]).
  { intros H. apply list_elem_of_In in H. cbn in H.
    intuition discriminate. }
  destruct (X16_stop_and_resume_return 3 [Resume; Stop]
              [LockProtocol.Controller; LockProtocol.Worker;
               LockProtocol.Worker] Hp)
    as (R1 & _ & _ & R4 & R5 & _ & R7 & _).
  split; [exact Hp|]. split; [exact R1|]. split; [exact R4|].
  split; [exact R5|exact R7].
Defined.

(** X17: loading the settings twice is loading them once.  Whatever
    the settings file holds and whatever the window showed before,
    a second [load_settings] on the same file and file system changes
    nothing: the paths, the labels and the Start button are the ones
    of the first. *)
Theorem X17_load_settings_idempotent (path_exists : str -> bool)
    (basename : str -> str) (file : option str) (a : Settings.App) :
  Settings.load_settings path_exists basename file
    (Settings.load_settings path_exists basename file a)
  = Settings.load_settings path_exists basename file a.
Proof.
  unfold Settings.load_settings. destruct file as [text|]; [|reflexivity].
  destruct (2 <=? length (file_lines text)) eqn:E; rewrite ?E; [|reflexivity].
  unfold Settings.check_files_selected.
  cbn [Settings.master_file Settings.target_file Settings.master_label
       Settings.target_label Settings.start_enabled].
  destruct (Settings.truthy (strip (nth 0 (file_lines text) []))
            && path_exists (strip (nth 0 (file_lines text) [])));
    destruct (Settings.truthy (strip (nth 1 (file_lines text) []))
              && path_exists (strip (nth 1 (file_lines text) [])));
    reflexivity.
Qed.

(** ** Commands before the worker starts *)

Lemma flags_reset (cs : list Command) (s : State) :
  set_is_paused false (set_is_running true (foldl execute s cs))
  = set_is_paused false (set_is_running true s).
Proof.
  revert s. induction cs as [|c cs IH]; intros s; [reflexivity|].
  cbn [foldl]. rewrite IH. now destruct c.
Qed.

Lemma try_block_resets (fs : Files) (sched : list (list Command))
    (s : State) :
  try_block fs sched s
  = try_block fs sched (set_is_paused false (set_is_running true s)).
Proof. reflexivity. Qed.

(** X19: commands issued before the worker starts are lost.  The
    worker's first statement sets is_running and clears is_paused, so
    the [try] block of [process_files] entered on a processor on which
    [stop()], [pause()] or [resume()] were already called (the thread
    is started but has not run yet) does exactly what it does on a
    fresh processor: a stop issued that early does not stop the run. *)
Theorem X19_commands_before_start_are_lost (fs : Files)
    (early : list Command) (sched : list (list Command)) :
  try_block fs sched (foldl execute (init fs) early)
  = try_block fs sched (init fs).
Proof.
  rewrite (try_block_resets fs sched (foldl execute (init fs) early)).
  rewrite flags_reset. symmetry. apply try_block_resets.
Qed.

(** ** A save that fails *)

(** X20: a save that fails after the file was opened loses the
    settings saved before.  Whatever the settings file held, when a
    write of [save_settings] raises (the path cannot be encoded) the
    file is left empty or with the master path alone, and the next
    [load_settings] finds fewer than two lines and loads nothing: the
    window stays as it was.  (The master path holds no line break.) *)
Theorem X20_failed_save_forgets_settings (path_exists : str -> bool)
    (basename : str -> str) (how : Settings.Saving)
    (a fresh : Settings.App) (file : option str) :
  how = Settings.FirstWriteFails \/ how = Settings.SecondWriteFails ->
  (NL ∉ Settings.master_file a) -> (CR ∉ Settings.master_file a) ->
  length (file_lines (default [] (Settings.save_settings how a file))) < 2
  /\ Settings.load_settings path_exists basename
       (Settings.save_settings how a file) fresh
     = fresh.
Proof.
  intros [-> | ->] Hnl _; unfold Settings.load_settings,
    Settings.save_settings; cbn [default from_option id].
  - split; [cbn; lia | reflexivity].
  - rewrite file_lines_line by exact Hnl. cbn. split; [lia | reflexivity].
Qed.

Lemma X20_failed_save_forgets_settings_witness :
  let a := Settings.mkApp (py "/data/master.txt") (py "/data/new.txt")
             [] [] true in
  let fresh := Settings.mkApp [] [] [] [] false in
  let before := Settings.save_settings Settings.Saved a None in
  let after := Settings.save_settings Settings.SecondWriteFails a before in
  (Settings.SecondWriteFails = Settings.FirstWriteFails
   \/ Settings.SecondWriteFails = Settings.SecondWriteFails)
  /\ (NL ∉ Settings.master_file a) /\ (CR ∉ Settings.master_file a)
  /\ Settings.start_enabled
       (Settings.load_settings (fun _ => true) (fun p => p) before fresh)
     = true
  /\ Settings.load_settings (fun _ => true) (fun p => p) after fresh = fresh.
Proof.
  cbn zeta.
  set (a := Settings.mkApp (py "/data/master.txt") (py "/data/new.txt")
              [] [] true).
  assert (H0 : Settings.SecondWriteFails = Settings.FirstWriteFails
               \/ Settings.SecondWriteFails = Settings.SecondWriteFails)
    by (right; reflexivity).
  assert (H1 : NL ∉ Settings.master_file a).
  { intros H. apply list_elem_of_In in H. vm_compute in H.
    intuition discriminate. }
  assert (H2 : CR ∉ Settings.master_file a).
  { intros H. apply list_elem_of_In in H. vm_compute in H.
    intuition discriminate. }
  split; [exact H0|]. split; [exact H1|]. split; [exact H2|].
  split; [vm_compute; reflexivity|].
  exact (proj2 (X20_failed_save_forgets_settings (fun _ => true) (fun p => p)
                  Settings.SecondWriteFails a _
                  (Settings.save_settings Settings.Saved a None) H0 H1 H2)).
Defined.
